(** * wifi-dump: the profile parsers, the filter engine, the exporters and
      the statistics of [wifi_extractor.py], embedded and verified.

    Python [str] values are sequences of Unicode code points; they are
    modelled as lists of code points ([N]).  The literals of the source are
    written as UTF-8 string literals and decoded once. *)

From Stdlib Require Import NArith ZArith String Ascii.
From Stdlib.Strings Require Import Byte.
From Stdlib Require DecimalN DecimalPos DecimalFacts.
From stdpp Require Import base decidable option list gmap.

Local Open Scope N_scope.

(** ** Python strings *)

Module PyStr.

Abbreviation char := N (only parsing).
Abbreviation pystr := (list N) (only parsing).

(** Decoding of a UTF-8 byte sequence (only used to write literals). *)
Fixpoint utf8_decode (bs : list N) : list N :=
  match bs with
  | [] => []
  | b1 :: r1 =>
    if b1 <? 128 then b1 :: utf8_decode r1
    else if b1 <? 224 then
      match r1 with
      | b2 :: r2 => ((b1 - 192) * 64 + (b2 - 128)) :: utf8_decode r2
      | [] => []
      end
    else if b1 <? 240 then
      match r1 with
      | b2 :: b3 :: r3 =>
        ((b1 - 224) * 4096 + (b2 - 128) * 64 + (b3 - 128)) :: utf8_decode r3
      | _ => []
      end
    else
      match r1 with
      | b2 :: b3 :: b4 :: r4 =>
        ((b1 - 240) * 262144 + (b2 - 128) * 4096 + (b3 - 128) * 64 + (b4 - 128))
          :: utf8_decode r4
      | _ => []
      end
  end.

Definition py (s : string) : list N :=
  utf8_decode (List.map (fun b => N.of_nat (Byte.to_nat b)) (list_byte_of_string s)).

Definition NL : N := 10.
Definition COLON : N := 58.
Definition QUOTE : N := 34.

(** [str.isspace] of one code point; the same set is used by [str.strip()]
    and by [\s] in a [str] pattern of [re]. *)
Definition isspace (c : N) : bool :=
  ((9 <=? c) && (c <=? 13)) || ((28 <=? c) && (c <=? 32))
  || (c =? 133) || (c =? 160) || (c =? 5760)
  || ((8192 <=? c) && (c <=? 8202))
  || (c =? 8232) || (c =? 8233) || (c =? 8239) || (c =? 8287) || (c =? 12288).

(** [s.split('\n')] *)
Fixpoint split_nl (s : list N) : list (list N) :=
  match s with
  | [] => [[]]
  | c :: s' =>
    if c =? NL then [] :: split_nl s'
    else match split_nl s' with
         | l :: ls => (c :: l) :: ls
         | [] => [[c]]
         end
  end.

Fixpoint lstrip (s : list N) : list N :=
  match s with
  | [] => []
  | c :: s' => if isspace c then lstrip s' else s
  end.

Fixpoint rstrip (s : list N) : list N :=
  match s with
  | [] => []
  | c :: s' =>
    match rstrip s' with
    | [] => if isspace c then [] else [c]
    | r => c :: r
    end
  end.

(** [s.strip()] *)
Definition strip (s : list N) : list N := rstrip (lstrip s).

(** [s.startswith(p)] *)
Fixpoint startswith (p s : list N) : bool :=
  match p, s with
  | [], _ => true
  | _ :: _, [] => false
  | a :: p', b :: s' => (a =? b) && startswith p' s'
  end.

(** [needle in hay] *)
Fixpoint contains (needle hay : list N) : bool :=
  match hay with
  | [] => startswith needle []
  | _ :: hay' => startswith needle hay || contains needle hay'
  end.

(** [s == t] *)
Definition str_eqb (s t : list N) : bool := bool_decide (s = t).

(** Truth value of a string: [bool(s)]. *)
Definition truthy (s : list N) : bool :=
  match s with [] => false | _ => true end.

(** The run that [.+] matches at the start of [s]: every character up to
    the next newline. *)
Fixpoint dot_run (s : list N) : list N :=
  match s with
  | [] => []
  | c :: s' => if c =? NL then [] else c :: dot_run s'
  end.

(** [\s*(.+)] anchored at the start of [r]: group 1 of the match the
    backtracking engine finds first ([\s*] greedy, giving characters back
    only when [.+] would otherwise be empty). *)
Fixpoint match_ws_dot (r : list N) : option (list N) :=
  match r with
  | [] => None
  | c :: r' =>
    if isspace c then
      match match_ws_dot r' with
      | Some g => Some g
      | None => if c =? NL then None else Some (dot_run r)
      end
    else Some (dot_run r)
  end.

(** [re.search(r':\s*(.+)', s)], returning group 1. *)
Fixpoint re_search_value (s : list N) : option (list N) :=
  match s with
  | [] => None
  | c :: s' =>
    if c =? COLON then
      match match_ws_dot s' with
      | Some g => Some g
      | None => re_search_value s'
      end
    else re_search_value s'
  end.

(** [s[len(p):]] when [s] starts with [p]. *)
Fixpoint strip_prefix (p s : list N) : option (list N) :=
  match p, s with
  | [], _ => Some s
  | _ :: _, [] => None
  | a :: p', b :: s' => if a =? b then strip_prefix p' s' else None
  end.

(** [lit\s*:\s*(.+)] anchored at the start of [s]. *)
Definition match_label_value (lit s : list N) : option (list N) :=
  match strip_prefix lit s with
  | Some r =>
    match lstrip r with
    | c :: r' => if c =? COLON then match_ws_dot r' else None
    | [] => None
    end
  | None => None
  end.

(** [re.search(lit + r'\s*:\s*(.+)', s)], returning group 1. *)
Fixpoint re_search_label (lit s : list N) : option (list N) :=
  match match_label_value lit s with
  | Some g => Some g
  | None =>
    match s with
    | [] => None
    | _ :: s' => re_search_label lit s'
    end
  end.

End PyStr.
Import PyStr.

Definition LBL_USER_PROFILES : list N :=
  Eval vm_compute in py "Профили пользователей".
Definition LBL_GROUP_PROFILES : list N :=
  Eval vm_compute in py "Профили групповой политики".
Definition LBL_ALL_USER_PROFILE : list N :=
  Eval vm_compute in py "Все профили пользователей".

(** Labels of the detail report, English and Russian. *)
Definition LBL_AUTH : list N := Eval vm_compute in py "Authentication".
Definition LBL_AUTH_RU : list N := Eval vm_compute in py "Проверка подлинности".
Definition LBL_CIPHER : list N := Eval vm_compute in py "Cipher".
Definition LBL_CIPHER_RU : list N := Eval vm_compute in py "Шифр".
Definition LBL_KEY_CONTENT : list N := Eval vm_compute in py "Key Content".
Definition LBL_KEY_CONTENT_RU : list N := Eval vm_compute in py "Содержимое ключа".
Definition LBL_KEY_TYPE : list N := Eval vm_compute in py "Key Type".
Definition LBL_KEY_TYPE_RU : list N := Eval vm_compute in py "Тип ключа".
Definition LBL_PROFILE_TYPE : list N := Eval vm_compute in py "Profile Type".
Definition LBL_PROFILE_TYPE_RU : list N := Eval vm_compute in py "Тип профиля".

Definition UNKNOWN : list N := Eval vm_compute in py "Unknown".
Definition NOT_FOUND : list N := Eval vm_compute in py "Not found".
Definition NO_PASSWORD_SAVED : list N := Eval vm_compute in py "No password saved".
Definition ABSENT : list N := Eval vm_compute in py "Absent".

(** ** The data model *)

(** [class WifiProfile] *)
Record WifiProfile := mkWifiProfile {
  ssid : list N;
  authentication : list N;
  encryption : list N;
  key : list N;
  key_type : list N;
  profile_type : list N;
  last_modified : list N
}.

Definition set_authentication (v : list N) (p : WifiProfile) : WifiProfile :=
  mkWifiProfile (ssid p) v (encryption p) (key p) (key_type p) (profile_type p)
                (last_modified p).
Definition set_encryption (v : list N) (p : WifiProfile) : WifiProfile :=
  mkWifiProfile (ssid p) (authentication p) v (key p) (key_type p) (profile_type p)
                (last_modified p).
Definition set_key (v : list N) (p : WifiProfile) : WifiProfile :=
  mkWifiProfile (ssid p) (authentication p) (encryption p) v (key_type p)
                (profile_type p) (last_modified p).
Definition set_key_type (v : list N) (p : WifiProfile) : WifiProfile :=
  mkWifiProfile (ssid p) (authentication p) (encryption p) (key p) v
                (profile_type p) (last_modified p).
Definition set_profile_type (v : list N) (p : WifiProfile) : WifiProfile :=
  mkWifiProfile (ssid p) (authentication p) (encryption p) (key p) (key_type p) v
                (last_modified p).

(** ** The profile list parser *)

(** The loop of [_parse_profile_list]: [in_section] is the flag
    [in_user_profiles_section], [acc] the list [profiles] built so far.
    [continue] and [break] are the first and the second early exit. *)
Fixpoint parse_list_loop (lines : list (list N)) (in_section : bool)
    (acc : list (list N)) : list (list N) :=
  match lines with
  | [] => acc
  | raw :: rest =>
    let line := strip raw in
    if startswith LBL_USER_PROFILES line then parse_list_loop rest true acc
    else if in_section then
      if negb (truthy line) || startswith LBL_GROUP_PROFILES line then acc
      else match re_search_label LBL_ALL_USER_PROFILE line with
           | Some g => parse_list_loop rest in_section (acc ++ [strip g])
           | None => parse_list_loop rest in_section acc
           end
    else parse_list_loop rest in_section acc
  end.

Definition _parse_profile_list (output : list N) : list (list N) :=
  parse_list_loop (split_nl output) false [].

(** ** The profile detail parser *)

(** The dictionary [profile_data] has a fixed key set and is turned into a
    [WifiProfile] at the end; it is kept as the record from the start. *)
Definition initial_profile_data (profile_name : list N) : WifiProfile :=
  mkWifiProfile profile_name UNKNOWN UNKNOWN NOT_FOUND UNKNOWN UNKNOWN [].

Definition is_auth_line (line : list N) : bool :=
  contains LBL_AUTH line || contains LBL_AUTH_RU line.
Definition is_cipher_line (line : list N) : bool :=
  contains LBL_CIPHER line || contains LBL_CIPHER_RU line.
Definition is_key_content_line (line : list N) : bool :=
  contains LBL_KEY_CONTENT line || contains LBL_KEY_CONTENT_RU line.
Definition is_key_type_line (line : list N) : bool :=
  contains LBL_KEY_TYPE line || contains LBL_KEY_TYPE_RU line.
Definition is_profile_type_line (line : list N) : bool :=
  contains LBL_PROFILE_TYPE line || contains LBL_PROFILE_TYPE_RU line.

(** One iteration of the loop of [_parse_profile_details]. *)
Definition details_step (pd : WifiProfile) (raw : list N) : WifiProfile :=
  let line := strip raw in
  if is_auth_line line then
    match re_search_value line with
    | Some g => set_authentication (strip g) pd
    | None => pd
    end
  else if is_cipher_line line then
    match re_search_value line with
    | Some g => set_encryption (strip g) pd
    | None => pd
    end
  else if is_key_content_line line then
    match re_search_value line with
    | Some g =>
      let key_content := strip g in
      if truthy key_content && negb (str_eqb key_content ABSENT)
      then set_key key_content pd
      else set_key NO_PASSWORD_SAVED pd
    | None => pd
    end
  else if is_key_type_line line then
    match re_search_value line with
    | Some g => set_key_type (strip g) pd
    | None => pd
    end
  else if is_profile_type_line line then
    match re_search_value line with
    | Some g => set_profile_type (strip g) pd
    | None => pd
    end
  else pd.

Definition _parse_profile_details (output profile_name : list N) : WifiProfile :=
  fold_left details_step (split_nl output) (initial_profile_data profile_name).

(** ** The filter predicate *)

(** [p.key and p.key != 'No password saved' and p.key != 'Not found'] *)
Definition has_password_b (p : WifiProfile) : bool :=
  truthy (key p) && negb (str_eqb (key p) NO_PASSWORD_SAVED)
  && negb (str_eqb (key p) NOT_FOUND).

(** [not p.key or p.key == 'No password saved' or p.key == 'Not found'] *)
Definition no_password_b (p : WifiProfile) : bool :=
  negb (truthy (key p)) || str_eqb (key p) NO_PASSWORD_SAVED
  || str_eqb (key p) NOT_FOUND.

(** ** Text formatting used by the exporters *)

(** Decimal digits of a [Decimal.uint] as code points. *)
Fixpoint uint_digits (u : Decimal.uint) : list N :=
  match u with
  | Decimal.Nil => []
  | Decimal.D0 u' => 48 :: uint_digits u'
  | Decimal.D1 u' => 49 :: uint_digits u'
  | Decimal.D2 u' => 50 :: uint_digits u'
  | Decimal.D3 u' => 51 :: uint_digits u'
  | Decimal.D4 u' => 52 :: uint_digits u'
  | Decimal.D5 u' => 53 :: uint_digits u'
  | Decimal.D6 u' => 54 :: uint_digits u'
  | Decimal.D7 u' => 55 :: uint_digits u'
  | Decimal.D8 u' => 56 :: uint_digits u'
  | Decimal.D9 u' => 57 :: uint_digits u'
  end.

Definition MINUS : N := 45.
Definition COMMA : N := 44.
Definition SPACE : N := 32.
Definition CR : N := 13.
Definition BACKSLASH : N := 92.

(** [str(z)] for an [int] *)
Definition int_str (z : Z) : list N :=
  match z with
  | Zneg p => MINUS :: uint_digits (N.to_uint (Npos p))
  | _ => uint_digits (N.to_uint (Z.to_N z))
  end.

(** [sep.join(parts)] *)
Fixpoint join (sep : list N) (parts : list (list N)) : list N :=
  match parts with
  | [] => []
  | [p] => p
  | p :: ps => p ++ sep ++ join sep ps
  end.

(** [enumerate(xs, start)] *)
Fixpoint enumerate {A} (start : Z) (xs : list A) : list (Z * A) :=
  match xs with
  | [] => []
  | x :: xs' => (start, x) :: enumerate (start + 1)%Z xs'
  end.

(** *** CSV rows, dialect [excel] with minimal quoting *)
Module Csv.

Definition special (c : N) : bool :=
  (c =? COMMA) || (c =? QUOTE) || (c =? CR) || (c =? NL).

Definition needs_quotes (field : list N) : bool := existsb special field.

Fixpoint double_quotes (field : list N) : list N :=
  match field with
  | [] => []
  | c :: r => if c =? QUOTE then QUOTE :: QUOTE :: double_quotes r
              else c :: double_quotes r
  end.

Definition csv_field (field : list N) : list N :=
  if needs_quotes field then [QUOTE] ++ double_quotes field ++ [QUOTE]
  else field.

(** What [writer.writerow] hands to the file in one [write]. *)
Definition csv_row (fields : list (list N)) : list N :=
  join [COMMA] (List.map csv_field fields) ++ [CR; NL].

End Csv.

(** *** JSON documents: [json.dump(..., indent=2, ensure_ascii=False)] and
    [json.load] *)
Module Json.

Inductive json :=
| JNull
| JBool (b : bool)
| JInt (z : Z)
| JStr (s : list N)
| JArr (items : list json)
| JObj (members : list (list N * json)).

Definition hex_digit (d : N) : N := if d <? 10 then 48 + d else 87 + d.

(** The replacement of one character inside a string literal. *)
Definition escape_char (c : N) : list N :=
  if c =? QUOTE then [BACKSLASH; QUOTE]
  else if c =? BACKSLASH then [BACKSLASH; BACKSLASH]
  else if c =? 10 then [BACKSLASH; 110]
  else if c =? 13 then [BACKSLASH; 114]
  else if c =? 9 then [BACKSLASH; 116]
  else if c =? 8 then [BACKSLASH; 98]
  else if c =? 12 then [BACKSLASH; 102]
  else if c <? 32 then
    [BACKSLASH; 117; 48; 48; hex_digit (c / 16); hex_digit (c mod 16)]
  else [c].

(** [encode_basestring] *)
Definition encode_string (s : list N) : list N :=
  [QUOTE] ++ concat (List.map escape_char s) ++ [QUOTE].

Definition newline_indent (level : nat) : list N :=
  NL :: repeat SPACE (2 * level).

Definition ITEM_SEPARATOR : list N := [COMMA].
Definition KEY_SEPARATOR : list N := [COLON; SPACE].

(** The text of a value at a nesting level. *)
Fixpoint encode (level : nat) (v : json) : list N :=
  match v with
  | JNull => [110; 117; 108; 108]
  | JBool true => [116; 114; 117; 101]
  | JBool false => [102; 97; 108; 115; 101]
  | JInt z => int_str z
  | JStr s => encode_string s
  | JArr [] => [91; 93]
  | JArr items =>
    [91] ++ newline_indent (S level)
      ++ join (ITEM_SEPARATOR ++ newline_indent (S level))
              (List.map (encode (S level)) items)
      ++ newline_indent level ++ [93]
  | JObj [] => [123; 125]
  | JObj members =>
    [123] ++ newline_indent (S level)
      ++ join (ITEM_SEPARATOR ++ newline_indent (S level))
              (List.map (fun kv => encode_string (fst kv) ++ KEY_SEPARATOR
                                     ++ encode (S level) (snd kv)) members)
      ++ newline_indent level ++ [125]
  end.

Definition dumps (v : json) : list N := encode 0 v.

(** The decoder.  Whitespace is [' \t\n\r']. *)
Definition is_ws (c : N) : bool :=
  (c =? 32) || (c =? 9) || (c =? 10) || (c =? 13).

Fixpoint skip_ws (s : list N) : list N :=
  match s with
  | [] => []
  | c :: r => if is_ws c then skip_ws r else s
  end.

Definition is_digit (c : N) : bool := (48 <=? c) && (c <=? 57).

Definition unhex (c : N) : option N :=
  if (48 <=? c) && (c <=? 57) then Some (c - 48)
  else if (97 <=? c) && (c <=? 102) then Some (c - 87)
  else if (65 <=? c) && (c <=? 70) then Some (c - 55)
  else None.

(** Four hexadecimal digits after [\u]. *)
Definition decode_u (s : list N) : option (N * list N) :=
  match s with
  | a :: b :: c :: d :: r =>
    match unhex a, unhex b, unhex c, unhex d with
    | Some a, Some b, Some c, Some d => Some (a * 4096 + b * 256 + c * 16 + d, r)
    | _, _, _, _ => None
    end
  | _ => None
  end.

Definition simple_escape (e : N) : option N :=
  if e =? QUOTE then Some QUOTE
  else if e =? BACKSLASH then Some BACKSLASH
  else if e =? 47 then Some 47
  else if e =? 98 then Some 8
  else if e =? 102 then Some 12
  else if e =? 110 then Some 10
  else if e =? 114 then Some 13
  else if e =? 116 then Some 9
  else None.

(** The character a [\uXXXX] escape denotes, where a high surrogate
    directly followed by an escaped low surrogate is one character. *)
Definition decode_unicode (s : list N) : option (N * list N) :=
  match decode_u s with
  | None => None
  | Some (uni, r) =>
    if (55296 <=? uni) && (uni <=? 56319) then
      match r with
      | 92 :: 117 :: r' =>
        match decode_u r' with
        | None => None
        | Some (uni2, r'') =>
          if (56320 <=? uni2) && (uni2 <=? 57343)
          then Some (65536 + ((uni - 55296) * 1024 + (uni2 - 56320)), r'')
          else Some (uni, r)
        end
      | _ => Some (uni, r)
      end
    else Some (uni, r)
  end.

(** [scanstring] in strict mode, after the opening quote. *)
Fixpoint scan_string (fuel : nat) (s acc : list N) : option (list N * list N) :=
  match fuel with
  | O => None
  | S fuel' =>
    match s with
    | [] => None
    | c :: r =>
      if c =? QUOTE then Some (acc, r)
      else if c =? BACKSLASH then
        match r with
        | [] => None
        | e :: r' =>
          if e =? 117 then
            match decode_unicode r' with
            | Some (ch, r'') => scan_string fuel' r'' (acc ++ [ch])
            | None => None
            end
          else
            match simple_escape e with
            | Some ch => scan_string fuel' r' (acc ++ [ch])
            | None => None
            end
        end
      else if c <? 32 then None
      else scan_string fuel' r (acc ++ [c])
    end
  end.

Definition parse_string (s : list N) : option (list N * list N) :=
  scan_string (length s) s [].

(** The maximal run of decimal digits at the start of [s]. *)
Fixpoint scan_digits (s : list N) : Decimal.uint * list N :=
  match s with
  | [] => (Decimal.Nil, [])
  | c :: r =>
    if is_digit c then
      let '(u, r') := scan_digits r in
      ((if c =? 48 then Decimal.D0 else if c =? 49 then Decimal.D1
        else if c =? 50 then Decimal.D2 else if c =? 51 then Decimal.D3
        else if c =? 52 then Decimal.D4 else if c =? 53 then Decimal.D5
        else if c =? 54 then Decimal.D6 else if c =? 55 then Decimal.D7
        else if c =? 56 then Decimal.D8 else Decimal.D9) u, r')
    else (Decimal.Nil, s)
  end.

(** The integer part of a number: [0] or a digit run without a leading
    zero.  A fraction or an exponent makes the number a float, which this
    model does not decode. *)
Definition parse_nat (s : list N) : option (N * list N) :=
  match s with
  | [] => None
  | c :: r =>
    if c =? 48 then
      match r with
      | d :: _ => if is_digit d || (d =? 46) || (d =? 101) || (d =? 69)
                  then None else Some (0, r)
      | [] => Some (0, r)
      end
    else if is_digit c then
      let '(u, r') := scan_digits s in
      match r' with
      | d :: _ => if (d =? 46) || (d =? 101) || (d =? 69) then None
                  else Some (N.of_uint u, r')
      | [] => Some (N.of_uint u, r')
      end
    else None
  end.

(** [dict[k] = v] on an insertion-ordered dictionary. *)
Fixpoint dict_set (k : list N) (v : json) (d : list (list N * json))
    : list (list N * json) :=
  match d with
  | [] => [(k, v)]
  | (k', v') :: d' =>
    if bool_decide (k = k') then (k, v) :: d' else (k', v') :: dict_set k v d'
  end.

Fixpoint parse_value (fuel : nat) (s : list N) {struct fuel}
    : option (json * list N) :=
  match fuel with
  | O => None
  | S fuel' =>
    match s with
    | 34 :: r =>
      match parse_string r with
      | Some (str, r') => Some (JStr str, r')
      | None => None
      end
    | 123 :: r =>
      match skip_ws r with
      | 125 :: r' => Some (JObj [], r')
      | r' =>
        match parse_members fuel' r' [] with
        | Some (d, r'') => Some (JObj d, r'')
        | None => None
        end
      end
    | 91 :: r =>
      match skip_ws r with
      | 93 :: r' => Some (JArr [], r')
      | r' =>
        match parse_items fuel' r' with
        | Some (vs, r'') => Some (JArr vs, r'')
        | None => None
        end
      end
    | 110 :: 117 :: 108 :: 108 :: r => Some (JNull, r)
    | 116 :: 114 :: 117 :: 101 :: r => Some (JBool true, r)
    | 102 :: 97 :: 108 :: 115 :: 101 :: r => Some (JBool false, r)
    | 45 :: r =>
      match parse_nat r with
      | Some (n, r') => Some (JInt (- Z.of_N n)%Z, r')
      | None => None
      end
    | _ =>
      match parse_nat s with
      | Some (n, r') => Some (JInt (Z.of_N n), r')
      | None => None
      end
    end
  end
(** The elements of a non-empty array, up to and including the bracket. *)
with parse_items (fuel : nat) (s : list N) {struct fuel}
    : option (list json * list N) :=
  match fuel with
  | O => None
  | S fuel' =>
    match parse_value fuel' s with
    | None => None
    | Some (v, r) =>
      match skip_ws r with
      | 44 :: r' =>
        match parse_items fuel' (skip_ws r') with
        | Some (vs, r'') => Some (v :: vs, r'')
        | None => None
        end
      | 93 :: r' => Some ([v], r')
      | _ => None
      end
    end
  end
(** The members of a non-empty object, up to and including the brace;
    [d] is the dictionary built so far. *)
with parse_members (fuel : nat) (s : list N) (d : list (list N * json))
    {struct fuel} : option (list (list N * json) * list N) :=
  match fuel with
  | O => None
  | S fuel' =>
    match s with
    | 34 :: r =>
      match parse_string r with
      | None => None
      | Some (k, r1) =>
        match skip_ws r1 with
        | 58 :: r2 =>
          match parse_value fuel' (skip_ws r2) with
          | None => None
          | Some (v, r3) =>
            let d' := dict_set k v d in
            match skip_ws r3 with
            | 44 :: r4 => parse_members fuel' (skip_ws r4) d'
            | 125 :: r4 => Some (d', r4)
            | _ => None
            end
          end
        | _ => None
        end
      end
    | _ => None
    end
  end.

(** [json.loads]: one value, surrounded by optional whitespace. *)
Definition loads (text : list N) : option json :=
  match parse_value (S (length text)) (skip_ws text) with
  | Some (v, r) => match skip_ws r with [] => Some v | _ => None end
  | None => None
  end.

(** [d[k]] on a decoded object. *)
Fixpoint dict_get (k : list N) (d : list (list N * json)) : option json :=
  match d with
  | [] => None
  | (k', v) :: d' => if bool_decide (k = k') then Some v else dict_get k d'
  end.

(** What may follow an integer: not a digit, and not the start of a
    fraction or an exponent. *)
Definition ends_number (rest : list N) : Prop :=
  match rest with
  | [] => True
  | c :: _ => is_digit c = false /\ c <> 46 /\ c <> 101 /\ c <> 69
  end.

(** Objects whose keys are pairwise distinct, at every depth: the objects
    a dictionary can hold. *)
Fixpoint distinct_keys (v : json) : Prop :=
  match v with
  | JArr items =>
    (fix all (l : list json) : Prop :=
       match l with [] => True | x :: l' => distinct_keys x /\ all l' end) items
  | JObj members =>
    NoDup (List.map fst members)
    /\ (fix all (l : list (list N * json)) : Prop :=
          match l with
          | [] => True
          | kv :: l' => distinct_keys (snd kv) /\ all l'
          end) members
  | _ => True
  end.

(** The first character of a value tells the parser what it is. *)
Definition starts_value (c : N) : Prop :=
  is_ws c = false /\ c <> 93 /\ c <> 125 /\ c <> 44.

(** The text of one member of an object. *)
Definition encode_member (level : nat) (kv : list N * json) : list N :=
  encode_string (fst kv) ++ KEY_SEPARATOR ++ encode level (snd kv).

(** What decoding gives for a value [v] written at any nesting level and
    followed by [rest]. *)
Definition reads_back (v : json) : Prop :=
  forall level fuel rest,
    distinct_keys v -> ends_number rest ->
    (length (encode level v) <= fuel)%nat ->
    parse_value fuel (encode level v ++ rest) = Some (v, rest).

End Json.

(** ** The machine: object store, files, and the history of effects *)

(** Everything the program does to the outside is recorded in a history;
    the environment (the external tool, the clock, the file system's
    failures) answers as a function of that history.  A command is run by
    the shell and may do to the files whatever its text says; the
    environment gives the files it leaves.  Text handed to a file object
    may still be in its buffer when an operation fails; the environment
    gives how much of it is in the file then. *)
Inductive event :=
| EvRun (command : list N)
| EvPrintNames (names : list (list N))
| EvPrint (text : list N)
| EvNow
| EvOpen (path : list N)
| EvWrite (path text : list N)
| EvClose (path : list N).

(** What [subprocess.run] does: it raises (the text is [str(e)]) or
    completes with a return code, stdout and stderr. *)
Inductive run_result :=
| RunRaised (text : list N)
| RunCompleted (returncode : Z) (stdout stderr : list N).

Record Env := mkEnv {
  subprocess_run : list event -> list N -> run_result;
  now_strftime : list event -> list N;   (* '%Y-%m-%d %H:%M:%S' of the clock *)
  now_isoformat : list event -> list N;
  open_fails : list event -> list N -> option (list N);
  write_fails : list event -> list N -> list N -> option (list N);
  close_fails : list event -> list N -> option (list N);
  (* the files after the command, from the files before it *)
  subprocess_files :
    list event -> list N -> gmap (list N) (list N) -> gmap (list N) (list N);
  (* the number of characters in the file after a write, a close, failed *)
  write_reached : list event -> list N -> list N -> nat;
  close_reached : list event -> list N -> nat
}.

Inductive exn :=
| PermissionError (msg : list N)
| IOFailure (msg : list N).

Definition exn_str (e : exn) : list N :=
  match e with PermissionError m => m | IOFailure m => m end.

(** List objects live in [heap]; [self_profiles] is the reference held in
    [self.profiles]. *)
Record State := mkState {
  heap : gmap positive (list WifiProfile);
  self_profiles : positive;
  self_is_admin : bool;
  files : gmap (list N) (list N);
  trace : list event
}.

Inductive outcome (A : Type) :=
| Ret (a : A)
| Raise (e : exn).
Arguments Ret {A} a.
Arguments Raise {A} e.

Definition M (A : Type) : Type := State -> outcome A * State.

#[global] Instance M_ret : MRet M := fun A a s => (Ret a, s).
#[global] Instance M_bind : MBind M := fun A B f m s =>
  match m s with
  | (Ret a, s') => f a s'
  | (Raise e, s') => (Raise e, s')
  end.

Definition raise {A} (e : exn) : M A := fun s => (Raise e, s).
Definition get : M State := fun s => (Ret s, s).
Definition log (ev : event) : M unit := fun s =>
  (Ret tt, mkState (heap s) (self_profiles s) (self_is_admin s) (files s)
                   (trace s ++ [ev])).

(** [try: body  except Exception as e: handler(e)] *)
Definition try_except {A} (body : M A) (handler : exn -> M A) : M A := fun s =>
  match body s with
  | (Ret a, s') => (Ret a, s')
  | (Raise e, s') => handler e s'
  end.

Definition deref (l : positive) (s : State) : list WifiProfile :=
  default [] (heap s !! l).

(** Allocation of a new list object holding [v]. *)
Definition alloc (v : list WifiProfile) : M positive := fun s =>
  let l := fresh (dom (heap s)) in
  (Ret l, mkState (<[l := v]> (heap s)) (self_profiles s) (self_is_admin s)
                  (files s) (trace s)).

(** [lst.append(p)] on the list object [l]. *)
Definition append (l : positive) (p : WifiProfile) : M unit := fun s =>
  (Ret tt, mkState (<[l := deref l s ++ [p]]> (heap s)) (self_profiles s)
                   (self_is_admin s) (files s) (trace s)).

(** The files as a command left them. *)
Definition set_files (fs : gmap (list N) (list N)) : M unit := fun s =>
  (Ret tt, mkState (heap s) (self_profiles s) (self_is_admin s) fs (trace s)).

(** [self.profiles = l] *)
Definition set_self_profiles (l : positive) : M unit := fun s =>
  (Ret tt, mkState (heap s) l (self_is_admin s) (files s) (trace s)).

(** [for x in xs: body(x)] *)
Fixpoint for_each {A} (xs : list A) (body : A -> M unit) : M unit :=
  match xs with
  | [] => mret tt
  | x :: xs' => body x ≫= fun _ => for_each xs' body
  end.

Section Extractor.

Context (env : Env).

(** [str.lower] is the interpreter's; it is a parameter of the model. *)
Context (lower : list N -> list N).

Definition MSG_NEED_ADMIN : list N :=
  Eval vm_compute in
    py "Необходимы права администратора для доступа к Wi-Fi профилям".
Definition CMD_SHOW_PROFILES : list N :=
  Eval vm_compute in py "netsh wlan show profiles".
Definition CMD_SHOW_PROFILE_PRE : list N :=
  Eval vm_compute in py "netsh wlan show profile name=".
Definition CMD_SHOW_PROFILE_POST : list N :=
  Eval vm_compute in py " key=clear".
Definition ERROR_PREFIX : list N := Eval vm_compute in py "Error: ".
Definition EXCEPTION_PREFIX : list N := Eval vm_compute in py "Exception: ".

Definition _run_command (command : list N) : M (list N) :=
  s ← get;
  _ ← log (EvRun command);
  _ ← set_files (subprocess_files env (trace s) command (files s));
  match subprocess_run env (trace s) command with
  | RunCompleted rc out err =>
    if (rc =? 0)%Z then mret out else mret (ERROR_PREFIX ++ err)
  | RunRaised text => mret (EXCEPTION_PREFIX ++ text)
  end.

Definition details_command (profile_name : list N) : list N :=
  CMD_SHOW_PROFILE_PRE ++ [QUOTE] ++ profile_name ++ [QUOTE]
    ++ CMD_SHOW_PROFILE_POST.

Definition extract_profiles : M positive :=
  s ← get;
  if negb (self_is_admin s) then raise (PermissionError MSG_NEED_ADMIN)
  else
    profiles_output ← _run_command CMD_SHOW_PROFILES;
    let profile_names := _parse_profile_list profiles_output in
    _ ← log (EvPrintNames profile_names);
    l ← alloc [];
    _ ← set_self_profiles l;
    _ ← for_each profile_names (fun profile_name =>
          details_output ← _run_command (details_command profile_name);
          let profile := _parse_profile_details details_output profile_name in
          s' ← get;
          append (self_profiles s') profile);
    s'' ← get;
    mret (self_profiles s'').

(** [[p for p in <list l> if cond(p)]]: a new list object. *)
Definition comprehension (cond : WifiProfile -> bool) (l : positive) : M positive :=
  s ← get;
  alloc (List.filter cond (deref l s)).

Definition ssid_matches (ssid_filter : list N) (p : WifiProfile) : bool :=
  contains (lower ssid_filter) (lower (ssid p)).

Definition filter_profiles (has_password : option bool)
    (ssid_filter : option (list N)) : M positive :=
  s ← get;
  let filtered := self_profiles s in
  filtered ←
    match has_password with
    | Some true => comprehension has_password_b filtered
    | Some false => comprehension no_password_b filtered
    | None => mret filtered
    end;
  filtered ←
    match ssid_filter with
    | Some f =>
      if truthy f then comprehension (ssid_matches f) filtered
      else mret filtered
    | None => mret filtered
    end;
  mret filtered.

(** *** File operations

    A file holds the text a text-mode reader gets back.  The environment
    decides which operations fail.  After a successful [write] the text
    counts as the file's (it is there at the latest when the file is
    closed); when a [write] or the [close] fails, only the beginning of
    the text handed over so far is in the file, as much as the
    environment says. *)

Definition set_file (path text : list N) : M unit := fun s =>
  (Ret tt, mkState (heap s) (self_profiles s) (self_is_admin s)
                   (<[path := text]> (files s)) (trace s)).

(** [open(path, 'w', ...)]: the file is created or truncated. *)
Definition fs_open (path : list N) : M unit :=
  s ← get;
  _ ← log (EvOpen path);
  match open_fails env (trace s) path with
  | Some msg => raise (IOFailure msg)
  | None => set_file path []
  end.

(** [f.write(text)] *)
Definition fs_write (path text : list N) : M unit :=
  s ← get;
  _ ← log (EvWrite path text);
  match write_fails env (trace s) path text with
  | Some msg =>
    _ ← set_file path (take (write_reached env (trace s) path text)
                            (default [] (files s !! path) ++ text));
    raise (IOFailure msg)
  | None => set_file path (default [] (files s !! path) ++ text)
  end.

Definition fs_close (path : list N) : M unit :=
  s ← get;
  _ ← log (EvClose path);
  match close_fails env (trace s) path with
  | Some msg =>
    _ ← set_file path (take (close_reached env (trace s) path)
                            (default [] (files s !! path)));
    raise (IOFailure msg)
  | None => mret tt
  end.

(** [with open(path, 'w', ...) as f: body]: the file is closed on the way
    out, also when [body] raises. *)
Definition with_open (path : list N) (body : M unit) : M unit :=
  _ ← fs_open path;
  _ ← try_except body (fun e => _ ← fs_close path; raise e);
  fs_close path.

(** [datetime.now().strftime('%Y-%m-%d %H:%M:%S')] *)
Definition now_formatted : M (list N) :=
  s ← get;
  _ ← log EvNow;
  mret (now_strftime env (trace s)).

(** [datetime.now().isoformat()] *)
Definition now_iso : M (list N) :=
  s ← get;
  _ ← log EvNow;
  mret (now_isoformat env (trace s)).

(** [print(text)] *)
Definition print (text : list N) : M unit := log (EvPrint text).

(** [profiles] when given, [self.profiles] otherwise. *)
Definition profiles_or_self (profiles : option positive) : M (list WifiProfile) :=
  s ← get;
  match profiles with
  | Some l => mret (deref l s)
  | None => mret (deref (self_profiles s) s)
  end.

Definition len {A} (xs : list A) : Z := Z.of_nat (length xs).

(** *** Plain text *)

Definition TXT_BANNER : list N :=
  Eval vm_compute in py "=== Wi-Fi Profile Extractor Results ===".
Definition TXT_GENERATED : list N := Eval vm_compute in py "Generated: ".
Definition TXT_TOTAL : list N := Eval vm_compute in py "Total profiles: ".
Definition TXT_PROFILE_NO : list N := Eval vm_compute in py "Profile #".
Definition TXT_SSID : list N := Eval vm_compute in py "SSID: ".
Definition TXT_AUTH : list N := Eval vm_compute in py "Authentication: ".
Definition TXT_ENCRYPTION : list N := Eval vm_compute in py "Encryption: ".
Definition TXT_KEY : list N := Eval vm_compute in py "Key: ".
Definition TXT_KEY_TYPE : list N := Eval vm_compute in py "Key Type: ".
Definition TXT_PROFILE_TYPE : list N := Eval vm_compute in py "Profile Type: ".
Definition ERR_TXT : list N := Eval vm_compute in py "Error saving to TXT: ".
Definition ERR_CSV : list N := Eval vm_compute in py "Error saving to CSV: ".
Definition ERR_JSON : list N := Eval vm_compute in py "Error saving to JSON: ".

Definition txt_profile_block (f : list N) (ip : Z * WifiProfile) : M unit :=
  let '(i, profile) := ip in
  _ ← fs_write f (TXT_PROFILE_NO ++ int_str i ++ [NL]);
  _ ← fs_write f (TXT_SSID ++ ssid profile ++ [NL]);
  _ ← fs_write f (TXT_AUTH ++ authentication profile ++ [NL]);
  _ ← fs_write f (TXT_ENCRYPTION ++ encryption profile ++ [NL]);
  _ ← fs_write f (TXT_KEY ++ key profile ++ [NL]);
  _ ← fs_write f (TXT_KEY_TYPE ++ key_type profile ++ [NL]);
  _ ← fs_write f (TXT_PROFILE_TYPE ++ profile_type profile ++ [NL]);
  fs_write f (repeat MINUS 40 ++ [NL; NL]).

(** The body of the [try] of [export_to_txt]. *)
Definition export_txt_body (filename : list N) (profiles : list WifiProfile)
    : M unit :=
  with_open filename (
    _ ← fs_write filename (TXT_BANNER ++ [NL]);
    stamp ← now_formatted;
    _ ← fs_write filename (TXT_GENERATED ++ stamp ++ [NL]);
    _ ← fs_write filename (TXT_TOTAL ++ int_str (len profiles) ++ [NL; NL]);
    for_each (enumerate 1 profiles) (txt_profile_block filename)).

Definition export_to_txt (filename : list N) (profiles : option positive)
    : M bool :=
  profiles ← profiles_or_self profiles;
  try_except
    (_ ← export_txt_body filename profiles; mret true)
    (fun e => _ ← print (ERR_TXT ++ exn_str e); mret false).

(** *** CSV *)

Definition CSV_FIELDNAMES : list (list N) :=
  Eval vm_compute in
    [py "SSID"; py "Authentication"; py "Encryption"; py "Key"; py "Key Type";
     py "Profile Type"].

Definition csv_profile_row (profile : WifiProfile) : list (list N) :=
  [ssid profile; authentication profile; encryption profile; key profile;
   key_type profile; profile_type profile].

Definition export_csv_body (filename : list N) (profiles : list WifiProfile)
    : M unit :=
  with_open filename (
    _ ← fs_write filename (Csv.csv_row CSV_FIELDNAMES);
    for_each profiles (fun profile =>
      fs_write filename (Csv.csv_row (csv_profile_row profile)))).

Definition export_to_csv (filename : list N) (profiles : option positive)
    : M bool :=
  profiles ← profiles_or_self profiles;
  try_except
    (_ ← export_csv_body filename profiles; mret true)
    (fun e => _ ← print (ERR_CSV ++ exn_str e); mret false).

(** *** JSON *)

Definition K_SSID : list N := Eval vm_compute in py "ssid".
Definition K_AUTHENTICATION : list N := Eval vm_compute in py "authentication".
Definition K_ENCRYPTION : list N := Eval vm_compute in py "encryption".
Definition K_KEY : list N := Eval vm_compute in py "key".
Definition K_KEY_TYPE : list N := Eval vm_compute in py "key_type".
Definition K_PROFILE_TYPE : list N := Eval vm_compute in py "profile_type".
Definition K_LAST_MODIFIED : list N := Eval vm_compute in py "last_modified".
Definition K_GENERATED : list N := Eval vm_compute in py "generated".
Definition K_TOTAL_PROFILES : list N := Eval vm_compute in py "total_profiles".
Definition K_PROFILES : list N := Eval vm_compute in py "profiles".

(** [WifiProfile.to_dict] *)
Definition to_dict (self : WifiProfile) : Json.json :=
  Json.JObj [
    (K_SSID, Json.JStr (ssid self));
    (K_AUTHENTICATION, Json.JStr (authentication self));
    (K_ENCRYPTION, Json.JStr (encryption self));
    (K_KEY, Json.JStr (key self));
    (K_KEY_TYPE, Json.JStr (key_type self));
    (K_PROFILE_TYPE, Json.JStr (profile_type self));
    (K_LAST_MODIFIED, Json.JStr (last_modified self))
  ].

(** The dictionary [data] of [export_to_json]. *)
Definition json_data (generated : list N) (profiles : list WifiProfile)
    : Json.json :=
  Json.JObj [
    (K_GENERATED, Json.JStr generated);
    (K_TOTAL_PROFILES, Json.JInt (len profiles));
    (K_PROFILES, Json.JArr (List.map to_dict profiles))
  ].

(** [json.dump] hands the document to the file piece by piece; the pieces
    are an internal matter of the library, and the model writes the text in
    one call.  A failure at any of the pieces is a failure of that call,
    after which the file holds a beginning of the document, as much as the
    environment says. *)
Definition json_dump (data : Json.json) (f : list N) : M unit :=
  fs_write f (Json.dumps data).

Definition export_json_body (filename : list N) (profiles : list WifiProfile)
    : M unit :=
  generated ← now_iso;
  let data := json_data generated profiles in
  with_open filename (json_dump data filename).

Definition export_to_json (filename : list N) (profiles : option positive)
    : M bool :=
  profiles ← profiles_or_self profiles;
  try_except
    (_ ← export_json_body filename profiles; mret true)
    (fun e => _ ← print (ERR_JSON ++ exn_str e); mret false).

(** [json.load] of the file at [path]: the document, when the file exists
    and its text is one. *)
Definition read_json (path : list N) (s : State) : option Json.json :=
  match files s !! path with
  | Some text => Json.loads text
  | None => None
  end.


(** [get_stats] *)
Record Stats := mkStats {
  total_profiles : Z;
  with_password : Z;
  without_password : Z;
  authentication_types : gmap (list N) Z
}.

Definition count_auth (auth_types : gmap (list N) Z) (p : WifiProfile)
    : gmap (list N) Z :=
  let auth_type := authentication p in
  <[auth_type := (default 0 (auth_types !! auth_type) + 1)%Z]> auth_types.

Definition get_stats : M Stats :=
  s ← get;
  let profiles := deref (self_profiles s) s in
  let total := Z.of_nat (length profiles) in
  let with_password := Z.of_nat (length (List.filter has_password_b profiles)) in
  let without_password := (total - with_password)%Z in
  let auth_types := fold_left count_auth profiles ∅ in
  mret (mkStats total with_password without_password auth_types).

End Extractor.

(** The dispatch on the format selector ([export_file] of the GUI). *)
Inductive format := TXT | CSV | JSON.

Definition export_with (env : Env) (fmt : format) (filename : list N)
    (profiles : option positive) : M bool :=
  match fmt with
  | TXT => export_to_txt env filename profiles
  | CSV => export_to_csv env filename profiles
  | JSON => export_to_json env filename profiles
  end.

Definition export_body (env : Env) (fmt : format) (filename : list N)
    (profiles : list WifiProfile) : M unit :=
  match fmt with
  | TXT => export_txt_body env filename profiles
  | CSV => export_csv_body env filename profiles
  | JSON => export_json_body env filename profiles
  end.

Definition error_prefix (fmt : format) : list N :=
  match fmt with TXT => ERR_TXT | CSV => ERR_CSV | JSON => ERR_JSON end.

(** What [str.lower] does on a string of ASCII characters. *)
Definition ascii_lower (s : list N) : list N :=
  List.map (fun c => if (65 <=? c) && (c <=? 90) then c + 32 else c) s.

Definition is_ascii (s : list N) : Prop := Forall (fun c => c < 128) s.

(** A state in which [self.profiles] refers to a live list object. *)
Definition live (s : State) : Prop := is_Some (heap s !! self_profiles s).

(** The state after [WifiExtractor.__init__] with [self.profiles] then set
    to hold [ps]. *)
Definition state_with (admin : bool) (ps : list WifiProfile) : State :=
  mkState {[ 1%positive := ps ]} 1%positive admin ∅ [].

(** An environment in which the tool prints nothing and nothing fails. *)
Definition SAMPLE_STAMP : list N := Eval vm_compute in py "2026-01-01 00:00:00".
Definition SAMPLE_ISO : list N :=
  Eval vm_compute in py "2026-01-01T00:00:00.000001".

Definition quiet_env : Env :=
  mkEnv (fun _ _ => RunCompleted 0 [] [])
        (fun _ => SAMPLE_STAMP) (fun _ => SAMPLE_ISO)
        (fun _ _ => None) (fun _ _ _ => None) (fun _ _ => None)
        (fun _ _ fs => fs) (fun _ _ _ => 0%nat) (fun _ _ => 0%nat).

Definition sample_profile (name k : list N) : WifiProfile :=
  mkWifiProfile name UNKNOWN UNKNOWN k UNKNOWN UNKNOWN [].

(** The profiles [filter_profiles] selects from the list [ps]. *)
Definition selected (lower : list N -> list N) (has_password : option bool)
    (ssid_filter : option (list N)) (ps : list WifiProfile) : list WifiProfile :=
  let by_password :=
    match has_password with
    | Some true => List.filter has_password_b ps
    | Some false => List.filter no_password_b ps
    | None => ps
    end in
  match ssid_filter with
  | Some f => if truthy f then List.filter (ssid_matches lower f) by_password
              else by_password
  | None => by_password
  end.

(** Some filter argument makes [filter_profiles] build a list. *)
Definition filters_something (has_password : option bool)
    (ssid_filter : option (list N)) : bool :=
  match has_password, ssid_filter with
  | Some _, _ => true
  | None, Some f => truthy f
  | None, None => false
  end.

(** [filter_profiles] read as: the source list is left as it was and the
    result is a list object other than the source. *)
Definition returns_new_collection (lower : list N -> list N)
    (has_password : option bool) (ssid_filter : option (list N)) (s : State)
    : Prop :=
  exists l s',
    filter_profiles lower has_password ssid_filter s = (Ret l, s')
    /\ deref (self_profiles s) s' = deref (self_profiles s) s
    /\ l <> self_profiles s.

Definition TXT_HOME : list N := Eval vm_compute in py "HOME".
Definition TXT_MY_HOME_NET : list N := Eval vm_compute in py "My-Home-Net".
Definition TXT_SECRET : list N := Eval vm_compute in py "hunter2".

Definition sample_profiles : list WifiProfile :=
  [sample_profile TXT_MY_HOME_NET TXT_SECRET;
   sample_profile TXT_HOME NO_PASSWORD_SAVED;
   sample_profile UNKNOWN NOT_FOUND].

(** [s'] is [s] after some more effects. *)
Definition extends (s s' : State) : Prop :=
  exists rest, trace s' = trace s ++ rest.

(** The list an exporter works on: the argument's, or [self.profiles]'. *)
Definition chosen_profiles (profiles : option positive) (s : State)
    : list WifiProfile :=
  match profiles with
  | Some l => deref l s
  | None => deref (self_profiles s) s
  end.

(** The machine after one more recorded effect. *)
Definition logged (ev : event) (s : State) : State :=
  mkState (heap s) (self_profiles s) (self_is_admin s) (files s)
          (trace s ++ [ev]).



(** The text after the first colon of a line. *)
Fixpoint after_colon (line : list N) : option (list N) :=
  match line with
  | [] => None
  | c :: r => if c =? COLON then Some r else after_colon r
  end.

(** The value of a line: the text after its first colon, trimmed. *)
Definition line_value (line : list N) : option (list N) :=
  strip <$> after_colon line.

Definition TXT_WPA2_PERSONAL : list N := Eval vm_compute in py "WPA2-Personal".
Definition OUT_EMPTY_KEY : list N :=
  Eval vm_compute in py "    Key Content            : ".
Definition OUT_KEY_WITH_CIPHER : list N :=
  Eval vm_compute in py "    Key Content            : Cipher123".
Definition TXT_CIPHER123 : list N := Eval vm_compute in py "Cipher123".
Definition OUT_SPEC_EXAMPLE : list N :=
  Eval vm_compute in py "    Authentication         : WPA2-Personal
    Key Content            : Absent".
Definition OUT_WITH_KEY : list N :=
  Eval vm_compute in py "    Authentication         : WPA2-Personal
    Cipher                 : CCMP
    Key Content            : hunter2
    Cost                   : Unrestricted".

(** The lines of a user-profiles section and what each of them yields: an
    entry [<indent>Все профили пользователей<ws>: <name>] yields its name,
    trimmed; a line that is neither blank nor a section header and does not
    have that shape (the rule under the header, say) yields nothing, and so
    does a repeated header. *)
Inductive section_line : list N -> option (list N) -> Prop :=
| entry_line indent ws r :
    Forall (fun c => isspace c = true) indent ->
    Forall (fun c => isspace c = true) ws ->
    strip r <> [] ->
    section_line (indent ++ LBL_ALL_USER_PROFILE ++ ws ++ COLON :: r)
                 (Some (strip r))
| other_line l :
    strip l <> [] ->
    startswith LBL_USER_PROFILES (strip l) = false ->
    startswith LBL_GROUP_PROFILES (strip l) = false ->
    re_search_label LBL_ALL_USER_PROFILE (strip l) = None ->
    section_line l None
| header_line l :
    startswith LBL_USER_PROFILES (strip l) = true ->
    section_line l None.

(** What follows a section: nothing, or a blank line, or the header of
    the group policy profiles. *)
Definition ends_section (rest : list (list N)) : Prop :=
  match rest with
  | [] => True
  | l :: _ => strip l = [] \/ startswith LBL_GROUP_PROFILES (strip l) = true
  end.

Definition OUT_LIST_EXAMPLE : list N :=
  Eval vm_compute in py "Профили интерфейса Беспроводная сеть:

Профили групповой политики (только чтение)
---------------------------------
    <Отсутствует>

Профили пользователей
---------------------
    Все профили пользователей     : My-Home-Net
    Все профили пользователей     : HOME

Параметры : нет
    Все профили пользователей     : Unknown".

(** The lines of the example list output: what precedes the section, its
    header, the rule under it, the two entries, and what follows. *)
Definition LIST_LINES : list (list N) :=
  Eval vm_compute in split_nl OUT_LIST_EXAMPLE.
Definition LIST_PRE : list (list N) := Eval vm_compute in take 6 LIST_LINES.
Definition LIST_HEADER : list N := Eval vm_compute in nth 6 LIST_LINES [].
Definition LIST_RULE : list N := Eval vm_compute in nth 7 LIST_LINES [].
Definition LIST_REST : list (list N) := Eval vm_compute in drop 10 LIST_LINES.
Definition LIST_INDENT : list N := replicate 4 SPACE.
Definition LIST_GAP : list N := replicate 5 SPACE.
Definition list_entry (name : list N) : list N :=
  LIST_INDENT ++ LBL_ALL_USER_PROFILE ++ LIST_GAP ++ COLON :: SPACE :: name.

(** A string field of a decoded object. *)
Definition json_field (k : list N) (item : Json.json) : option (list N) :=
  match item with
  | Json.JObj d =>
    match Json.dict_get k d with
    | Some (Json.JStr v) => Some v
    | _ => None
    end
  | _ => None
  end.

(** The array under ['profiles'] of a decoded document. *)
Definition json_profiles (doc : Json.json) : option (list Json.json) :=
  match doc with
  | Json.JObj d =>
    match Json.dict_get K_PROFILES d with
    | Some (Json.JArr items) => Some items
    | _ => None
    end
  | _ => None
  end.

(** The decoded object [item] shows the six displayable fields of [p]. *)
Definition displays (item : Json.json) (p : WifiProfile) : Prop :=
  json_field K_SSID item = Some (ssid p)
  /\ json_field K_AUTHENTICATION item = Some (authentication p)
  /\ json_field K_ENCRYPTION item = Some (encryption p)
  /\ json_field K_KEY item = Some (key p)
  /\ json_field K_KEY_TYPE item = Some (key_type p)
  /\ json_field K_PROFILE_TYPE item = Some (profile_type p).

(** The text [export_to_json] writes for the profiles [ps] from the state
    [s]. *)
Definition json_text (env : Env) (ps : list WifiProfile) (s : State) : list N :=
  Json.dumps (json_data (now_isoformat env (trace s)) ps).

(** Opening, writing and closing the file succeed during the JSON export of
    [ps] to [filename] from the state [s]. *)
Definition json_export_unhindered (env : Env) (filename : list N)
    (ps : list WifiProfile) (s : State) : Prop :=
  open_fails env (trace s ++ [EvNow]) filename = None
  /\ write_fails env ((trace s ++ [EvNow]) ++ [EvOpen filename]) filename
       (json_text env ps s) = None
  /\ close_fails env
       (((trace s ++ [EvNow]) ++ [EvOpen filename])
          ++ [EvWrite filename (json_text env ps s)]) filename = None.

Definition SAMPLE_PATH : list N := Eval vm_compute in py "profiles.json".

(** What [_run_command] returns for an answer of [subprocess.run]. *)
Definition command_output (r : run_result) : list N :=
  match r with
  | RunCompleted rc out err => if (rc =? 0)%Z then out else ERROR_PREFIX ++ err
  | RunRaised text => EXCEPTION_PREFIX ++ text
  end.

(** The profiles the loop of [extract_profiles] builds for [names] when it
    starts at the history [t]: each from the answer to its own detail
    command. *)
Fixpoint extracted (env : Env) (t : list event) (names : list (list N))
    : list WifiProfile :=
  match names with
  | [] => []
  | name :: rest =>
    _parse_profile_details
      (command_output (subprocess_run env t (details_command name))) name
      :: extracted env (t ++ [EvRun (details_command name)]) rest
  end.

(** The machine after the shell ran [command]. *)
Definition ran (env : Env) (command : list N) (s : State) : State :=
  mkState (heap s) (self_profiles s) (self_is_admin s)
          (subprocess_files env (trace s) command (files s))
          (trace s ++ [EvRun command]).

(** The files the detail commands for [names] leave, one after the other,
    when the first is run at the history [t] on the files [fs]. *)
Fixpoint files_after (env : Env) (t : list event) (names : list (list N))
    (fs : gmap (list N) (list N)) : gmap (list N) (list N) :=
  match names with
  | [] => fs
  | name :: rest =>
    files_after env (t ++ [EvRun (details_command name)]) rest
      (subprocess_files env t (details_command name) fs)
  end.

(** The names [extract_profiles] reads from the answer to the list
    command in the state [s]. *)
Definition listed_names (env : Env) (s : State) : list (list N) :=
  _parse_profile_list
    (command_output (subprocess_run env (trace s) CMD_SHOW_PROFILES)).

(** An environment in which the tool answers the list command with the
    example list output and every detail command with the example detail
    report, and nothing fails. *)
Definition netsh_env : Env :=
  mkEnv (fun _ command =>
           if bool_decide (command = CMD_SHOW_PROFILES)
           then RunCompleted 0 OUT_LIST_EXAMPLE []
           else RunCompleted 0 OUT_WITH_KEY [])
        (fun _ => SAMPLE_STAMP) (fun _ => SAMPLE_ISO)
        (fun _ _ => None) (fun _ _ _ => None) (fun _ _ => None)
        (fun _ _ fs => fs) (fun _ _ _ => 0%nat) (fun _ _ => 0%nat).

(** A line holding none of the labels the detail parser looks for. *)
Definition no_label (line : list N) : bool :=
  negb (is_auth_line line) && negb (is_cipher_line line)
  && negb (is_key_content_line line) && negb (is_key_type_line line)
  && negb (is_profile_type_line line).

(** The fields the detail parser fills in are all non-empty. *)
Definition fields_filled (p : WifiProfile) : Prop :=
  authentication p <> [] /\ encryption p <> [] /\ key p <> []
  /\ key_type p <> [] /\ profile_type p <> [].

Definition OUT_ERROR : list N :=
  Eval vm_compute in py "Error: The Wireless AutoConfig Service is not running.
".
Definition OUT_AUTH_IN_KEY : list N :=
  Eval vm_compute in py "    Authentication         : WPA2-Personal
    Key Content            : Authentication1".
Definition OUT_AUTH_THRICE : list N :=
  Eval vm_compute in py "    Authentication         : WPA2-Personal
    Key Content            : Authentication1
    Authentication         :".
Definition TXT_AUTHENTICATION1 : list N :=
  Eval vm_compute in py "Authentication1".

(** A name as the list parser gives it: not empty, and with no whitespace
    at either end. *)
Definition trimmed_name (name : list N) : Prop :=
  name <> [] /\ strip name = name.

(** The test one call of [filter_profiles] applies to a profile: both
    criteria, each only when given. *)
Definition keeps (lower : list N -> list N) (has_password : option bool)
    (ssid_filter : option (list N)) (p : WifiProfile) : bool :=
  match has_password with
  | Some true => has_password_b p
  | Some false => no_password_b p
  | None => true
  end
  && match ssid_filter with
     | Some f => if truthy f then ssid_matches lower f p else true
     | None => true
     end.

(** The number of profiles of [ps] whose authentication is [a]. *)
Definition count_of (a : list N) (ps : list WifiProfile) : nat :=
  length (List.filter (fun p => bool_decide (authentication p = a)) ps).

(** The sum of the counts of a histogram. *)
Definition histogram_sum (m : gmap (list N) Z) : Z :=
  map_fold (fun _ n acc => (n + acc)%Z) 0%Z m.

(** An environment whose file operations answer as given, every time;
    after a failed write five characters are in the file, after a failed
    close seven. *)
Definition TXT_DISK_FULL : list N := Eval vm_compute in py "disk full".

Definition file_env (open_answer write_answer close_answer : option (list N))
    : Env :=
  mkEnv (fun _ _ => RunCompleted 0 [] [])
        (fun _ => SAMPLE_STAMP) (fun _ => SAMPLE_ISO)
        (fun _ _ => open_answer) (fun _ _ _ => write_answer)
        (fun _ _ => close_answer)
        (fun _ _ fs => fs) (fun _ _ _ => 5%nat) (fun _ _ => 7%nat).

Definition TXT_OLD_CONTENT : list N := Eval vm_compute in py "old content".

(** A machine in which the file [path] holds [text]. *)
Definition state_with_file (path text : list N) (ps : list WifiProfile)
    : State :=
  mkState {[ 1%positive := ps ]} 1%positive true {[ path := text ]} [].

(** The outside effects an exporter to [filename] may have: reading the
    clock, printing, and operations on that file. *)
Definition event_on (filename : list N) (ev : event) : Prop :=
  match ev with
  | EvRun _ | EvPrintNames _ => False
  | EvOpen p | EvClose p => p = filename
  | EvWrite p _ => p = filename
  | EvNow | EvPrint _ => True
  end.

(** A computation that leaves the store of profiles alone and acts on no
    file but [filename]. *)
Definition confined {A} (filename : list N) (m : M A) : Prop :=
  forall s r s',
    m s = (r, s') ->
    heap s' = heap s /\ self_profiles s' = self_profiles s
    /\ self_is_admin s' = self_is_admin s
    /\ (forall path, path <> filename -> files s' !! path = files s !! path)
    /\ exists evs, trace s' = trace s ++ evs /\ Forall (event_on filename) evs.

(** No operation on the file [filename] ever fails. *)
Definition never_fails (env : Env) (filename : list N) : Prop :=
  (forall t, open_fails env t filename = None)
  /\ (forall t x, write_fails env t filename x = None)
  /\ (forall t, close_fails env t filename = None).

(** The text of the block of the [i]-th profile in the plain-text export. *)
Definition txt_block (ip : Z * WifiProfile) : list N :=
  (TXT_PROFILE_NO ++ int_str (fst ip) ++ [NL])
  ++ (TXT_SSID ++ ssid (snd ip) ++ [NL])
  ++ (TXT_AUTH ++ authentication (snd ip) ++ [NL])
  ++ (TXT_ENCRYPTION ++ encryption (snd ip) ++ [NL])
  ++ (TXT_KEY ++ key (snd ip) ++ [NL])
  ++ (TXT_KEY_TYPE ++ key_type (snd ip) ++ [NL])
  ++ (TXT_PROFILE_TYPE ++ profile_type (snd ip) ++ [NL])
  ++ (repeat MINUS 40 ++ [NL; NL]).

(** The plain-text document for the profiles [ps], stamped [stamp]. *)
Definition txt_document (stamp : list N) (ps : list WifiProfile) : list N :=
  (TXT_BANNER ++ [NL])
  ++ (TXT_GENERATED ++ stamp ++ [NL])
  ++ (TXT_TOTAL ++ int_str (len ps) ++ [NL; NL])
  ++ concat (List.map txt_block (enumerate 1 ps)).

(** The CSV document for the profiles [ps]: the header row, then one row
    per profile. *)
Definition csv_document (ps : list WifiProfile) : list N :=
  Csv.csv_row CSV_FIELDNAMES
  ++ concat (List.map (fun p => Csv.csv_row (csv_profile_row p)) ps).

(** The machine after [open(path, 'w')] succeeded. *)
Definition opened (path : list N) (s : State) : State :=
  mkState (heap s) (self_profiles s) (self_is_admin s)
          (<[path := []]> (files s)) (trace s ++ [EvOpen path]).

(** A computation that succeeds and adds [text] at the end of the file
    [f], from any state in which the file exists. *)
Definition appends (f text : list N) (m : M unit) : Prop :=
  forall s c,
    files s !! f = Some c ->
    exists s', m s = (Ret tt, s') /\ files s' !! f = Some (c ++ text).

Definition SAMPLE_TXT_PATH : list N := Eval vm_compute in py "profiles.txt".
Definition SAMPLE_CSV_PATH : list N := Eval vm_compute in py "profiles.csv".

(** Reading back what the CSV writer wrote: a quoted field, after its
    opening quote, up to the closing quote, a doubled quote standing for
    one; [acc] is the text read so far. *)
Fixpoint csv_read_quoted (s acc : list N) : option (list N * list N) :=
  match s with
  | [] => None
  | c :: r =>
    if c =? QUOTE then
      match r with
      | d :: r' =>
        if d =? QUOTE then csv_read_quoted r' (acc ++ [QUOTE])
        else Some (acc, r)
      | [] => Some (acc, [])
      end
    else csv_read_quoted r (acc ++ [c])
  end.

(** An unquoted field: everything up to the next special character. *)
Fixpoint csv_read_plain (s : list N) : list N * list N :=
  match s with
  | [] => ([], [])
  | c :: r =>
    if Csv.special c then ([], s)
    else let '(f, rest) := csv_read_plain r in (c :: f, rest)
  end.

Definition csv_read_field (s : list N) : option (list N * list N) :=
  match s with
  | c :: r => if c =? QUOTE then csv_read_quoted r [] else Some (csv_read_plain s)
  | [] => Some ([], [])
  end.

(** The fields of one row, up to and including its line terminator. *)
Fixpoint csv_read_row (fuel : nat) (s : list N)
    : option (list (list N) * list N) :=
  match fuel with
  | O => None
  | S fuel' =>
    match csv_read_field s with
    | None => None
    | Some (f, rest) =>
      match rest with
      | c :: rest' =>
        if c =? COMMA then
          match csv_read_row fuel' rest' with
          | Some (fs, r) => Some (f :: fs, r)
          | None => None
          end
        else if c =? CR then
          match rest' with
          | d :: r => if d =? NL then Some ([f], r) else None
          | [] => None
          end
        else None
      | [] => None
      end
    end
  end.

(** The rows of a document. *)
Fixpoint csv_read_rows (fuel : nat) (s : list N)
    : option (list (list (list N))) :=
  match fuel with
  | O => None
  | S fuel' =>
    match s with
    | [] => Some []
    | _ :: _ =>
      match csv_read_row (length s) s with
      | Some (row, rest) =>
        match csv_read_rows fuel' rest with
        | Some rows => Some (row :: rows)
        | None => None
        end
      | None => None
      end
    end
  end.

Definition csv_read (text : list N) : option (list (list (list N))) :=
  csv_read_rows (S (length text)) text.

(** What follows a field inside a row: the delimiter or the line
    terminator. *)
Definition csv_field_end (rest : list N) : Prop :=
  exists c r, rest = c :: r /\ (c = COMMA \/ c = CR).

Definition TXT_ODD_NAME : list N :=
  [72; 111; 109; 101; 44; 32; 34; 110; 101; 116; 34; 13; 10; 50].

(** ** The window ([src/wifi_gui.py])

    Only what the window computes from profiles is modelled; drawing the
    controls is not. *)
Module Gui.

Definition STAR : N := 42.
Definition OPT_ALL : list N := Eval vm_compute in py "all".
Definition OPT_WITH_PASSWORD : list N := Eval vm_compute in py "with_password".
Definition OPT_WITHOUT_PASSWORD : list N :=
  Eval vm_compute in py "without_password".
Definition MSG_PASSWORD_FOR : list N := Eval vm_compute in py "Password for ".
Definition MSG_COPIED : list N := Eval vm_compute in py " copied to clipboard".
Definition MSG_NO_PASSWORD : list N :=
  Eval vm_compute in py "No password available for ".

(** [profile.key and profile.key not in ['No password saved', 'Not found']] *)
Definition is_password (profile : WifiProfile) : bool :=
  truthy (key profile)
  && negb (bool_decide (key profile ∈ [NO_PASSWORD_SAVED; NOT_FOUND])).

(** The text of the password cell of a row of [update_table]. *)
Definition password_display (profile : WifiProfile) : list N :=
  if is_password profile then repeat STAR (length (key profile))
  else key profile.

(** [copy_password]: what is put on the clipboard, if anything, and the
    notice shown. *)
Definition copy_password (profile : WifiProfile) : option (list N) * list N :=
  if is_password profile
  then (Some (key profile), MSG_PASSWORD_FOR ++ ssid profile ++ MSG_COPIED)
  else (None, MSG_NO_PASSWORD ++ ssid profile).

(** The arguments [apply_filters] makes from the text field and the
    dropdown. *)
Definition ssid_filter_of (value : option (list N)) : option (list N) :=
  match value with
  | Some v => if truthy v then Some (strip v) else None
  | None => None
  end.

Definition has_password_of (password_filter : option (list N)) : option bool :=
  match password_filter with
  | Some v =>
    if str_eqb v OPT_WITH_PASSWORD then Some true
    else if str_eqb v OPT_WITHOUT_PASSWORD then Some false
    else None
  | None => None
  end.

(** [apply_filters]: the list the window then holds in
    [self.filtered_profiles], or nothing when the method returns at once
    because the window's [self.profiles] (the list object [gui_profiles])
    is empty. *)
Definition apply_filters (lower : list N -> list N) (gui_profiles : positive)
    (ssid_value password_filter : option (list N)) : M (option positive) :=
  s ← get;
  match deref gui_profiles s with
  | [] => mret None
  | _ :: _ =>
    filtered ← filter_profiles lower (has_password_of password_filter)
                 (ssid_filter_of ssid_value);
    mret (Some filtered)
  end.

End Gui.

Definition OUT_SENTINEL_KEY : list N :=
  Eval vm_compute in py "    Authentication         : WPA2-Personal
    Key Content            : Not found".
Definition TXT_BLANKS : list N := [32; 9; 32].

(** An error text none of whose lines after the first starts the
    user-profiles section.  Every text of one line is of this kind, with
    or without a newline at its end. *)
Definition no_header_after_first_line (text : list N) : Prop :=
  Forall (fun l => startswith LBL_USER_PROFILES (strip l) = false)
         (tail (split_nl text)).

(** An environment in which the tool fails: every command ends with
    return code 1 and a line on stderr, newline included. *)
Definition TXT_NO_SERVICE : list N :=
  Eval vm_compute in py "The Wireless AutoConfig Service is not running.
".
Definition failing_tool_env : Env :=
  mkEnv (fun _ _ => RunCompleted 1 [] TXT_NO_SERVICE)
        (fun _ => SAMPLE_STAMP) (fun _ => SAMPLE_ISO)
        (fun _ _ => None) (fun _ _ _ => None) (fun _ _ => None)
        (fun _ _ fs => fs) (fun _ _ _ => 0%nat) (fun _ _ => 0%nat).

(** The labels of the list report in English, the other language of the
    tool; the list parser does not look for them. *)
Definition LBL_USER_PROFILES_EN : list N := Eval vm_compute in py "User profiles".
Definition LBL_GROUP_PROFILES_EN : list N :=
  Eval vm_compute in py "Group policy profiles".
Definition LBL_ALL_USER_PROFILE_EN : list N :=
  Eval vm_compute in py "All User Profile".

(** The claim in the words of the specification, for a report in any
    language of the tool: [header] marks the start of the user-profiles
    section, [group] the start of the group-policy section, and [label] is
    the label of an entry.  A line of the section is an entry
    [<indent><label><ws>: <name>], which yields its name, trimmed, or a
    line that is neither blank nor a header nor of that shape, which
    yields nothing. *)
Inductive spec_section_line (header group label : list N)
    : list N -> option (list N) -> Prop :=
| spec_entry_line indent ws r :
    Forall (fun c => isspace c = true) indent ->
    Forall (fun c => isspace c = true) ws ->
    strip r <> [] ->
    spec_section_line header group label
      (indent ++ label ++ ws ++ COLON :: r) (Some (strip r))
| spec_other_line l :
    strip l <> [] ->
    startswith header (strip l) = false ->
    startswith group (strip l) = false ->
    re_search_label label (strip l) = None ->
    spec_section_line header group label l None.

Definition spec_section_end (group : list N) (rest : list (list N)) : Prop :=
  match rest with
  | [] => True
  | l :: _ => strip l = [] \/ startswith group (strip l) = true
  end.

(** [output] contains a well-formed user-profiles section whose entries
    are [names], in order. *)
Definition spec_well_formed_section (header group label : list N)
    (output : list N) (names : list (list N)) : Prop :=
  exists pre head body yields rest,
    split_nl output = pre ++ head :: body ++ rest
    /\ Forall (fun l => startswith header (strip l) = false) pre
    /\ startswith header (strip head) = true
    /\ Forall2 (spec_section_line header group label) body yields
    /\ spec_section_end group rest
    /\ names = omap id yields.

(** The first half of the claim as stated, for the labels of one language:
    the parser returns the names of every well-formed section. *)
Definition spec_lists_section (header group label : list N) : Prop :=
  forall output names,
    spec_well_formed_section header group label output names ->
    _parse_profile_list output = names.

Definition OUT_LIST_ENGLISH : list N :=
  Eval vm_compute in py "Profiles on interface Wi-Fi:

Group policy profiles (read only)
---------------------------------
    <None>

User profiles
-------------
    All User Profile     : My-Home-Net
    All User Profile     : HOME
".
Definition LIST_LINES_EN : list (list N) :=
  Eval vm_compute in split_nl OUT_LIST_ENGLISH.
Definition LIST_RULE_EN : list N := Eval vm_compute in nth 7 LIST_LINES_EN [].
Definition list_entry_en (name : list N) : list N :=
  LIST_INDENT ++ LBL_ALL_USER_PROFILE_EN ++ LIST_GAP ++ COLON :: SPACE :: name.

(** * Properties *)

(** ** The object store *)

Lemma live_state_with admin ps : live (state_with admin ps).
Proof. unfold live, state_with; simpl. rewrite lookup_singleton_eq. eauto. Qed.

Lemma fresh_not_live (s : State) : live s -> fresh (dom (heap s)) ≠ self_profiles s.
Proof.
  intros Hl Heq. apply (is_fresh (dom (heap s))).
  rewrite Heq. by apply elem_of_dom.
Qed.

Lemma alloc_spec v s :
  exists s', alloc v s = (Ret (fresh (dom (heap s))), s')
    /\ heap s' = <[fresh (dom (heap s)) := v]> (heap s)
    /\ self_profiles s' = self_profiles s
    /\ self_is_admin s' = self_is_admin s
    /\ files s' = files s /\ trace s' = trace s.
Proof. eexists; repeat split. Qed.

Lemma deref_alloc_new v s s' l :
  alloc v s = (Ret l, s') -> deref l s' = v.
Proof.
  unfold alloc; intros H; injection H as H1 H2; subst.
  unfold deref; simpl. by rewrite lookup_insert_eq.
Qed.

Lemma deref_alloc_old v s s' l l0 :
  alloc v s = (Ret l, s') -> is_Some (heap s !! l0) -> deref l0 s' = deref l0 s.
Proof.
  unfold alloc; intros H Hl; injection H as H1 H2; subst.
  unfold deref; simpl. rewrite lookup_insert_ne; [done|].
  intros Heq. apply (is_fresh (dom (heap s))). rewrite Heq. by apply elem_of_dom.
Qed.

(** A list comprehension builds a new object and leaves the old ones as
    they were. *)
Lemma comprehension_spec cond l s :
  exists s', comprehension cond l s = (Ret (fresh (dom (heap s))), s')
    /\ heap s' = <[fresh (dom (heap s)) := List.filter cond (deref l s)]> (heap s)
    /\ self_profiles s' = self_profiles s
    /\ self_is_admin s' = self_is_admin s
    /\ files s' = files s /\ trace s' = trace s.
Proof. eexists; repeat split. Qed.

(** ** The filter engine *)

Lemma insert_fresh_subseteq (h : gmap positive (list WifiProfile)) v :
  h ⊆ <[fresh (dom h) := v]> h.
Proof.
  apply insert_subseteq. apply not_elem_of_dom. apply is_fresh.
Qed.

Lemma lookup_insert_fresh (h : gmap positive (list WifiProfile)) v l :
  is_Some (h !! l) -> <[fresh (dom h) := v]> h !! l = h !! l.
Proof.
  intros Hl. apply lookup_insert_ne. intros Heq.
  apply (is_fresh (dom h)). rewrite Heq. by apply elem_of_dom.
Qed.

(** What one call of [filter_profiles] does to the machine: it returns a
    reference to the selected profiles, every list object that existed
    keeps its contents, and nothing else changes. *)
Lemma filter_profiles_spec lower hp sf s :
  live s ->
  exists l s',
    filter_profiles lower hp sf s = (Ret l, s')
    /\ deref l s' = selected lower hp sf (deref (self_profiles s) s)
    /\ heap s ⊆ heap s'
    /\ self_profiles s' = self_profiles s
    /\ self_is_admin s' = self_is_admin s
    /\ files s' = files s /\ trace s' = trace s
    /\ (filters_something hp sf = true -> l ∉ dom (heap s))
    /\ (filters_something hp sf = false -> l = self_profiles s /\ s' = s).
Proof.
  intros Hl. unfold live in Hl.
  pose proof (is_fresh (dom (heap s))) as Hf.
  assert (Hf2 : forall v, fresh (dom (<[fresh (dom (heap s)) := v]> (heap s)))
                          ∉ dom (heap s)).
  { intros v Hin.
    apply (is_fresh (dom (<[fresh (dom (heap s)) := v]> (heap s)))).
    rewrite dom_insert_L in Hin |- *. apply elem_of_union. by right. }
  assert (Hsub2 : forall v w,
    heap s ⊆ <[fresh (dom (<[fresh (dom (heap s)) := v]> (heap s))) := w]>
               (<[fresh (dom (heap s)) := v]> (heap s))).
  { intros v w. etrans; [apply insert_fresh_subseteq|].
    apply insert_fresh_subseteq. }
  destruct s as [h sp adm fs tr]; simpl in *.
  destruct hp as [[|]|], sf as [[|c f]|];
    unfold filter_profiles, comprehension, alloc, get, selected, deref;
    unfold mbind, M_bind, mret, M_ret; simpl;
    eexists; eexists; (split; [reflexivity|]); simpl;
    rewrite ?lookup_insert_eq; simpl.
  all: repeat match goal with |- _ /\ _ => split end.
  all: try reflexivity; try discriminate; try (intros _; split; reflexivity).
  all: try apply insert_fresh_subseteq; try apply Hsub2.
  all: try (intros _; first [apply Hf2 | apply Hf]).
  all: try (intros _; apply Hf).
Qed.

Lemma has_password_b_true p :
  has_password_b p = true
  <-> key p <> [] /\ key p <> NO_PASSWORD_SAVED /\ key p <> NOT_FOUND.
Proof.
  unfold has_password_b, str_eqb, truthy.
  destruct (key p) as [|c k] eqn:Hk; simpl.
  - split; [discriminate | intros [H _]; congruence].
  - rewrite andb_true_iff, !negb_true_iff, !bool_decide_eq_false.
    split.
    + intros [H1 H2]. repeat split; [discriminate | done | done].
    + intros (_ & H1 & H2). done.
Qed.

Lemma no_password_b_negb p : no_password_b p = negb (has_password_b p).
Proof.
  unfold no_password_b, has_password_b.
  rewrite !negb_andb, !negb_involutive. reflexivity.
Qed.

Lemma no_password_b_true p :
  no_password_b p = true
  <-> key p = [] \/ key p = NO_PASSWORD_SAVED \/ key p = NOT_FOUND.
Proof.
  unfold no_password_b, str_eqb, truthy.
  rewrite !orb_true_iff, !bool_decide_eq_true.
  destruct (key p); simpl; split; intros H.
  - by left.
  - left. by left.
  - destruct H as [[H|H]|H]; [discriminate | right; by left | right; by right].
  - destruct H as [H|[H|H]]; [discriminate | left; by right | by right].
Qed.

(** [List.filter] with a boolean test is the filter of the property the
    test decides. *)
Lemma List_filter_decide {A} (f : A -> bool) (P : A -> Prop)
    `{!forall x, Decision (P x)} (l : list A) :
  (forall x, f x = true <-> P x) -> List.filter f l = filter P l.
Proof.
  intros Hf. induction l as [|x l IH]; [done|]. simpl.
  rewrite filter_cons. destruct (decide (P x)) as [HP|HP].
  - apply Hf in HP as ->. by rewrite IH.
  - destruct (f x) eqn:Hx; [by apply Hf in Hx | done].
Qed.

Lemma List_filter_partition {A} (f : A -> bool) (l : list A) :
  List.filter f l ++ List.filter (fun x => negb (f x)) l ≡ₚ l.
Proof.
  induction l as [|x l IH]; [done|]. simpl. destruct (f x); simpl.
  - by rewrite IH.
  - rewrite <- Permutation_middle. by rewrite IH.
Qed.

Lemma List_filter_ext_in {A} (f g : A -> bool) (l : list A) :
  (forall x, f x = g x) -> List.filter f l = List.filter g l.
Proof. intros H. induction l as [|x l IH]; simpl; [done|]. by rewrite H, IH. Qed.

Lemma elem_of_List_filter {A} (f : A -> bool) (l : list A) x :
  x ∈ List.filter f l <-> x ∈ l /\ f x = true.
Proof.
  rewrite !list_elem_of_In, List.filter_In. reflexivity.
Qed.

(** C4: filtering with [has_password=True] returns no profile whose key is
    empty or a sentinel, filtering with [has_password=False] returns exactly
    the profiles whose key is empty or a sentinel, and the two results
    partition the stored collection: every profile is in exactly one of
    them, and together they are a rearrangement of the collection. *)
Theorem filter_has_password_partition (lower : list N -> list N) (s : State) :
  live s ->
  exists lt st lf sf,
    filter_profiles lower (Some true) None s = (Ret lt, st)
    /\ filter_profiles lower (Some false) None s = (Ret lf, sf)
    /\ let ps := deref (self_profiles s) s in
       let with_pw := deref lt st in
       let without := deref lf sf in
       Forall (fun p => key p <> [] /\ key p <> NO_PASSWORD_SAVED
                        /\ key p <> NOT_FOUND) with_pw
       /\ without = filter (fun p => key p = [] \/ key p = NO_PASSWORD_SAVED
                                     \/ key p = NOT_FOUND) ps
       /\ with_pw ++ without ≡ₚ ps
       /\ (forall p, p ∈ ps ->
             (p ∈ with_pw /\ (p ∉ without)) \/ ((p ∉ with_pw) /\ p ∈ without)).
Proof.
  intros Hl.
  destruct (filter_profiles_spec lower (Some true) None s Hl)
    as (lt & st & Ht & Hdt & _).
  destruct (filter_profiles_spec lower (Some false) None s Hl)
    as (lf & sf & Hf & Hdf & _).
  exists lt, st, lf, sf. split; [done|]. split; [done|]. simpl.
  rewrite Hdt, Hdf. unfold selected.
  set (ps := deref (self_profiles s) s).
  repeat split.
  - apply Forall_forall. intros p Hp.
    apply elem_of_List_filter in Hp as [_ Hp]. by apply has_password_b_true.
  - apply List_filter_decide. apply no_password_b_true.
  - rewrite (List_filter_ext_in no_password_b (fun p => negb (has_password_b p)))
      by apply no_password_b_negb.
    apply List_filter_partition.
  - intros p Hp. rewrite !elem_of_List_filter, no_password_b_negb.
    destruct (has_password_b p); simpl; [left | right]; split; try done.
    + intros [_ H]; discriminate.
    + intros [_ H]; discriminate.
Qed.

Lemma filter_has_password_partition_witness :
  exists lt st lf sf,
    filter_profiles ascii_lower (Some true) None (state_with true sample_profiles)
      = (Ret lt, st)
    /\ filter_profiles ascii_lower (Some false) None
         (state_with true sample_profiles) = (Ret lf, sf)
    /\ deref lt st ++ deref lf sf ≡ₚ sample_profiles.
Proof.
  destruct (filter_has_password_partition ascii_lower
              (state_with true sample_profiles))
    as (lt & st & lf & sf & H1 & H2 & _ & _ & H3 & _).
  - eexists. vm_compute. reflexivity.
  - exists lt, st, lf, sf. repeat split; assumption.
Defined.

Lemma contains_nil hay : contains [] hay = true.
Proof. destruct hay; reflexivity. Qed.

Lemma List_filter_all {A} (f : A -> bool) (l : list A) :
  (forall x, f x = true) -> List.filter f l = l.
Proof. intros H. induction l as [|x l IH]; simpl; [done|]. by rewrite H, IH. Qed.

(** C8: the SSID filter keeps a profile exactly when the lowercased filter
    text occurs in the lowercased ssid; filtering with "HOME" keeps a profile
    named "My-Home-Net".  [lower] is any function that agrees with
    [str.lower] on ASCII text. *)
Theorem filter_ssid_case_insensitive (lower : list N -> list N) (s : State)
    (f : list N) :
  (forall t, is_ascii t -> lower t = ascii_lower t) ->
  live s ->
  exists l s',
    filter_profiles lower None (Some f) s = (Ret l, s')
    /\ deref l s'
       = List.filter (fun p => contains (lower f) (lower (ssid p)))
                     (deref (self_profiles s) s)
    /\ (forall p, p ∈ deref l s'
          <-> p ∈ deref (self_profiles s) s
              /\ contains (lower f) (lower (ssid p)) = true)
    /\ (f = TXT_HOME ->
        forall p, ssid p = TXT_MY_HOME_NET ->
          p ∈ deref (self_profiles s) s -> p ∈ deref l s').
Proof.
  intros Hlow Hl.
  destruct (filter_profiles_spec lower None (Some f) s Hl)
    as (l & s' & Hrun & Hd & _).
  assert (Heq : deref l s'
    = List.filter (fun p => contains (lower f) (lower (ssid p)))
                  (deref (self_profiles s) s)).
  { rewrite Hd. unfold selected. destruct f as [|c f]; simpl; [|done].
    symmetry. apply List_filter_all. intros p.
    rewrite (Hlow []) by constructor. apply contains_nil. }
  exists l, s'. split; [done|]. split; [done|]. split.
  - intros p. rewrite Heq.
    apply (elem_of_List_filter (fun p => contains (lower f) (lower (ssid p)))).
  - intros -> p Hp Hin. rewrite Heq.
    apply (elem_of_List_filter
             (fun p => contains (lower TXT_HOME) (lower (ssid p)))).
    split; [done|]. rewrite Hp.
    rewrite (Hlow TXT_HOME), (Hlow TXT_MY_HOME_NET).
    + reflexivity.
    + unfold is_ascii, TXT_MY_HOME_NET. repeat constructor.
    + unfold is_ascii, TXT_HOME. repeat constructor.
Qed.

Lemma filter_ssid_case_insensitive_witness :
  exists l s',
    filter_profiles ascii_lower None (Some TXT_HOME)
      (state_with true sample_profiles) = (Ret l, s')
    /\ deref l s' = [sample_profile TXT_MY_HOME_NET TXT_SECRET;
                     sample_profile TXT_HOME NO_PASSWORD_SAVED].
Proof.
  destruct (filter_ssid_case_insensitive ascii_lower
              (state_with true sample_profiles) TXT_HOME)
    as (l & s' & H1 & H2 & _).
  - intros t _. reflexivity.
  - eexists. vm_compute. reflexivity.
  - exists l, s'. split; [assumption|]. rewrite H2. vm_compute. reflexivity.
Defined.

(** C9, as the code has it: [filter_profiles] leaves [self.profiles] and
    every list object as they were; it returns a new list object when
    [has_password] is given or [ssid_filter] is a non-empty text, and the
    list object of [self.profiles] itself otherwise. *)
Theorem filter_profiles_frame (lower : list N -> list N)
    (hp : option bool) (sf : option (list N)) (s : State) :
  live s ->
  exists l s',
    filter_profiles lower hp sf s = (Ret l, s')
    /\ self_profiles s' = self_profiles s
    /\ deref (self_profiles s) s' = deref (self_profiles s) s
    /\ (forall l0, is_Some (heap s !! l0) -> deref l0 s' = deref l0 s)
    /\ (filters_something hp sf = true ->
        (l ∉ dom (heap s)) /\ l <> self_profiles s)
    /\ (filters_something hp sf = false -> l = self_profiles s).
Proof.
  intros Hl.
  destruct (filter_profiles_spec lower hp sf s Hl)
    as (l & s' & Hrun & _ & Hsub & Hsp & _ & _ & _ & Hnew & Hold).
  assert (Hkeep : forall l0, is_Some (heap s !! l0) -> deref l0 s' = deref l0 s).
  { intros l0 [v Hv]. unfold deref.
    rewrite (lookup_weaken _ _ _ _ Hv Hsub). by rewrite Hv. }
  exists l, s'. repeat split; try done.
  - by apply Hkeep.
  - by apply Hnew.
  - intros ->. apply (Hnew H). by apply elem_of_dom.
  - intros H. by apply Hold.
Qed.

Lemma filter_profiles_frame_witness :
  exists l s',
    filter_profiles ascii_lower (Some true) (Some TXT_HOME)
      (state_with true sample_profiles) = (Ret l, s')
    /\ deref 1%positive s' = sample_profiles
    /\ l <> 1%positive.
Proof.
  destruct (filter_profiles_frame ascii_lower (Some true) (Some TXT_HOME)
              (state_with true sample_profiles))
    as (l & s' & H1 & _ & H2 & _ & H3 & _).
  - eexists. vm_compute. reflexivity.
  - exists l, s'. split; [assumption|]. split; [exact H2|].
    apply H3. reflexivity.
Defined.

(** C9, as stated, fails: without filter arguments the call returns the
    list object of [self.profiles], not a new collection. *)
Lemma filter_without_arguments_returns_source :
  ~ returns_new_collection ascii_lower None None
      (state_with true sample_profiles).
Proof.
  intros (l & s' & Hrun & _ & Hne).
  vm_compute in Hrun. injection Hrun as Hl _. apply Hne. by rewrite <- Hl.
Qed.

(** C10: the statistics add up, and [with_password] is the number of
    profiles [filter_profiles] selects with [has_password=True]. *)
Theorem get_stats_consistent (lower : list N -> list N) (s : State) :
  live s ->
  exists st s1 l s2,
    get_stats s = (Ret st, s1)
    /\ filter_profiles lower (Some true) None s = (Ret l, s2)
    /\ (with_password st + without_password st = total_profiles st)%Z
    /\ with_password st = len (deref l s2)
    /\ total_profiles st = len (deref (self_profiles s) s)
    /\ (0 <= without_password st)%Z.
Proof.
  intros Hl.
  destruct (filter_profiles_spec lower (Some true) None s Hl)
    as (l & s2 & Hrun & Hd & _).
  eexists _, _, l, s2. split; [reflexivity|]. split; [exact Hrun|]. simpl.
  rewrite Hd. unfold selected, len. repeat split; try lia.
  pose proof (List.filter_length_le has_password_b (deref (self_profiles s) s)).
  lia.
Qed.

Lemma get_stats_consistent_witness :
  exists st s1,
    get_stats (state_with true sample_profiles) = (Ret st, s1)
    /\ with_password st = 1%Z /\ without_password st = 2%Z
    /\ total_profiles st = 3%Z.
Proof.
  destruct (get_stats_consistent ascii_lower (state_with true sample_profiles))
    as (st & s1 & l & s2 & H1 & H2 & H3 & H4 & H5 & H6).
  - eexists. vm_compute. reflexivity.
  - exists st, s1. split; [assumption|].
    unfold get_stats in H1. injection H1 as <- _. vm_compute. by repeat split.
Defined.

(** ** Extraction and privileges *)

(** C5: without elevation [extract_profiles] raises the privilege error
    and leaves the whole machine as it was: the history of effects gains no
    command (neither the list command nor a detail command is run), and
    [self.profiles] and the list it refers to are unchanged. *)
Theorem extract_profiles_requires_admin (env : Env) (s : State) :
  self_is_admin s = false ->
  extract_profiles env s = (Raise (PermissionError MSG_NEED_ADMIN), s).
Proof.
  intros H. unfold extract_profiles, get, raise, mbind, M_bind. simpl.
  rewrite H. reflexivity.
Qed.

Lemma extract_profiles_requires_admin_witness :
  extract_profiles quiet_env (state_with false sample_profiles)
  = (Raise (PermissionError MSG_NEED_ADMIN), state_with false sample_profiles).
Proof.
  apply (extract_profiles_requires_admin quiet_env
           (state_with false sample_profiles)).
  reflexivity.
Defined.

(** The machine after one more recorded effect. *)
Lemma log_run ev s :
  log ev s = (Ret tt, mkState (heap s) (self_profiles s) (self_is_admin s)
                              (files s) (trace s ++ [ev])).
Proof. reflexivity. Qed.

Lemma bind_run {A B} (m : M A) (k : A -> M B) s :
  (m ≫= k) s = match m s with
               | (Ret a, s') => k a s'
               | (Raise e, s') => (Raise e, s')
               end.
Proof. reflexivity. Qed.

Lemma bind_ret {A B} (m : M A) (k : A -> M B) s a s' :
  m s = (Ret a, s') -> (m ≫= k) s = k a s'.
Proof. intros H. rewrite bind_run, H. reflexivity. Qed.


Lemma extends_refl s : extends s s.
Proof. exists []. by rewrite app_nil_r. Qed.

Lemma extends_trans s1 s2 s3 : extends s1 s2 -> extends s2 s3 -> extends s1 s3.
Proof.
  intros [r1 H1] [r2 H2]. exists (r1 ++ r2). by rewrite H2, H1, app_assoc.
Qed.

Lemma _run_command_spec env command s :
  exists out,
    _run_command env command s
    = (Ret out, mkState (heap s) (self_profiles s) (self_is_admin s)
                        (subprocess_files env (trace s) command (files s))
                        (trace s ++ [EvRun command])).
Proof.
  unfold _run_command. rewrite (bind_ret get _ s s s) by reflexivity.
  rewrite (bind_ret _ _ _ _ _ (log_run _ _)).
  rewrite (bind_ret (set_files _) _ _ _ _ eq_refl).
  destruct (subprocess_run env (trace s) command) as [t|rc o e];
    [|destruct (rc =? 0)%Z]; eexists; reflexivity.
Qed.

Lemma for_each_extends {A} (body : A -> M unit) (xs : list A) :
  (forall x s, exists s', body x s = (Ret tt, s') /\ extends s s') ->
  forall s, exists s', for_each xs body s = (Ret tt, s') /\ extends s s'.
Proof.
  intros Hb. induction xs as [|x xs IH]; intros s; simpl.
  - exists s. split; [reflexivity | apply extends_refl].
  - destruct (Hb x s) as (s1 & H1 & E1). destruct (IH s1) as (s2 & H2 & E2).
    exists s2. rewrite (bind_ret _ _ _ _ _ H1). split; [done|].
    by apply (extends_trans _ s1).
Qed.

(** With elevation the list command is the first thing run. *)
Lemma extract_profiles_admin_runs_list_command (env : Env) (s : State) :
  self_is_admin s = true ->
  exists l s' rest,
    extract_profiles env s = (Ret l, s')
    /\ trace s' = trace s ++ EvRun CMD_SHOW_PROFILES :: rest.
Proof.
  intros H. unfold extract_profiles.
  rewrite (bind_ret get _ s s s) by reflexivity. rewrite H. simpl.
  destruct (_run_command_spec env CMD_SHOW_PROFILES s) as [out Hrun].
  rewrite (bind_ret _ _ _ _ _ Hrun).
  rewrite (bind_ret _ _ _ _ _ (log_run _ _)).
  rewrite (bind_ret (alloc []) _ _ _ _ eq_refl).
  rewrite (bind_ret (set_self_profiles _) _ _ _ _ eq_refl).
  set (body := fun profile_name : list N => _).
  edestruct (for_each_extends body (_parse_profile_list out))
    as (s2 & Hfe & [rest Hext]).
  { intros x s1. destruct (_run_command_spec env (details_command x) s1)
      as [o Ho].
    eexists. subst body. simpl. rewrite (bind_ret _ _ _ _ _ Ho).
    rewrite (bind_ret get _ _ _ _ eq_refl). split; [reflexivity|].
    exists [EvRun (details_command x)]. reflexivity. }
  rewrite (bind_ret _ _ _ _ _ Hfe).
  rewrite (bind_ret get _ _ _ _ eq_refl).
  eexists _, s2, _. split; [reflexivity|].
  rewrite Hext. simpl. rewrite <- !app_assoc. reflexivity.
Qed.

(** ** The exporters *)

Lemma try_except_run {A} (body : M A) (handler : exn -> M A) s :
  try_except body handler s
  = match body s with
    | (Ret a, s') => (Ret a, s')
    | (Raise e, s') => handler e s'
    end.
Proof. reflexivity. Qed.

Lemma profiles_or_self_run profiles s :
  profiles_or_self profiles s = (Ret (chosen_profiles profiles s), s).
Proof. destruct profiles; reflexivity. Qed.

Lemma outcome_cases {A} (m : M A) s :
  (exists a s', m s = (Ret a, s')) \/ (exists e s', m s = (Raise e, s')).
Proof. destruct (m s) as [[a|e] s']; eauto. Qed.
























(** Each exporter is its body inside [try] / [except Exception]. *)
Lemma export_with_run env fmt filename profiles s :
  export_with env fmt filename profiles s
  = match export_body env fmt filename (chosen_profiles profiles s) s with
    | (Ret _, s') => (Ret true, s')
    | (Raise e, s') =>
      (Ret false, logged (EvPrint (error_prefix fmt ++ exn_str e)) s')
    end.
Proof.
  destruct fmt; simpl;
    [unfold export_to_txt | unfold export_to_csv | unfold export_to_json];
    rewrite (bind_ret _ _ _ _ _ (profiles_or_self_run profiles s));
    rewrite try_except_run, bind_run;
    match goal with
    | |- context [match ?m s with _ => _ end] => destruct (m s) as [[[]|e] s1]
    end; reflexivity.
Qed.


(** ** Strings *)

Lemma N_eqb_refl' (c : N) : (c =? c) = true.
Proof. apply N.eqb_refl. Qed.

Lemma isspace_colon : isspace COLON = false.
Proof. reflexivity. Qed.

Lemma isspace_nl : isspace NL = true.
Proof. reflexivity. Qed.

Lemma lstrip_app_nonspace a c r :
  isspace c = false -> lstrip (a ++ c :: r) = lstrip a ++ c :: r.
Proof.
  intros Hc. induction a as [|x a IH]; simpl.
  - by rewrite Hc.
  - destruct (isspace x); [exact IH | reflexivity].
Qed.

Lemma lstrip_spaces a r : Forall (fun c => isspace c = true) a ->
  lstrip (a ++ r) = lstrip r.
Proof.
  induction 1 as [|x a Hx _ IH]; simpl; [done|]. by rewrite Hx.
Qed.

Lemma lstrip_nonspace c r : isspace c = false -> lstrip (c :: r) = c :: r.
Proof. intros H. simpl. by rewrite H. Qed.

Lemma rstrip_cons_nonspace c r :
  isspace c = false -> rstrip (c :: r) = c :: rstrip r.
Proof. intros H. simpl. destruct (rstrip r); [by rewrite H | done]. Qed.

Lemma rstrip_app_nonempty x y : rstrip y <> [] -> rstrip (x ++ y) = x ++ rstrip y.
Proof.
  intros Hy. induction x as [|c x IH]; simpl; [done|].
  rewrite IH. destruct (x ++ rstrip y) eqn:E; [|done].
  apply app_eq_nil in E as [_ E]. done.
Qed.

Lemma lstrip_idem r : lstrip (lstrip r) = lstrip r.
Proof.
  induction r as [|c r IH]; simpl; [done|].
  destruct (isspace c) eqn:E; [exact IH|]. simpl. by rewrite E.
Qed.

Lemma rstrip_idem r : rstrip (rstrip r) = rstrip r.
Proof.
  induction r as [|c r IH]; simpl; [done|].
  destruct (rstrip r) as [|d x] eqn:E.
  - destruct (isspace c) eqn:Ec; simpl; [done | by rewrite Ec].
  - change (rstrip (c :: d :: x)) with
      (match rstrip (d :: x) with
       | [] => if isspace c then [] else [c]
       | y => c :: y
       end).
    by rewrite IH.
Qed.

Lemma lstrip_rstrip r : lstrip (rstrip r) = rstrip (lstrip r).
Proof.
  induction r as [|c r IH]; [done|].
  destruct (isspace c) eqn:Ec.
  - change (lstrip (c :: r)) with (if isspace c then lstrip r else c :: r).
    rewrite Ec, <- IH. simpl. rewrite Ec.
    destruct (rstrip r) as [|d x]; simpl; [done | by rewrite Ec].
  - rewrite (lstrip_nonspace c r Ec), (rstrip_cons_nonspace c r Ec).
    by apply lstrip_nonspace.
Qed.

Lemma strip_idem r : strip (strip r) = strip r.
Proof.
  unfold strip. by rewrite lstrip_rstrip, lstrip_idem, rstrip_idem.
Qed.

Lemma Forall_lstrip (P : N -> Prop) r : Forall P r -> Forall P (lstrip r).
Proof.
  induction 1 as [|c r Hc Hr IH]; simpl; [done|].
  destruct (isspace c); [done | by constructor].
Qed.

Lemma Forall_rstrip (P : N -> Prop) r : Forall P r -> Forall P (rstrip r).
Proof.
  induction 1 as [|c r Hc Hr IH]; simpl; [done|].
  destruct (rstrip r); [destruct (isspace c); by repeat constructor|].
  by constructor.
Qed.

Lemma dot_run_no_nl r : Forall (fun c => c <> NL) r -> dot_run r = r.
Proof.
  induction 1 as [|c r Hc _ IH]; simpl; [done|].
  destruct (N.eqb_spec c NL); [done | by rewrite IH].
Qed.

(** The lines of [split] hold no newline. *)
Lemma split_nl_no_nl s : Forall (Forall (fun c => c <> NL)) (split_nl s).
Proof.
  induction s as [|c s IH]; simpl; [by repeat constructor|].
  destruct (N.eqb_spec c NL) as [->|Hc]; [by constructor|].
  destruct (split_nl s) as [|l ls]; [by repeat constructor|].
  inversion IH; subst. constructor; [by constructor | done].
Qed.

(** On text without a newline whose trimmed form is not empty, [\s*(.+)]
    captures everything after the leading whitespace. *)
Lemma match_ws_dot_lstrip r :
  Forall (fun c => c <> NL) r -> lstrip r <> [] ->
  match_ws_dot r = Some (lstrip r).
Proof.
  induction 1 as [|c r Hc Hr IH]; simpl; [done|].
  destruct (isspace c) eqn:E; intros Hne.
  - by rewrite (IH Hne).
  - by rewrite (dot_run_no_nl r Hr), (proj2 (N.eqb_neq c NL) Hc).
Qed.

Lemma rstrip_nil_iff r : rstrip r = [] <-> Forall (fun c => isspace c = true) r.
Proof.
  induction r as [|c r IH]; simpl; [done|]. split.
  - destruct (rstrip r) as [|d x]; [|done].
    destruct (isspace c) eqn:Ec; [|done]. intros _.
    constructor; [done | by apply IH].
  - intros H. inversion H as [|? ? Hc Hr]; subst.
    rewrite (proj2 IH Hr), Hc. done.
Qed.

Lemma lstrip_nil_iff r : lstrip r = [] <-> Forall (fun c => isspace c = true) r.
Proof.
  induction r as [|c r IH]; simpl; [done|]. split.
  - destruct (isspace c) eqn:Ec; [|done]. intros H.
    constructor; [done | by apply IH].
  - intros H. inversion H as [|? ? Hc Hr]; subst. rewrite Hc. by apply IH.
Qed.

Lemma lstrip_head r c x : lstrip r = c :: x -> isspace c = false.
Proof.
  induction r as [|d r IH]; simpl; [done|].
  destruct (isspace d) eqn:Ed; [exact IH|]. by intros [= <- _].
Qed.

(** A text that trims to nothing is whitespace. *)
Lemma strip_nil_rstrip r : strip r = [] -> rstrip r = [].
Proof.
  unfold strip. intros H. apply rstrip_nil_iff in H.
  apply rstrip_nil_iff, lstrip_nil_iff.
  destruct (lstrip r) as [|c x] eqn:E; [done|].
  apply lstrip_head in E. inversion H; congruence.
Qed.

Lemma after_colon_split line r :
  after_colon line = Some r ->
  exists a, line = a ++ COLON :: r /\ Forall (fun c => c <> COLON) a.
Proof.
  revert r. induction line as [|c line IH]; intros r; simpl; [done|].
  destruct (N.eqb_spec c COLON) as [->|Hc].
  - intros [= ->]. by exists [].
  - intros H. destruct (IH r H) as (a & -> & Ha).
    exists (c :: a). split; [done | by constructor].
Qed.

Lemma re_search_value_skip a r :
  Forall (fun c => c <> COLON) a -> re_search_value (a ++ r) = re_search_value r.
Proof.
  induction 1 as [|c a Hc _ IH]; simpl; [done|].
  by rewrite (proj2 (N.eqb_neq c COLON) Hc).
Qed.

(** The trimmed form of a line with a colon: the part before the colon
    loses its leading whitespace, the part after it its trailing one. *)
Lemma strip_around_colon a r :
  strip (a ++ COLON :: r) = lstrip a ++ COLON :: rstrip r.
Proof.
  unfold strip. rewrite (lstrip_app_nonspace a COLON r isspace_colon).
  rewrite rstrip_app_nonempty; rewrite (rstrip_cons_nonspace _ _ isspace_colon);
    done.
Qed.

(** What [re.search(r':\s*(.+)', line.strip())] captures: the text after
    the first colon, which trimmed is the line's value. *)
Lemma re_search_value_line line v :
  Forall (fun c => c <> NL) line ->
  line_value line = Some v -> v <> [] ->
  exists g, re_search_value (strip line) = Some g /\ strip g = v.
Proof.
  intros Hnl Hv Hne. unfold line_value in Hv.
  destruct (after_colon line) as [r|] eqn:Hr; [|done].
  injection Hv as <-.
  destruct (after_colon_split line r Hr) as (a & -> & Ha).
  rewrite strip_around_colon.
  rewrite (re_search_value_skip _ _ (Forall_lstrip _ _ Ha)). simpl.
  apply Forall_app in Hnl as [_ Hnl]. inversion Hnl as [|? ? _ Hnr]; subst.
  assert (Hl : lstrip (rstrip r) <> []) by (by rewrite lstrip_rstrip).
  rewrite (match_ws_dot_lstrip _ (Forall_rstrip _ _ Hnr) Hl).
  eexists; split; [reflexivity|].
  unfold strip. by rewrite lstrip_idem, lstrip_rstrip, rstrip_idem.
Qed.

(** A colon with nothing but whitespace after it gives no match. *)
Lemma re_search_value_line_empty line :
  Forall (fun c => c <> NL) line ->
  line_value line = Some [] -> re_search_value (strip line) = None.
Proof.
  intros Hnl Hv. unfold line_value in Hv.
  destruct (after_colon line) as [r|] eqn:Hr; [|done].
  injection Hv as Hv.
  destruct (after_colon_split line r Hr) as (a & -> & Ha).
  rewrite strip_around_colon.
  rewrite (re_search_value_skip _ _ (Forall_lstrip _ _ Ha)). simpl.
  assert (Hr0 : rstrip r = []) by (by apply strip_nil_rstrip).
  rewrite Hr0. reflexivity.
Qed.

(** ** The profile detail parser *)

(** Only a key-content line can change the key. *)
Lemma details_step_key_other pd l :
  is_key_content_line (strip l) = false -> key (details_step pd l) = key pd.
Proof.
  intros H. unfold details_step. rewrite H.
  destruct (is_auth_line (strip l)), (is_cipher_line (strip l)),
    (is_key_type_line (strip l)), (is_profile_type_line (strip l)),
    (re_search_value (strip l)); reflexivity.
Qed.

Lemma fold_details_key_other pd ls :
  Forall (fun l => is_key_content_line (strip l) = false) ls ->
  key (fold_left details_step ls pd) = key pd.
Proof.
  intros H. revert pd. induction H as [|l ls Hl _ IH]; intros pd; simpl; [done|].
  by rewrite IH, details_step_key_other.
Qed.

(** A key-content line that reaches its branch and has a value sets the
    key to that value. *)
Lemma details_step_key_line pd l g :
  is_auth_line (strip l) = false -> is_cipher_line (strip l) = false ->
  is_key_content_line (strip l) = true ->
  re_search_value (strip l) = Some g ->
  strip g <> [] -> strip g <> ABSENT ->
  key (details_step pd l) = strip g.
Proof.
  intros Ha Hc Hk Hg Hne Hab. unfold details_step.
  rewrite Ha, Hc, Hk, Hg. unfold str_eqb.
  rewrite (bool_decide_eq_false_2 _ Hab).
  destruct (strip g); [done | reflexivity].
Qed.

(** A key-content line whose value is empty changes nothing. *)
Lemma details_step_empty_value pd l :
  Forall (fun c => c <> NL) l ->
  is_auth_line (strip l) = false -> is_cipher_line (strip l) = false ->
  is_key_content_line (strip l) = true ->
  line_value l = Some [] ->
  details_step pd l = pd.
Proof.
  intros Hnl Ha Hc Hk Hv. unfold details_step.
  by rewrite Ha, Hc, Hk, (re_search_value_line_empty l Hnl Hv).
Qed.

(** Without a key-content line the key keeps its default. *)
Lemma key_without_key_line output profile_name :
  Forall (fun l => is_key_content_line (strip l) = false) (split_nl output) ->
  key (_parse_profile_details output profile_name) = NOT_FOUND.
Proof.
  intros H. unfold _parse_profile_details. by rewrite fold_details_key_other.
Qed.

(** The example of the specification: an authentication line and a
    key-content line with the value "Absent". *)
Lemma parse_details_spec_example profile_name :
  let p := _parse_profile_details OUT_SPEC_EXAMPLE profile_name in
  ssid p = profile_name
  /\ authentication p = TXT_WPA2_PERSONAL
  /\ key p = NO_PASSWORD_SAVED.
Proof. repeat split. Qed.

(** C1, at the input where the code misses it: a key-content line is
    present and its value is empty, and the key is "Not found", the value
    of the case without any key-content line, not "No password saved". *)
Theorem empty_key_value_gives_not_found (profile_name : list N) :
  Exists (fun l => is_key_content_line (strip l) = true
                   /\ line_value l = Some [])
         (split_nl OUT_EMPTY_KEY)
  /\ key (_parse_profile_details OUT_EMPTY_KEY profile_name) = NOT_FOUND
  /\ key (_parse_profile_details [] profile_name) = NOT_FOUND
  /\ NOT_FOUND <> NO_PASSWORD_SAVED.
Proof.
  split; [|repeat split; discriminate].
  apply Exists_cons_hd. split; reflexivity.
Qed.

(** The same for every output whose only key-content line has an empty
    value. *)
Lemma empty_key_value_general output profile_name pre line post :
  split_nl output = pre ++ line :: post ->
  Forall (fun l => is_key_content_line (strip l) = false) pre ->
  Forall (fun l => is_key_content_line (strip l) = false) post ->
  is_auth_line (strip line) = false -> is_cipher_line (strip line) = false ->
  is_key_content_line (strip line) = true ->
  line_value line = Some [] ->
  key (_parse_profile_details output profile_name) = NOT_FOUND.
Proof.
  intros Hs Hpre Hpost Ha Hc Hk Hv.
  assert (Hnl : Forall (fun c => c <> NL) line).
  { pose proof (split_nl_no_nl output) as H. rewrite Hs in H.
    apply Forall_app in H as [_ H]. by inversion H. }
  unfold _parse_profile_details. rewrite Hs, fold_left_app. simpl.
  rewrite (fold_details_key_other _ _ Hpost).
  rewrite (details_step_empty_value _ _ Hnl Ha Hc Hk Hv).
  by rewrite (fold_details_key_other _ _ Hpre).
Qed.

(** X30: where the code does keep the secret: the last key-content line
    of the output, when it holds none of the labels tested before the key
    content (authentication, cipher) and its value is neither empty nor
    "Absent", gives the key: exactly that value, trimmed. *)
Theorem key_fidelity_last_key_line (output profile_name : list N)
    (pre : list (list N)) (line : list N) (post : list (list N)) (v : list N) :
  split_nl output = pre ++ line :: post ->
  is_key_content_line (strip line) = true ->
  is_auth_line (strip line) = false ->
  is_cipher_line (strip line) = false ->
  line_value line = Some v -> v <> [] -> v <> ABSENT ->
  Forall (fun l => is_key_content_line (strip l) = false) post ->
  key (_parse_profile_details output profile_name) = v.
Proof.
  intros Hs Hk Ha Hc Hv Hne Hab Hpost.
  assert (Hnl : Forall (fun c => c <> NL) line).
  { pose proof (split_nl_no_nl output) as H. rewrite Hs in H.
    apply Forall_app in H as [_ H]. by inversion H. }
  destruct (re_search_value_line line v Hnl Hv Hne) as (g & Hg & <-).
  unfold _parse_profile_details. rewrite Hs, fold_left_app. simpl.
  rewrite (fold_details_key_other _ _ Hpost).
  by apply details_step_key_line.
Qed.

Lemma key_fidelity_last_key_line_witness :
  key (_parse_profile_details OUT_WITH_KEY TXT_HOME) = TXT_SECRET.
Proof.
  apply (key_fidelity_last_key_line OUT_WITH_KEY TXT_HOME
           (firstn 2 (split_nl OUT_WITH_KEY))
           (nth 2 (split_nl OUT_WITH_KEY) [])
           (skipn 3 (split_nl OUT_WITH_KEY))).
  - reflexivity.
  - reflexivity.
  - reflexivity.
  - reflexivity.
  - reflexivity.
  - discriminate.
  - discriminate.
  - repeat constructor.
Defined.

(** C2, at the input where the code misses it: the output has a
    key-content line whose value, "Cipher123", is neither empty nor
    "Absent"; the line also passes the cipher test, which comes first and
    looks at the whole line, so the value goes to the encryption field and
    the key stays "Not found" instead of being that value. *)
Theorem secret_with_label_is_not_the_key (profile_name : list N) :
  Exists (fun l => is_key_content_line (strip l) = true
                   /\ line_value l = Some TXT_CIPHER123)
         (split_nl OUT_KEY_WITH_CIPHER)
  /\ TXT_CIPHER123 <> [] /\ TXT_CIPHER123 <> ABSENT
  /\ key (_parse_profile_details OUT_KEY_WITH_CIPHER profile_name) = NOT_FOUND
  /\ encryption (_parse_profile_details OUT_KEY_WITH_CIPHER profile_name)
     = TXT_CIPHER123
  /\ NOT_FOUND <> TXT_CIPHER123.
Proof.
  split; [|repeat split; discriminate].
  apply Exists_cons_hd. split; reflexivity.
Qed.

(** ** The profile list parser *)

Lemma startswith_app p r : startswith p (p ++ r) = true.
Proof. induction p as [|c p IH]; simpl; [done|]. by rewrite N.eqb_refl, IH. Qed.

Lemma startswith_split p s :
  startswith p s = true -> exists r, s = p ++ r.
Proof.
  revert s. induction p as [|c p IH]; intros s; simpl; [by exists s|].
  destruct s as [|d s]; [done|].
  rewrite andb_true_iff. intros [Hc Hp]. apply N.eqb_eq in Hc as ->.
  destruct (IH s Hp) as [r ->]. by exists r.
Qed.

Lemma strip_prefix_app p r : strip_prefix p (p ++ r) = Some r.
Proof. induction p as [|c p IH]; simpl; [done|]. by rewrite N.eqb_refl. Qed.

Lemma re_search_label_unfold lit s :
  re_search_label lit s
  = match match_label_value lit s with
    | Some g => Some g
    | None => match s with [] => None | _ :: s' => re_search_label lit s' end
    end.
Proof. destruct s; reflexivity. Qed.

(** The header of the group policy profiles is not the header of the user
    profiles. *)
Lemma group_header_not_user_header l :
  startswith LBL_GROUP_PROFILES l = true ->
  startswith LBL_USER_PROFILES l = false.
Proof. intros H. apply startswith_split in H as [r ->]. reflexivity. Qed.

(** The trimmed form of an entry line, and what the pattern captures. *)
Lemma strip_entry_line indent ws r :
  Forall (fun c => isspace c = true) indent ->
  strip (indent ++ LBL_ALL_USER_PROFILE ++ ws ++ COLON :: r)
  = LBL_ALL_USER_PROFILE ++ ws ++ COLON :: rstrip r.
Proof.
  intros Hi. unfold strip. rewrite (lstrip_spaces _ _ Hi).
  change (lstrip (LBL_ALL_USER_PROFILE ++ ws ++ COLON :: r))
    with (LBL_ALL_USER_PROFILE ++ ws ++ COLON :: r).
  rewrite !app_assoc. rewrite rstrip_app_nonempty;
    rewrite (rstrip_cons_nonspace _ _ isspace_colon); done.
Qed.

Lemma re_search_label_entry ws r :
  Forall (fun c => isspace c = true) ws ->
  Forall (fun c => c <> NL) r ->
  strip r <> [] ->
  re_search_label LBL_ALL_USER_PROFILE
    (LBL_ALL_USER_PROFILE ++ ws ++ COLON :: rstrip r)
  = Some (strip r).
Proof.
  intros Hw Hnl Hne. rewrite re_search_label_unfold.
  unfold match_label_value. rewrite strip_prefix_app.
  rewrite (lstrip_app_nonspace ws COLON _ isspace_colon).
  rewrite (proj2 (lstrip_nil_iff ws) Hw). simpl.
  rewrite (match_ws_dot_lstrip (rstrip r)).
  - by rewrite lstrip_rstrip.
  - by apply Forall_rstrip.
  - by rewrite lstrip_rstrip.
Qed.

Lemma parse_list_loop_cons raw rest in_section acc :
  parse_list_loop (raw :: rest) in_section acc
  = if startswith LBL_USER_PROFILES (strip raw)
    then parse_list_loop rest true acc
    else if in_section then
      if negb (truthy (strip raw)) || startswith LBL_GROUP_PROFILES (strip raw)
      then acc
      else match re_search_label LBL_ALL_USER_PROFILE (strip raw) with
           | Some g => parse_list_loop rest in_section (acc ++ [strip g])
           | None => parse_list_loop rest in_section acc
           end
    else parse_list_loop rest in_section acc.
Proof. reflexivity. Qed.

(** Before the header nothing is collected. *)
Lemma parse_list_loop_before pre tail acc :
  Forall (fun l => startswith LBL_USER_PROFILES (strip l) = false) pre ->
  parse_list_loop (pre ++ tail) false acc = parse_list_loop tail false acc.
Proof.
  induction 1 as [|l pre Hl _ IH]; [done|].
  change ((l :: pre) ++ tail) with (l :: (pre ++ tail)).
  by rewrite parse_list_loop_cons, Hl.
Qed.

(** Inside the section each line adds what it yields, up to the end of the
    section. *)
Lemma parse_list_loop_section body yields rest acc :
  Forall2 section_line body yields ->
  Forall (Forall (fun c => c <> NL)) body ->
  ends_section rest ->
  parse_list_loop (body ++ rest) true acc = acc ++ omap id yields.
Proof.
  intros Hb. revert acc.
  induction Hb as [|l y body yields Hl _ IH]; intros acc Hnl Hend.
  - change ([] ++ rest) with rest. change (omap id []) with (@nil (list N)).
    rewrite app_nil_r.
    destruct rest as [|l rest]; [done|]. rewrite parse_list_loop_cons.
    destruct Hend as [He|He].
    + rewrite He. reflexivity.
    + rewrite (group_header_not_user_header _ He), He.
      by rewrite orb_true_r.
  - inversion Hnl as [|? ? Hnl1 Hnl2]; subst.
    change ((l :: body) ++ rest) with (l :: (body ++ rest)).
    rewrite parse_list_loop_cons.
    destruct Hl as [indent ws r Hi Hw Hne | l Hne Hu Hg Hs | l Hu].
    + rewrite (strip_entry_line indent ws r Hi).
      change (startswith LBL_USER_PROFILES
                (LBL_ALL_USER_PROFILE ++ ws ++ COLON :: rstrip r)) with false.
      change (startswith LBL_GROUP_PROFILES
                (LBL_ALL_USER_PROFILE ++ ws ++ COLON :: rstrip r)) with false.
      change (truthy (LBL_ALL_USER_PROFILE ++ ws ++ COLON :: rstrip r))
        with true.
      cbn [negb orb].
      assert (Hr : Forall (fun c => c <> NL) r).
      { apply Forall_app in Hnl1 as [_ H1]. apply Forall_app in H1 as [_ H1].
        apply Forall_app in H1 as [_ H1]. by inversion H1. }
      rewrite (re_search_label_entry ws r Hw Hr Hne).
      rewrite (IH _ Hnl2 Hend). rewrite strip_idem.
      change (omap id (Some (strip r) :: yields))
        with (strip r :: omap id yields).
      by rewrite <- app_assoc.
    + rewrite Hu, Hg, Hs.
      destruct (strip l); [done|]. cbn [truthy negb orb]. by apply IH.
    + rewrite Hu. by apply IH.
Qed.

Lemma length_omap_id_all {A} (ys : list (option A)) :
  Forall is_Some ys -> length (omap id ys) = length ys.
Proof.
  induction 1 as [|y ys [v ->] _ IH]; [done|].
  change (omap id (Some v :: ys)) with (v :: omap id ys).
  cbn [length]. by rewrite IH.
Qed.

(** C3, as the code has it, for the report in Russian: the header is a
    line that starts with "Профили пользователей", an entry has the label
    "Все профили пользователей", and the section ends at a blank line, at
    a line that starts with "Профили групповой политики", or with the
    text.  When the lines before the section hold no header, such a
    section gives exactly the names of its entries, trimmed and in order,
    and lines outside the section give nothing; a text without the header
    gives the empty list. *)
Theorem parse_profile_list_section (output : list N)
    (pre tail : list (list N)) :
  split_nl output = pre ++ tail ->
  Forall (fun l => startswith LBL_USER_PROFILES (strip l) = false) pre ->
  (tail = [] -> _parse_profile_list output = [])
  /\ (forall header body yields rest,
        tail = header :: body ++ rest ->
        startswith LBL_USER_PROFILES (strip header) = true ->
        Forall2 section_line body yields ->
        ends_section rest ->
        _parse_profile_list output = omap id yields
        /\ (Forall is_Some yields ->
            length (_parse_profile_list output) = length body)).
Proof.
  intros Hs Hpre. unfold _parse_profile_list. rewrite Hs.
  rewrite (parse_list_loop_before _ _ _ Hpre). split.
  - intros ->. reflexivity.
  - intros header body yields rest -> Hh Hb Hend.
    assert (Hnl : Forall (Forall (fun c => c <> NL)) body).
    { pose proof (split_nl_no_nl output) as H. rewrite Hs in H.
      apply Forall_app in H as [_ H]. inversion H as [|? ? _ H2]; subst.
      by apply Forall_app in H2 as [H2 _]. }
    rewrite parse_list_loop_cons, Hh.
    rewrite (parse_list_loop_section body yields rest [] Hb Hnl Hend).
    split; [done|]. intros Hall. change ([] ++ omap id yields) with (omap id yields).
    rewrite (Forall2_length _ _ _ Hb). by apply length_omap_id_all.
Qed.

Lemma parse_profile_list_section_witness :
  _parse_profile_list OUT_LIST_EXAMPLE = [TXT_MY_HOME_NET; TXT_HOME].
Proof.
  destruct (parse_profile_list_section OUT_LIST_EXAMPLE LIST_PRE
              (LIST_HEADER
                 :: [LIST_RULE; list_entry TXT_MY_HOME_NET; list_entry TXT_HOME]
                 ++ LIST_REST)) as [_ H].
  - vm_compute. reflexivity.
  - vm_compute. repeat constructor.
  - destruct (H LIST_HEADER
                [LIST_RULE; list_entry TXT_MY_HOME_NET; list_entry TXT_HOME]
                [None; Some TXT_MY_HOME_NET; Some TXT_HOME] LIST_REST eq_refl)
      as [E _].
    + vm_compute. reflexivity.
    + constructor; [|constructor; [|constructor; [|constructor]]].
      * apply other_line; [vm_compute; discriminate | vm_compute; reflexivity ..].
      * apply (entry_line LIST_INDENT LIST_GAP (SPACE :: TXT_MY_HOME_NET)).
        -- repeat constructor.
        -- repeat constructor.
        -- vm_compute. discriminate.
      * apply (entry_line LIST_INDENT LIST_GAP (SPACE :: TXT_HOME)).
        -- repeat constructor.
        -- repeat constructor.
        -- vm_compute. discriminate.
    + left. vm_compute. reflexivity.
    + exact E.
Defined.

(** C3, as stated, fails: the claim names no language, and the report of
    the tool in English has a well-formed user-profiles section with two
    entries of which the parser, which looks for the Russian labels only,
    returns none. *)
Lemma english_report_lists_nothing :
  ~ spec_lists_section LBL_USER_PROFILES_EN LBL_GROUP_PROFILES_EN
      LBL_ALL_USER_PROFILE_EN.
Proof.
  intros H.
  specialize (H OUT_LIST_ENGLISH [TXT_MY_HOME_NET; TXT_HOME]).
  assert (Hp : _parse_profile_list OUT_LIST_ENGLISH = [TXT_MY_HOME_NET; TXT_HOME]).
  { apply H.
    exists (firstn 6 LIST_LINES_EN), (nth 6 LIST_LINES_EN []),
      [LIST_RULE_EN; list_entry_en TXT_MY_HOME_NET; list_entry_en TXT_HOME],
      [None; Some TXT_MY_HOME_NET; Some TXT_HOME],
      (skipn 10 LIST_LINES_EN).
    split; [vm_compute; reflexivity|].
    split; [vm_compute; repeat constructor|].
    split; [vm_compute; reflexivity|].
    split; [|split; [left; vm_compute; reflexivity | reflexivity]].
    constructor; [|constructor; [|constructor; [|constructor]]].
    - apply spec_other_line; [vm_compute; discriminate | vm_compute; reflexivity ..].
    - apply (spec_entry_line _ _ _ LIST_INDENT LIST_GAP (SPACE :: TXT_MY_HOME_NET)).
      + repeat constructor.
      + repeat constructor.
      + vm_compute. discriminate.
    - apply (spec_entry_line _ _ _ LIST_INDENT LIST_GAP (SPACE :: TXT_HOME)).
      + repeat constructor.
      + repeat constructor.
      + vm_compute. discriminate. }
  vm_compute in Hp. discriminate Hp.
Qed.

(** ** JSON: the decoder reads back what the encoder writes *)

Module JsonFacts.
Import Json.

Ltac cases_below c :=
  let p := fresh "p" in
  destruct c as [|p]; [|repeat (destruct p as [p|p|]; try lia)].

Lemma unhex_hex_digit d : d < 16 -> unhex (hex_digit d) = Some d.
Proof. intros H. cases_below d; reflexivity. Qed.

(** The scanner reads the replacement of a character back as the
    character. *)
Lemma scan_escape_char fuel c rest acc :
  scan_string (S fuel) (escape_char c ++ rest) acc
  = scan_string fuel rest (acc ++ [c]).
Proof.
  unfold escape_char.
  destruct (c =? QUOTE) eqn:E1; [apply N.eqb_eq in E1 as ->; reflexivity|].
  destruct (c =? BACKSLASH) eqn:E2; [apply N.eqb_eq in E2 as ->; reflexivity|].
  destruct (c =? 10) eqn:E3; [apply N.eqb_eq in E3 as ->; reflexivity|].
  destruct (c =? 13) eqn:E4; [apply N.eqb_eq in E4 as ->; reflexivity|].
  destruct (c =? 9) eqn:E5; [apply N.eqb_eq in E5 as ->; reflexivity|].
  destruct (c =? 8) eqn:E6; [apply N.eqb_eq in E6 as ->; reflexivity|].
  destruct (c =? 12) eqn:E7; [apply N.eqb_eq in E7 as ->; reflexivity|].
  destruct (c <? 32) eqn:E8.
  - apply N.ltb_lt in E8. cases_below c; reflexivity.
  - change ([c] ++ rest) with (c :: rest). cbn [scan_string].
    by rewrite E1, E2, E8.
Qed.

Lemma scan_string_encoded s : forall fuel rest acc,
  (length s < fuel)%nat ->
  scan_string fuel (concat (List.map escape_char s) ++ QUOTE :: rest) acc
  = Some (acc ++ s, rest).
Proof.
  induction s as [|c s IH]; intros fuel rest acc Hf.
  - destruct fuel; [simpl in Hf; lia|]. by rewrite app_nil_r.
  - destruct fuel; [simpl in Hf; lia|].
    cbn [List.map concat]. rewrite <- app_assoc, scan_escape_char.
    rewrite IH by (simpl in Hf; lia). by rewrite <- app_assoc.
Qed.

Lemma length_escape_char c : (1 <= length (escape_char c))%nat.
Proof.
  unfold escape_char.
  repeat match goal with |- context [if ?b then _ else _] => destruct b end;
    simpl; lia.
Qed.

Lemma length_concat_escape s :
  (length s <= length (concat (List.map escape_char s)))%nat.
Proof.
  induction s as [|c s IH]; [done|]. cbn [List.map concat length].
  rewrite length_app. pose proof (length_escape_char c). lia.
Qed.

(** A string literal reads back as the string. *)
Lemma parse_string_encoded s rest :
  parse_string (concat (List.map escape_char s) ++ QUOTE :: rest)
  = Some (s, rest).
Proof.
  unfold parse_string. rewrite scan_string_encoded; [done|].
  rewrite length_app. pose proof (length_concat_escape s). simpl. lia.
Qed.


(** *** Numbers *)

Lemma scan_digits_uint u rest :
  ends_number rest -> scan_digits (uint_digits u ++ rest) = (u, rest).
Proof.
  intros Hr. induction u as [|u IH|u IH|u IH|u IH|u IH|u IH|u IH|u IH|u IH|u IH];
    [|cbn [uint_digits app scan_digits]; change (is_digit _) with true;
      cbv iota; rewrite IH; reflexivity ..].
  destruct rest as [|c r]; [done|]. destruct Hr as [Hd _].
  cbn [uint_digits app scan_digits]. by rewrite Hd.
Qed.

Lemma to_uint_no_leading_zero p u : Pos.to_uint p <> Decimal.D0 u.
Proof.
  intros E.
  pose proof (DecimalN.Unsigned.to_of (Pos.to_uint p)) as H.
  change (Pos.to_uint p) with (N.to_uint (N.pos p)) in H at 1.
  rewrite DecimalN.Unsigned.of_to in H.
  change (N.to_uint (N.pos p)) with (Pos.to_uint p) in H.
  rewrite E in H. unfold Decimal.unorm in H.
  destruct (Decimal.nzhead (Decimal.D0 u)) eqn:Enz;
    try discriminate H.
  - injection H as H'. subst u. by apply (DecimalPos.Unsigned.to_uint_nonzero p).
  - by apply (DecimalFacts.nzhead_nonzero (Decimal.D0 u) u0).
Qed.

Lemma is_digit_ends_number c r :
  ends_number (c :: r) -> is_digit c || (c =? 46) || (c =? 101) || (c =? 69) = false.
Proof.
  intros (Hd & H1 & H2 & H3). rewrite Hd.
  apply N.eqb_neq in H1, H2, H3. by rewrite H1, H2, H3.
Qed.

Lemma parse_nat_cons c r :
  c <> 48 -> is_digit c = true ->
  parse_nat (c :: r)
  = let '(u, r') := scan_digits (c :: r) in
    match r' with
    | d :: _ => if (d =? 46) || (d =? 101) || (d =? 69) then None
                else Some (N.of_uint u, r')
    | [] => Some (N.of_uint u, r')
    end.
Proof.
  intros H48 Hd. unfold parse_nat. apply N.eqb_neq in H48.
  by rewrite H48, Hd.
Qed.

Lemma parse_nat_digits n rest :
  ends_number rest ->
  parse_nat (uint_digits (N.to_uint n) ++ rest) = Some (n, rest).
Proof.
  intros Hr. destruct n as [|p].
  - change (uint_digits (N.to_uint 0) ++ rest) with (48 :: rest).
    cbn [parse_nat]. change (48 =? 48) with true. cbv iota.
    destruct rest as [|d r]; [done|]. by rewrite (is_digit_ends_number _ _ Hr).
  - change (N.to_uint (N.pos p)) with (Pos.to_uint p).
    pose proof (scan_digits_uint (Pos.to_uint p) rest Hr) as Hs.
    pose proof (DecimalN.Unsigned.of_to (N.pos p)) as Hof.
    change (N.to_uint (N.pos p)) with (Pos.to_uint p) in Hof.
    pose proof (to_uint_no_leading_zero p) as Hz.
    pose proof (DecimalPos.Unsigned.to_uint_nonnil p) as Hn.
    destruct (Pos.to_uint p) as [|u|u|u|u|u|u|u|u|u|u];
      [done|by destruct (Hz u)|..];
      cbn [uint_digits app] in *;
      rewrite parse_nat_cons by (reflexivity || discriminate);
      rewrite Hs; rewrite Hof;
      (destruct rest as [|d r]; [done|]);
      destruct Hr as (_ & H1 & H2 & H3);
      apply N.eqb_neq in H1, H2, H3; by rewrite H1, H2, H3.
Qed.


(** *** Values *)

Lemma json_nested_ind (P : json -> Prop) :
  P JNull -> (forall b, P (JBool b)) -> (forall z, P (JInt z)) ->
  (forall s, P (JStr s)) ->
  (forall items, Forall P items -> P (JArr items)) ->
  (forall members, Forall (fun kv => P (snd kv)) members -> P (JObj members)) ->
  forall v, P v.
Proof.
  intros Hn Hb Hi Hs Ha Ho. fix IH 1. intros [|b|z|s|items|members].
  - exact Hn.
  - apply Hb.
  - apply Hi.
  - apply Hs.
  - apply Ha. induction items as [|x items IHl]; constructor; [apply IH|exact IHl].
  - apply Ho. induction members as [|[k x] members IHl]; constructor;
      [apply IH|exact IHl].
Qed.

Lemma distinct_keys_arr items :
  distinct_keys (JArr items) <-> Forall distinct_keys items.
Proof.
  cbn [distinct_keys]. induction items as [|x items IH].
  - split; [constructor|done].
  - rewrite Forall_cons, <- IH. reflexivity.
Qed.

Lemma distinct_keys_obj members :
  distinct_keys (JObj members)
  <-> NoDup (List.map fst members)
      /\ Forall (fun kv => distinct_keys (snd kv)) members.
Proof.
  cbn [distinct_keys]. apply and_iff_compat_l.
  induction members as [|x members IH].
  - split; [constructor|done].
  - rewrite Forall_cons, <- IH. reflexivity.
Qed.

Ltac by_bits c :=
  destruct c as [|?p];
  [|repeat match goal with
           | p : positive |- _ => destruct p as [p|p|]; try reflexivity
           end];
  try reflexivity.

Lemma parse_value_string f r :
  parse_value (S f) (34 :: r)
  = match parse_string r with
    | Some (str, r') => Some (JStr str, r')
    | None => None
    end.
Proof. reflexivity. Qed.

Lemma parse_value_array f r :
  parse_value (S f) (91 :: r)
  = match skip_ws r with
    | [] => match parse_items f [] with
            | Some (vs, r'') => Some (JArr vs, r'')
            | None => None
            end
    | c :: r' =>
      if c =? 93 then Some (JArr [], r')
      else match parse_items f (c :: r') with
           | Some (vs, r'') => Some (JArr vs, r'')
           | None => None
           end
    end.
Proof.
  transitivity (match skip_ws r with
                | 93 :: r' => Some (JArr [], r')
                | r' => match parse_items f r' with
                        | Some (vs, r'') => Some (JArr vs, r'')
                        | None => None
                        end
                end); [reflexivity|].
  destruct (skip_ws r) as [|c r']; [reflexivity|]. by_bits c.
Qed.

Lemma parse_value_object f r :
  parse_value (S f) (123 :: r)
  = match skip_ws r with
    | [] => match parse_members f [] [] with
            | Some (d, r'') => Some (JObj d, r'')
            | None => None
            end
    | c :: r' =>
      if c =? 125 then Some (JObj [], r')
      else match parse_members f (c :: r') [] with
           | Some (d, r'') => Some (JObj d, r'')
           | None => None
           end
    end.
Proof.
  transitivity (match skip_ws r with
                | 125 :: r' => Some (JObj [], r')
                | r' => match parse_members f r' [] with
                        | Some (d, r'') => Some (JObj d, r'')
                        | None => None
                        end
                end); [reflexivity|].
  destruct (skip_ws r) as [|c r']; [reflexivity|]. by_bits c.
Qed.

Lemma parse_value_minus f r :
  parse_value (S f) (45 :: r)
  = match parse_nat r with
    | Some (n, r') => Some (JInt (- Z.of_N n)%Z, r')
    | None => None
    end.
Proof. reflexivity. Qed.

Lemma is_digit_cases c :
  is_digit c = true ->
  c = 48 \/ c = 49 \/ c = 50 \/ c = 51 \/ c = 52 \/ c = 53 \/ c = 54
  \/ c = 55 \/ c = 56 \/ c = 57.
Proof.
  unfold is_digit. rewrite andb_true_iff, !N.leb_le. lia.
Qed.

Lemma parse_value_digit f c r :
  is_digit c = true ->
  parse_value (S f) (c :: r)
  = match parse_nat (c :: r) with
    | Some (n, r') => Some (JInt (Z.of_N n), r')
    | None => None
    end.
Proof.
  intros H. apply is_digit_cases in H.
  repeat (destruct H as [->|H]; [reflexivity|]). by subst.
Qed.

Lemma parse_items_step f s :
  parse_items (S f) s
  = match parse_value f s with
    | None => None
    | Some (v, r) =>
      match skip_ws r with
      | [] => None
      | c :: r' =>
        if c =? 44 then
          match parse_items f (skip_ws r') with
          | Some (vs, r'') => Some (v :: vs, r'')
          | None => None
          end
        else if c =? 93 then Some ([v], r')
        else None
      end
    end.
Proof.
  transitivity (match parse_value f s with
                | None => None
                | Some (v, r) =>
                  match skip_ws r with
                  | 44 :: r' =>
                    match parse_items f (skip_ws r') with
                    | Some (vs, r'') => Some (v :: vs, r'')
                    | None => None
                    end
                  | 93 :: r' => Some ([v], r')
                  | _ => None
                  end
                end); [reflexivity|].
  destruct (parse_value f s) as [[v r]|]; [|reflexivity].
  destruct (skip_ws r) as [|c r']; [reflexivity|]. by_bits c.
Qed.

Lemma parse_members_step f r d :
  parse_members (S f) (34 :: r) d
  = match parse_string r with
    | None => None
    | Some (k, r1) =>
      match skip_ws r1 with
      | [] => None
      | c :: r2 =>
        if c =? 58 then
          match parse_value f (skip_ws r2) with
          | None => None
          | Some (v, r3) =>
            match skip_ws r3 with
            | [] => None
            | c' :: r4 =>
              if c' =? 44 then parse_members f (skip_ws r4) (dict_set k v d)
              else if c' =? 125 then Some (dict_set k v d, r4)
              else None
            end
          end
        else None
      end
    end.
Proof.
  transitivity (match parse_string r with
                | None => None
                | Some (k, r1) =>
                  match skip_ws r1 with
                  | 58 :: r2 =>
                    match parse_value f (skip_ws r2) with
                    | None => None
                    | Some (v, r3) =>
                      let d' := dict_set k v d in
                      match skip_ws r3 with
                      | 44 :: r4 => parse_members f (skip_ws r4) d'
                      | 125 :: r4 => Some (d', r4)
                      | _ => None
                      end
                    end
                  | _ => None
                  end
                end); [reflexivity|].
  destruct (parse_string r) as [[k r1]|]; [|reflexivity].
  destruct (skip_ws r1) as [|c r2]; [reflexivity|]. by_bits c.
  destruct (parse_value f (skip_ws r2)) as [[v r3]|]; [|reflexivity].
  cbv zeta.
  destruct (skip_ws r3) as [|c' r4]; [reflexivity|]. by_bits c'.
Qed.


Lemma skip_ws_nonws c r : is_ws c = false -> skip_ws (c :: r) = c :: r.
Proof. intros H. cbn [skip_ws]. by rewrite H. Qed.

Lemma skip_ws_spaces n c r :
  is_ws c = false -> skip_ws (repeat SPACE n ++ c :: r) = c :: r.
Proof.
  intros H. induction n as [|n IH]; [by apply skip_ws_nonws|exact IH].
Qed.

Lemma skip_ws_indent n c r :
  is_ws c = false -> skip_ws (newline_indent n ++ c :: r) = c :: r.
Proof. intros H. exact (skip_ws_spaces (2 * n) c r H). Qed.

Lemma uint_digits_head u :
  u <> Decimal.Nil ->
  exists c r, uint_digits u = c :: r /\ is_digit c = true.
Proof. destruct u; [done|..]; intros _; eexists _, _; by split. Qed.

Lemma to_uint_head n :
  exists c r, uint_digits (N.to_uint n) = c :: r /\ is_digit c = true.
Proof.
  apply uint_digits_head. destruct n as [|p]; [done|].
  apply DecimalPos.Unsigned.to_uint_nonnil.
Qed.

Lemma is_digit_starts_value c : is_digit c = true -> starts_value c.
Proof.
  intros H. apply is_digit_cases in H.
  repeat (destruct H as [->|H]; [by repeat split|]). subst. by repeat split.
Qed.

Lemma encode_head level v :
  exists c r, encode level v = c :: r /\ starts_value c.
Proof.
  destruct v as [|[|]|z|s|[|x items]|[|kv members]];
    try (eexists _, _; split; [reflexivity|by repeat split]).
  cbn [encode]. unfold int_str. destruct z as [|p|p].
  - eexists _, _; split; [reflexivity|by repeat split].
  - destruct (to_uint_head (Z.to_N (Z.pos p))) as (c & r & -> & Hd).
    eexists _, _; split; [reflexivity|by apply is_digit_starts_value].
  - eexists _, _; split; [reflexivity|by repeat split].
Qed.

Lemma join_cons2 sep (p q : list N) ps :
  join sep (p :: q :: ps) = p ++ sep ++ join sep (q :: ps).
Proof. reflexivity. Qed.

Lemma join_map_head {A} sep (f : A -> list N) xs :
  xs <> [] ->
  (forall x, exists c r, f x = c :: r /\ starts_value c) ->
  exists c r, join sep (List.map f xs) = c :: r /\ starts_value c.
Proof.
  intros Hne Hf. destruct xs as [|x xs]; [done|].
  destruct (Hf x) as (c & r & E & Hc). destruct xs as [|y ys].
  - exists c, r. by split.
  - cbn [List.map]. rewrite join_cons2, E. eexists _, _. by split.
Qed.

(** The text of an integer reads back as the integer. *)
Lemma parse_value_int z fuel rest :
  ends_number rest ->
  parse_value (S fuel) (int_str z ++ rest) = Some (JInt z, rest).
Proof.
  intros Hr. unfold int_str. destruct z as [|p|p].
  - change (uint_digits (N.to_uint (Z.to_N 0)) ++ rest) with (48 :: rest).
    rewrite (parse_value_digit fuel 48) by reflexivity.
    change (48 :: rest) with (uint_digits (N.to_uint 0) ++ rest).
    by rewrite (parse_nat_digits 0 rest Hr).
  - destruct (to_uint_head (Z.to_N (Z.pos p))) as (c & r & E & Hd).
    pose proof (parse_nat_digits (Z.to_N (Z.pos p)) rest Hr) as Hp.
    rewrite E in Hp |- *. cbn [app] in Hp |- *.
    by rewrite (parse_value_digit fuel c _ Hd), Hp.
  - cbn [app]. rewrite parse_value_minus.
    by rewrite (parse_nat_digits (N.pos p) rest Hr).
Qed.

Lemma ends_number_sep r : ends_number (COMMA :: r).
Proof. by repeat split. Qed.

Lemma ends_number_indent n r : ends_number (newline_indent n ++ r).
Proof. by repeat split. Qed.

Lemma parse_items_encoded level items :
  Forall reads_back items -> Forall distinct_keys items -> items <> [] ->
  forall fuel rest,
    (length (join (ITEM_SEPARATOR ++ newline_indent (S level))
                  (List.map (encode (S level)) items)) < fuel)%nat ->
    parse_items fuel
      (join (ITEM_SEPARATOR ++ newline_indent (S level))
            (List.map (encode (S level)) items)
       ++ newline_indent level ++ 93 :: rest)
    = Some (items, rest).
Proof.
  induction 1 as [|x items Hx Hitems IH]; [done|].
  intros Hd _ fuel rest Hf. apply Forall_cons in Hd as [Hdx Hd].
  destruct fuel as [|fuel]; [lia|]. rewrite parse_items_step.
  destruct items as [|y ys].
  - cbn [List.map join] in *.
    rewrite (Hx (S level) fuel _ Hdx (ends_number_indent _ _)) by lia.
    by rewrite skip_ws_indent.
  - cbn [List.map] in *. rewrite join_cons2 in *.
    rewrite !length_app in Hf. change (length ITEM_SEPARATOR) with 1%nat in Hf.
    rewrite <- !app_assoc.
    change (ITEM_SEPARATOR ++ ?r) with (COMMA :: r).
    rewrite (Hx (S level) fuel _ Hdx (ends_number_sep _)) by lia.
    rewrite skip_ws_nonws by done. change (COMMA =? 44) with true. cbv iota.
    destruct (join_map_head (ITEM_SEPARATOR ++ newline_indent (S level))
                (encode (S level)) (y :: ys) ltac:(done)
                (encode_head (S level))) as (c & r & E & Hc & _).
    cbn [List.map] in E.
    pose proof (IH Hd ltac:(done) fuel rest) as IH'.
    cbn [List.map] in IH'. rewrite E in IH' |- *.
    cbn [app] in IH' |- *. rewrite skip_ws_indent by done.
    rewrite IH'; [done|]. rewrite <- E. lia.
Qed.


Lemma dict_set_new k v d :
  k ∉ List.map fst d -> dict_set k v d = d ++ [(k, v)].
Proof.
  induction d as [|[k' v'] d IH]; intros Hk; [done|].
  cbn [dict_set List.map fst] in *. apply not_elem_of_cons in Hk as [Hne Hk].
  rewrite bool_decide_eq_false_2 by done. by rewrite IH.
Qed.

Lemma encode_member_text level k v t :
  encode_member level (k, v) ++ t
  = 34 :: (concat (List.map escape_char k)
           ++ QUOTE :: COLON :: SPACE :: (encode level v ++ t)).
Proof.
  unfold encode_member, encode_string, KEY_SEPARATOR. cbn [fst snd app].
  by rewrite <- !app_assoc.
Qed.

Lemma encode_member_head level kv :
  exists c r, encode_member level kv = c :: r /\ starts_value c.
Proof. eexists _, _. split; [reflexivity|by repeat split]. Qed.

Lemma length_encode_member level kv :
  (length (encode level (snd kv)) < length (encode_member level kv))%nat.
Proof.
  unfold encode_member, encode_string. rewrite !length_app. simpl. lia.
Qed.

Lemma parse_members_encoded level members :
  Forall (fun kv => reads_back (snd kv)) members ->
  Forall (fun kv => distinct_keys (snd kv)) members ->
  members <> [] ->
  forall fuel rest d,
    NoDup (List.map fst d ++ List.map fst members) ->
    (length (join (ITEM_SEPARATOR ++ newline_indent (S level))
                  (List.map (encode_member (S level)) members)) < fuel)%nat ->
    parse_members fuel
      (join (ITEM_SEPARATOR ++ newline_indent (S level))
            (List.map (encode_member (S level)) members)
       ++ newline_indent level ++ 125 :: rest) d
    = Some (d ++ members, rest).
Proof.
  induction 1 as [|[k x] members Hx Hmembers IH]; [done|].
  intros Hd _ fuel rest d Hnd Hf. apply Forall_cons in Hd as [Hdx Hd].
  cbn [fst snd] in Hx, Hdx.
  assert (Hk : k ∉ List.map fst d).
  { apply NoDup_app in Hnd as (_ & Hnd & _). intros Hin.
    apply (Hnd k Hin). cbn [List.map fst]. apply list_elem_of_here. }
  assert (Hnd' : NoDup (List.map fst (d ++ [(k, x)]) ++ List.map fst members)).
  { rewrite map_app, <- app_assoc. exact Hnd. }
  pose proof (length_encode_member (S level) (k, x)) as Hlen.
  cbn [snd] in Hlen.
  destruct fuel as [|fuel]; [lia|].
  destruct members as [|y ys].
  - cbn [List.map join] in *. rewrite encode_member_text.
    rewrite parse_members_step, parse_string_encoded.
    rewrite skip_ws_nonws by done. change (COLON =? 58) with true. cbv iota.
    destruct (encode_head (S level) x) as (c & r & E & Hc & _).
    rewrite E. cbn [app]. change (skip_ws (SPACE :: ?t)) with (skip_ws t).
    rewrite skip_ws_nonws by done.
    pose proof (Hx (S level) fuel (newline_indent level ++ 125 :: rest) Hdx
                  (ends_number_indent _ _)) as Hp.
    rewrite E in Hp, Hlen. cbn [app] in Hp. rewrite Hp by lia.
    rewrite skip_ws_indent by done.
    change (125 =? 44) with false. change (125 =? 125) with true. cbv iota.
    by rewrite dict_set_new.
  - cbn [List.map] in *. rewrite join_cons2 in *.
    rewrite !length_app in Hf. change (length ITEM_SEPARATOR) with 1%nat in Hf.
    rewrite <- !app_assoc. change (ITEM_SEPARATOR ++ ?r) with (COMMA :: r).
    rewrite encode_member_text.
    rewrite parse_members_step, parse_string_encoded.
    rewrite skip_ws_nonws by done. change (COLON =? 58) with true. cbv iota.
    destruct (encode_head (S level) x) as (c & r & E & Hc & _).
    rewrite E. cbn [app]. change (skip_ws (SPACE :: ?t)) with (skip_ws t).
    rewrite skip_ws_nonws by done.
    match goal with
    | |- context [parse_value fuel (c :: r ++ ?t)] =>
      pose proof (Hx (S level) fuel t Hdx (ends_number_sep _)) as Hp
    end.
    rewrite E in Hp, Hlen. cbn [app] in Hp. rewrite Hp by lia.
    rewrite skip_ws_nonws by done. change (COMMA =? 44) with true. cbv iota.
    destruct (join_map_head (ITEM_SEPARATOR ++ newline_indent (S level))
                (encode_member (S level)) (y :: ys) ltac:(done)
                (encode_member_head (S level))) as (c' & r' & E' & Hc' & _).
    cbn [List.map] in E'. rewrite dict_set_new by done.
    pose proof (IH Hd ltac:(done) fuel rest (d ++ [(k, x)]) Hnd') as IH'.
    cbn [List.map] in IH'. rewrite E' in IH' |- *.
    cbn [app] in IH' |- *. rewrite skip_ws_indent by done.
    rewrite IH'; [by rewrite <- app_assoc|]. rewrite <- E'. lia.
Qed.

(** Every value with distinct keys reads back from its text. *)
Lemma parse_value_encoded v : reads_back v.
Proof.
  induction v as [|b|z|s|items IH|members IH] using json_nested_ind;
    intros level fuel rest Hd Hr Hf;
    match type of Hf with
    | (length (encode _ ?v) <= _)%nat =>
      let H := fresh in
      assert (H : (1 <= length (encode level v))%nat)
        by (destruct (encode_head level v) as (? & ? & -> & _); simpl; lia);
      destruct fuel as [|fuel]; [lia|]; clear H
    end.
  - reflexivity.
  - destruct b; reflexivity.
  - by apply parse_value_int.
  - cbn [encode]. unfold encode_string. cbn [app]. rewrite <- app_assoc.
    rewrite parse_value_string. cbn [app]. by rewrite parse_string_encoded.
  - apply distinct_keys_arr in Hd. destruct items as [|x items]; [reflexivity|].
    revert Hf. cbn [encode].
    set (txt := join _ _). intros Hf.
    rewrite !length_app in Hf. cbn [length] in Hf.
    rewrite <- !app_assoc. cbn [app]. rewrite parse_value_array.
    destruct (join_map_head (ITEM_SEPARATOR ++ newline_indent (S level))
                (encode (S level)) (x :: items) ltac:(done)
                (encode_head (S level))) as (c & r & E & Hc & Hc93 & _).
    fold txt in E.
    pose proof (parse_items_encoded level (x :: items) IH Hd ltac:(done)
                  fuel rest) as Hp.
    fold txt in Hp. rewrite E in Hp, Hf |- *. cbn [app] in Hp |- *.
    cbn [length] in Hf.
    rewrite skip_ws_indent by done. apply N.eqb_neq in Hc93. rewrite Hc93.
    rewrite Hp; [done|]. simpl. lia.
  - apply distinct_keys_obj in Hd as [Hnd Hd].
    destruct members as [|kv members]; [reflexivity|].
    revert Hf. cbn [encode].
    change (fun kv0 : list N * json =>
              encode_string kv0.1 ++ KEY_SEPARATOR ++ encode (S level) kv0.2)
      with (encode_member (S level)).
    set (txt := join _ _). intros Hf.
    rewrite !length_app in Hf. cbn [length] in Hf.
    rewrite <- !app_assoc. cbn [app]. rewrite parse_value_object.
    destruct (join_map_head (ITEM_SEPARATOR ++ newline_indent (S level))
                (encode_member (S level)) (kv :: members) ltac:(done)
                (encode_member_head (S level)))
      as (c & r & E & Hc & _ & Hc125 & _).
    fold txt in E.
    pose proof (parse_members_encoded level (kv :: members) IH Hd ltac:(done)
                  fuel rest [] Hnd) as Hp.
    fold txt in Hp. rewrite E in Hp, Hf |- *. cbn [app] in Hp |- *.
    cbn [length] in Hf.
    rewrite skip_ws_indent by done. apply N.eqb_neq in Hc125. rewrite Hc125.
    rewrite Hp; [done|]. simpl. lia.
Qed.

(** [json.loads(json.dumps(v, indent=2, ensure_ascii=False)) == v] *)
Lemma loads_dumps v : distinct_keys v -> loads (dumps v) = Some v.
Proof.
  intros Hd. unfold loads, dumps.
  destruct (encode_head 0 v) as (c & r & E & Hc & _).
  pose proof (parse_value_encoded v 0%nat (S (length (encode 0 v))) [] Hd I
                ltac:(lia)) as Hp.
  rewrite app_nil_r in Hp. rewrite E in Hp |- *.
  rewrite skip_ws_nonws by done. by rewrite Hp.
Qed.

End JsonFacts.

(** ** The JSON export *)

(** The runs of the file operations and of the clock. *)
Lemma now_iso_run env s :
  now_iso env s = (Ret (now_isoformat env (trace s)), logged EvNow s).
Proof. reflexivity. Qed.

Lemma now_formatted_run env s :
  now_formatted env s = (Ret (now_strftime env (trace s)), logged EvNow s).
Proof. reflexivity. Qed.

Lemma fs_open_run env path s :
  fs_open env path s
  = match open_fails env (trace s) path with
    | Some msg => (Raise (IOFailure msg), logged (EvOpen path) s)
    | None =>
      (Ret tt, mkState (heap s) (self_profiles s) (self_is_admin s)
                       (<[path := []]> (files s)) (trace s ++ [EvOpen path]))
    end.
Proof.
  unfold fs_open.
  rewrite (bind_ret get _ s s s eq_refl), (bind_ret _ _ _ _ _ (log_run _ _)).
  by destruct (open_fails env (trace s) path).
Qed.

Lemma fs_write_run env path text s :
  fs_write env path text s
  = match write_fails env (trace s) path text with
    | Some msg =>
      (Raise (IOFailure msg),
       mkState (heap s) (self_profiles s) (self_is_admin s)
               (<[path := take (write_reached env (trace s) path text)
                               (default [] (files s !! path) ++ text)]>
                  (files s))
               (trace s ++ [EvWrite path text]))
    | None =>
      (Ret tt, mkState (heap s) (self_profiles s) (self_is_admin s)
                       (<[path := default [] (files s !! path) ++ text]> (files s))
                       (trace s ++ [EvWrite path text]))
    end.
Proof.
  unfold fs_write.
  rewrite (bind_ret get _ s s s eq_refl), (bind_ret _ _ _ _ _ (log_run _ _)).
  by destruct (write_fails env (trace s) path text).
Qed.

Lemma fs_close_run env path s :
  fs_close env path s
  = match close_fails env (trace s) path with
    | Some msg =>
      (Raise (IOFailure msg),
       mkState (heap s) (self_profiles s) (self_is_admin s)
               (<[path := take (close_reached env (trace s) path)
                               (default [] (files s !! path))]> (files s))
               (trace s ++ [EvClose path]))
    | None => (Ret tt, logged (EvClose path) s)
    end.
Proof.
  unfold fs_close.
  rewrite (bind_ret get _ s s s eq_refl), (bind_ret _ _ _ _ _ (log_run _ _)).
  by destruct (close_fails env (trace s) path).
Qed.

Lemma export_json_body_unhindered env filename ps s :
  json_export_unhindered env filename ps s ->
  exists s',
    export_json_body env filename ps s = (Ret tt, s')
    /\ files s' = <[filename := json_text env ps s]> (files s)
    /\ heap s' = heap s /\ self_profiles s' = self_profiles s.
Proof.
  intros (Ho & Hw & Hc). unfold json_text in *. unfold export_json_body.
  rewrite (bind_ret _ _ _ _ _ (now_iso_run env s)).
  unfold with_open.
  rewrite bind_run, fs_open_run. cbn [logged trace]. rewrite Ho.
  rewrite bind_run, try_except_run. unfold json_dump.
  rewrite fs_write_run. cbn [heap self_profiles self_is_admin files trace].
  rewrite Hw, fs_close_run.
  cbn [heap self_profiles self_is_admin files trace]. rewrite Hc.
  eexists. split; [reflexivity|]. cbn [logged files heap self_profiles].
  split; [|done]. rewrite lookup_insert_eq. cbn [default app].
  by rewrite insert_insert_eq.
Qed.

Lemma distinct_keys_to_dict p : Json.distinct_keys (to_dict p).
Proof.
  apply JsonFacts.distinct_keys_obj. split; [|by repeat constructor].
  apply (bool_decide_unpack _). vm_compute. reflexivity.
Qed.

Lemma distinct_keys_json_data generated ps :
  Json.distinct_keys (json_data generated ps).
Proof.
  apply JsonFacts.distinct_keys_obj. split.
  - apply (bool_decide_unpack _). vm_compute. reflexivity.
  - repeat constructor. cbn [snd]. apply JsonFacts.distinct_keys_arr.
    induction ps as [|p ps IH]; constructor; [apply distinct_keys_to_dict|done].
Qed.

Lemma displays_to_dict p : displays (to_dict p) p.
Proof. by repeat split. Qed.

(** C6: when opening, writing and closing the file succeed, the JSON
    export returns [True], and the document read back from the file holds
    under ['profiles'] an array of as many objects as there are profiles,
    in the same order, each showing the six displayable fields of its
    profile unchanged. *)
Theorem export_to_json_round_trip (env : Env) (filename : list N)
    (profiles : option positive) (s : State) :
  json_export_unhindered env filename (chosen_profiles profiles s) s ->
  exists s' doc items,
    export_to_json env filename profiles s = (Ret true, s')
    /\ read_json filename s' = Some doc
    /\ json_profiles doc = Some items
    /\ length items = length (chosen_profiles profiles s)
    /\ Forall2 displays items (chosen_profiles profiles s).
Proof.
  intros H. set (ps := chosen_profiles profiles s) in *.
  destruct (export_json_body_unhindered env filename ps s H)
    as (s' & Hrun & Hfiles & _).
  exists s', (json_data (now_isoformat env (trace s)) ps),
    (List.map to_dict ps).
  split; [|split; [|split; [|split]]].
  - pose proof (export_with_run env JSON filename profiles s) as E.
    cbn [export_with export_body] in E. fold ps in E. by rewrite Hrun in E.
  - unfold read_json. rewrite Hfiles, lookup_insert_eq.
    apply JsonFacts.loads_dumps, distinct_keys_json_data.
  - reflexivity.
  - apply length_map.
  - clear. induction ps as [|p ps IH]; constructor;
      [apply displays_to_dict|exact IH].
Qed.

Lemma export_to_json_round_trip_witness :
  exists s' doc items,
    export_to_json quiet_env SAMPLE_PATH None (state_with true sample_profiles)
    = (Ret true, s')
    /\ read_json SAMPLE_PATH s' = Some doc
    /\ json_profiles doc = Some items
    /\ length items = 3%nat
    /\ Forall2 displays items sample_profiles.
Proof.
  apply (export_to_json_round_trip quiet_env SAMPLE_PATH None
           (state_with true sample_profiles)).
  repeat split.
Defined.

(** ** Extraction with elevation *)

Lemma _run_command_run env command s :
  _run_command env command s
  = (Ret (command_output (subprocess_run env (trace s) command)),
     ran env command s).
Proof.
  unfold _run_command. rewrite (bind_ret get _ s s s) by reflexivity.
  rewrite (bind_ret _ _ _ _ _ (log_run _ _)).
  rewrite (bind_ret (set_files _) _ _ _ _ eq_refl).
  destruct (subprocess_run env (trace s) command) as [t|rc o e];
    [|cbn [command_output]; destruct (rc =? 0)%Z]; reflexivity.
Qed.

(** The loop of [extract_profiles], started with [self.profiles] holding
    [acc]. *)
Lemma extract_loop_run env names : forall s acc,
  heap s !! self_profiles s = Some acc ->
  for_each names (fun profile_name =>
      details_output ← _run_command env (details_command profile_name);
      let profile := _parse_profile_details details_output profile_name in
      s' ← get;
      append (self_profiles s') profile) s
  = (Ret tt,
     mkState (<[self_profiles s := acc ++ extracted env (trace s) names]> (heap s))
             (self_profiles s) (self_is_admin s)
             (files_after env (trace s) names (files s))
             (trace s ++ List.map (fun n => EvRun (details_command n)) names)).
Proof.
  induction names as [|name names IH]; intros s acc Hacc.
  - cbn [for_each extracted List.map files_after]. rewrite !app_nil_r.
    rewrite insert_id by done. by destruct s.
  - cbn [for_each]. rewrite bind_run, bind_run, _run_command_run.
    cbv zeta. rewrite bind_run. cbn [get]. unfold append at 1, deref.
    cbn [ran heap self_profiles self_is_admin files trace].
    rewrite Hacc. cbn [default].
    rewrite (IH _ (acc ++ [_parse_profile_details
                             (command_output
                                (subprocess_run env (trace s)
                                   (details_command name))) name]))
      by (cbn [heap self_profiles]; apply lookup_insert_eq).
    cbn [heap self_profiles self_is_admin files trace extracted List.map
         files_after].
    by rewrite insert_insert_eq, <- !app_assoc.
Qed.

(** The whole run of [extract_profiles] with elevation. *)
Lemma extract_profiles_run env s :
  self_is_admin s = true ->
  let names := listed_names env s in
  let l := fresh (dom (heap s)) in
  let t := trace s ++ [EvRun CMD_SHOW_PROFILES; EvPrintNames names] in
  extract_profiles env s
  = (Ret l,
     mkState (<[l := extracted env t names]> (heap s)) l true
             (files_after env t names
                (subprocess_files env (trace s) CMD_SHOW_PROFILES (files s)))
             (t ++ List.map (fun n => EvRun (details_command n)) names)).
Proof.
  intros H names l t. unfold extract_profiles.
  rewrite (bind_ret get _ s s s) by reflexivity. rewrite H. cbn [negb].
  rewrite (bind_ret _ _ _ _ _ (_run_command_run env CMD_SHOW_PROFILES s)).
  fold (listed_names env s). fold names.
  rewrite (bind_ret _ _ _ _ _ (log_run _ _)).
  rewrite (bind_ret (alloc []) _ _ _ _ eq_refl).
  rewrite (bind_ret (set_self_profiles _) _ _ _ _ eq_refl).
  cbn [ran heap self_profiles self_is_admin files trace].
  rewrite bind_run, (extract_loop_run env names _ [])
    by (cbn [heap self_profiles]; apply lookup_insert_eq).
  cbn [heap self_profiles self_is_admin files trace app].
  rewrite (bind_ret get _ _ _ _ eq_refl). cbn [self_profiles].
  fold l. rewrite insert_insert_eq, H. subst t. rewrite <- !app_assoc.
  reflexivity.
Qed.

(** The name given to the detail parser is the profile's [ssid], and
    [last_modified] is never filled in. *)
Lemma details_step_ssid pd l :
  ssid (details_step pd l) = ssid pd
  /\ last_modified (details_step pd l) = last_modified pd.
Proof.
  unfold details_step.
  repeat match goal with
         | |- context [if ?b then _ else _] => destruct b
         | |- context [match ?o with Some _ => _ | None => _ end] => destruct o
         end; by split.
Qed.

Lemma fold_details_ssid ls : forall pd,
  ssid (fold_left details_step ls pd) = ssid pd
  /\ last_modified (fold_left details_step ls pd) = last_modified pd.
Proof.
  induction ls as [|l ls IH]; intros pd; [done|]. cbn [fold_left].
  destruct (IH (details_step pd l)) as [-> ->]. apply details_step_ssid.
Qed.

Lemma map_ssid_extracted env names : forall t,
  List.map ssid (extracted env t names) = names.
Proof.
  induction names as [|name names IH]; intros t; [done|].
  cbn [extracted List.map]. rewrite IH. f_equal.
  unfold _parse_profile_details. by rewrite (proj1 (fold_details_ssid _ _)).
Qed.

(** X1: with elevation [extract_profiles] does not raise; the list it
    returns is the one [self.profiles] then refers to, and it holds one
    profile per name of the list output, in the order of the names, each
    with its name as [ssid]. *)
Theorem extract_profiles_one_per_name (env : Env) (s : State) :
  self_is_admin s = true ->
  exists l s',
    extract_profiles env s = (Ret l, s')
    /\ self_profiles s' = l
    /\ List.map ssid (deref l s') = listed_names env s
    /\ length (deref l s') = length (listed_names env s).
Proof.
  intros H. eexists _, _. split; [apply (extract_profiles_run env s H)|].
  cbn [self_profiles]. split; [done|]. unfold deref. cbn [heap].
  rewrite lookup_insert_eq. change (default [] (Some ?x)) with x.
  split; [apply map_ssid_extracted|].
  match goal with
  | |- length ?x = _ => by rewrite <- (length_map ssid x), map_ssid_extracted
  end.
Qed.

Lemma extract_profiles_one_per_name_witness :
  exists l s',
    extract_profiles netsh_env (state_with true sample_profiles) = (Ret l, s')
    /\ self_profiles s' = l
    /\ List.map ssid (deref l s') = [TXT_MY_HOME_NET; TXT_HOME]
    /\ length (deref l s') = 2%nat.
Proof.
  apply (extract_profiles_one_per_name netsh_env
           (state_with true sample_profiles)).
  reflexivity.
Defined.

(** X2: with elevation [extract_profiles] runs the list command once,
    prints the names, and then runs exactly one detail command per name,
    in order, the name put between double quotes; these are all its
    actions on the outside.  It opens, writes and closes no file itself:
    the files afterwards are what the commands left, and a command, run by
    the shell with the name pasted in as it was read, may leave anything. *)
Theorem extract_profiles_commands (env : Env) (s : State) :
  self_is_admin s = true ->
  exists l s',
    extract_profiles env s = (Ret l, s')
    /\ trace s'
       = trace s
         ++ EvRun CMD_SHOW_PROFILES
         :: EvPrintNames (listed_names env s)
         :: List.map (fun name => EvRun (details_command name))
                     (listed_names env s)
    /\ files s'
       = files_after env
           (trace s ++ [EvRun CMD_SHOW_PROFILES;
                        EvPrintNames (listed_names env s)])
           (listed_names env s)
           (subprocess_files env (trace s) CMD_SHOW_PROFILES (files s)).
Proof.
  intros H. eexists _, _. split; [apply (extract_profiles_run env s H)|].
  cbn [trace files]. split; [|done]. by rewrite <- app_assoc.
Qed.

Lemma extract_profiles_commands_witness :
  exists l s',
    extract_profiles netsh_env (state_with true []) = (Ret l, s')
    /\ trace s'
       = [EvRun CMD_SHOW_PROFILES;
          EvPrintNames [TXT_MY_HOME_NET; TXT_HOME];
          EvRun (details_command TXT_MY_HOME_NET);
          EvRun (details_command TXT_HOME)]
    /\ files s' = ∅.
Proof.
  apply (extract_profiles_commands netsh_env (state_with true [])).
  reflexivity.
Defined.

(** X3: [extract_profiles] builds its result in a new list object: the
    list returned did not exist before, and every list object that
    existed (the former [self.profiles], a result of an earlier call that
    a caller still holds) keeps its contents. *)
Theorem extract_profiles_new_list (env : Env) (s : State) :
  self_is_admin s = true ->
  exists l s',
    extract_profiles env s = (Ret l, s')
    /\ heap s !! l = None
    /\ forall l0, is_Some (heap s !! l0) -> deref l0 s' = deref l0 s.
Proof.
  intros H. eexists _, _. split; [apply (extract_profiles_run env s H)|].
  split.
  - apply not_elem_of_dom, is_fresh.
  - intros l0 Hl0. unfold deref. cbn [heap].
    by rewrite lookup_insert_fresh.
Qed.

Lemma extract_profiles_new_list_witness :
  exists l s',
    extract_profiles netsh_env (state_with true sample_profiles) = (Ret l, s')
    /\ l <> 1%positive
    /\ deref 1%positive s' = sample_profiles.
Proof.
  destruct (extract_profiles_new_list netsh_env
              (state_with true sample_profiles) eq_refl)
    as (l & s' & Hrun & Hnew & Hold).
  exists l, s'. split; [exact Hrun|]. split.
  - intros ->. discriminate Hnew.
  - apply (Hold 1%positive). by eexists.
Defined.

(** X4: what [extract_profiles] stores does not depend on what
    [self.profiles] held before: the profiles are replaced, not added to.
    Two machines with the same history give the same profiles whatever
    their stores were. *)
Theorem extract_profiles_replaces (env : Env) (s1 s2 : State) :
  self_is_admin s1 = true -> self_is_admin s2 = true ->
  trace s1 = trace s2 ->
  exists l1 s1' l2 s2',
    extract_profiles env s1 = (Ret l1, s1')
    /\ extract_profiles env s2 = (Ret l2, s2')
    /\ deref l1 s1' = deref l2 s2'.
Proof.
  intros H1 H2 Ht. eexists _, _, _, _.
  split; [apply (extract_profiles_run env s1 H1)|].
  split; [apply (extract_profiles_run env s2 H2)|].
  unfold deref. cbn [heap]. rewrite !lookup_insert_eq.
  unfold listed_names. by rewrite Ht.
Qed.

Lemma extract_profiles_replaces_witness :
  exists l1 s1' l2 s2',
    extract_profiles netsh_env (state_with true sample_profiles) = (Ret l1, s1')
    /\ extract_profiles netsh_env (state_with true []) = (Ret l2, s2')
    /\ deref l1 s1' = deref l2 s2'.
Proof.
  apply (extract_profiles_replaces netsh_env
           (state_with true sample_profiles) (state_with true []));
    reflexivity.
Defined.

(** ** More on the detail parser *)

(** X5: whatever the detail output is, the profile keeps the name it was
    asked for as [ssid], and [last_modified] stays empty. *)
Theorem parse_details_keeps_name (output profile_name : list N) :
  ssid (_parse_profile_details output profile_name) = profile_name
  /\ last_modified (_parse_profile_details output profile_name) = [].
Proof. apply fold_details_ssid. Qed.

(** What [\s*(.+)] captures is a non-empty end of the text. *)
Lemma match_ws_dot_suffix r g :
  Forall (fun c => c <> NL) r -> match_ws_dot r = Some g ->
  g <> [] /\ exists pre, r = pre ++ g.
Proof.
  induction 1 as [|c r Hc Hr IH] in g |- *; [done|]. cbn [match_ws_dot].
  assert (Hd : dot_run (c :: r) = c :: r)
    by (apply dot_run_no_nl; by constructor).
  destruct (isspace c).
  - destruct (match_ws_dot r) as [g'|] eqn:E.
    + intros [= <-]. destruct (IH g' eq_refl) as (Hne & pre & ->).
      split; [done|]. by exists (c :: pre).
    + rewrite (proj2 (N.eqb_neq c NL) Hc), Hd. intros [= <-].
      split; [done|]. by exists [].
  - rewrite Hd. intros [= <-]. split; [done|]. by exists [].
Qed.

Lemma re_search_value_suffix s g :
  Forall (fun c => c <> NL) s -> re_search_value s = Some g ->
  g <> [] /\ exists pre, s = pre ++ g.
Proof.
  induction 1 as [|c s Hc Hs IH] in g |- *; [done|]. cbn [re_search_value].
  assert (Hrec : re_search_value s = Some g ->
                 g <> [] /\ exists pre, c :: s = pre ++ g).
  { intros E. destruct (IH g E) as (Hne & pre & ->).
    split; [done|]. by exists (c :: pre). }
  destruct (c =? COLON); [|exact Hrec].
  destruct (match_ws_dot s) as [g'|] eqn:E; [|exact Hrec].
  intros [= <-]. destruct (match_ws_dot_suffix s g' Hs E) as (Hne & pre & ->).
  split; [done|]. by exists (c :: pre).
Qed.

Lemma rstrip_app_spaces x y : rstrip y = [] -> rstrip (x ++ y) = rstrip x.
Proof.
  intros Hy. induction x as [|c x IH]; [done|].
  cbn [app rstrip]. by rewrite IH.
Qed.

Lemma length_rstrip x : (length (rstrip x) <= length x)%nat.
Proof.
  induction x as [|c x IH]; [done|]. cbn [rstrip].
  destruct (rstrip x); [destruct (isspace c)|]; simpl in *; lia.
Qed.

(** A non-empty end of a trimmed text does not trim to nothing. *)
Lemma strip_suffix_nonempty raw pre g :
  strip raw = pre ++ g -> g <> [] -> strip g <> [].
Proof.
  intros E Hne Hs. apply strip_nil_rstrip in Hs.
  assert (Hr : rstrip (strip raw) = strip raw) by apply rstrip_idem.
  rewrite E, (rstrip_app_spaces _ _ Hs) in Hr.
  pose proof (length_rstrip pre) as Hl. rewrite Hr, length_app in Hl.
  destruct g; [done|]. simpl in Hl. lia.
Qed.

(** On a line of the output, [re.search(r':\s*(.+)', line.strip())] never
    captures a text that trims to nothing. *)
Lemma re_search_value_filled raw g :
  Forall (fun c => c <> NL) raw ->
  re_search_value (strip raw) = Some g -> strip g <> [].
Proof.
  intros Hnl Hg.
  destruct (re_search_value_suffix (strip raw) g) as (Hne & pre & E);
    [by apply Forall_rstrip, Forall_lstrip|done|].
  by apply (strip_suffix_nonempty raw pre g).
Qed.

Lemma details_step_filled pd raw :
  Forall (fun c => c <> NL) raw ->
  fields_filled pd -> fields_filled (details_step pd raw).
Proof.
  intros Hnl (H1 & H2 & H3 & H4 & H5). unfold details_step.
  pose proof (re_search_value_filled raw) as Hg.
  destruct (re_search_value (strip raw)) as [g|];
    [specialize (Hg g Hnl eq_refl)|];
    repeat match goal with
           | |- context [if ?b then _ else _] => destruct b
           end; by repeat split.
Qed.

(** X6: the detail parser never leaves a field empty: authentication,
    encryption, key, key type and profile type each hold their default or a
    non-empty value read from the output.  In particular the key is never
    the empty string, so the parser's own test for an empty key content
    never fires. *)
Theorem parse_details_fields_filled (output profile_name : list N) :
  fields_filled (_parse_profile_details output profile_name).
Proof.
  unfold _parse_profile_details.
  pose proof (split_nl_no_nl output) as Hnl.
  assert (H0 : fields_filled (initial_profile_data profile_name))
    by (by repeat split).
  revert H0. generalize (initial_profile_data profile_name).
  induction Hnl as [|l ls Hl _ IH]; intros pd Hpd; [done|].
  cbn [fold_left]. apply IH. by apply details_step_filled.
Qed.

Lemma details_step_no_label pd l :
  no_label (strip l) = true -> details_step pd l = pd.
Proof.
  unfold no_label, details_step. rewrite !andb_true_iff, !negb_true_iff.
  by intros ((((-> & ->) & ->) & ->) & ->).
Qed.

(** X7: an output none of whose lines holds a label gives the defaults:
    "Unknown" for the four descriptive fields and "Not found" for the key.
    This is what the parser makes of the answer to a failed detail
    command. *)
Theorem parse_details_defaults (output profile_name : list N) :
  Forall (fun l => no_label (strip l) = true) (split_nl output) ->
  _parse_profile_details output profile_name
  = mkWifiProfile profile_name UNKNOWN UNKNOWN NOT_FOUND UNKNOWN UNKNOWN [].
Proof.
  intros H. unfold _parse_profile_details.
  change (mkWifiProfile profile_name UNKNOWN UNKNOWN NOT_FOUND UNKNOWN UNKNOWN [])
    with (initial_profile_data profile_name).
  generalize (initial_profile_data profile_name).
  induction H as [|l ls Hl _ IH]; intros pd; [done|].
  cbn [fold_left]. by rewrite (details_step_no_label pd l Hl).
Qed.

Lemma parse_details_defaults_witness :
  _parse_profile_details OUT_ERROR TXT_HOME
  = mkWifiProfile TXT_HOME UNKNOWN UNKNOWN NOT_FOUND UNKNOWN UNKNOWN [].
Proof.
  apply (parse_details_defaults OUT_ERROR TXT_HOME).
  vm_compute. repeat constructor.
Defined.

Lemma details_step_absent pd l g :
  is_auth_line (strip l) = false -> is_cipher_line (strip l) = false ->
  is_key_content_line (strip l) = true ->
  re_search_value (strip l) = Some g -> strip g = ABSENT ->
  key (details_step pd l) = NO_PASSWORD_SAVED.
Proof.
  intros Ha Hc Hk Hg Hab. unfold details_step.
  by rewrite Ha, Hc, Hk, Hg, Hab.
Qed.

(** X8: when the last key-content line of the output holds none of the
    labels tested before it and its value is "Absent", the key is
    "No password saved". *)
Theorem parse_details_absent_key (output profile_name : list N)
    (pre : list (list N)) (line : list N) (post : list (list N)) :
  split_nl output = pre ++ line :: post ->
  is_key_content_line (strip line) = true ->
  is_auth_line (strip line) = false ->
  is_cipher_line (strip line) = false ->
  line_value line = Some ABSENT ->
  Forall (fun l => is_key_content_line (strip l) = false) post ->
  key (_parse_profile_details output profile_name) = NO_PASSWORD_SAVED.
Proof.
  intros Hs Hk Ha Hc Hv Hpost.
  assert (Hnl : Forall (fun c => c <> NL) line).
  { pose proof (split_nl_no_nl output) as H. rewrite Hs in H.
    apply Forall_app in H as [_ H]. by inversion H. }
  destruct (re_search_value_line line ABSENT Hnl Hv ltac:(discriminate))
    as (g & Hg & Hab).
  unfold _parse_profile_details. rewrite Hs, fold_left_app. cbn [fold_left].
  rewrite (fold_details_key_other _ _ Hpost).
  by apply (details_step_absent _ _ g).
Qed.

Lemma parse_details_absent_key_witness :
  key (_parse_profile_details OUT_SPEC_EXAMPLE TXT_HOME) = NO_PASSWORD_SAVED.
Proof.
  apply (parse_details_absent_key OUT_SPEC_EXAMPLE TXT_HOME
           (firstn 1 (split_nl OUT_SPEC_EXAMPLE))
           (nth 1 (split_nl OUT_SPEC_EXAMPLE) [])
           (skipn 2 (split_nl OUT_SPEC_EXAMPLE))).
  - reflexivity.
  - reflexivity.
  - reflexivity.
  - reflexivity.
  - reflexivity.
  - constructor.
Defined.

Lemma details_step_auth_other pd l :
  is_auth_line (strip l) = false ->
  authentication (details_step pd l) = authentication pd.
Proof.
  intros H. unfold details_step. rewrite H.
  repeat match goal with
         | |- context [if ?b then _ else _] => destruct b
         | |- context [match ?o with Some _ => _ | None => _ end] => destruct o
         end; reflexivity.
Qed.

Lemma fold_details_auth_other ls : forall pd,
  Forall (fun l => is_auth_line (strip l) = false) ls ->
  authentication (fold_left details_step ls pd) = authentication pd.
Proof.
  induction ls as [|l ls IH]; intros pd H; [done|].
  apply Forall_cons in H as [Hl H]. cbn [fold_left].
  by rewrite (IH _ H), details_step_auth_other.
Qed.

Lemma after_colon_None line :
  after_colon line = None -> Forall (fun c => c <> COLON) line.
Proof.
  induction line as [|c line IH]; cbn [after_colon]; [constructor|].
  destruct (N.eqb_spec c COLON) as [->|Hc]; [done|].
  intros H. constructor; [done | by apply IH].
Qed.

(** A line without a value (no colon, or nothing but whitespace after the
    first colon) gives the pattern nothing to capture. *)
Lemma re_search_value_no_value line :
  Forall (fun c => c <> NL) line ->
  line_value line = None \/ line_value line = Some [] ->
  re_search_value (strip line) = None.
Proof.
  intros Hnl [Hv | Hv]; [|by apply re_search_value_line_empty].
  unfold line_value in Hv.
  destruct (after_colon line) as [r|] eqn:Hr; [done|].
  apply after_colon_None in Hr.
  pose proof (re_search_value_skip (strip line) []) as H.
  rewrite app_nil_r in H. apply H. by apply Forall_rstrip, Forall_lstrip.
Qed.

Lemma details_step_auth_no_value pd l :
  Forall (fun c => c <> NL) l ->
  (is_auth_line (strip l) = true ->
   line_value l = None \/ line_value l = Some []) ->
  authentication (details_step pd l) = authentication pd.
Proof.
  intros Hnl H. destruct (is_auth_line (strip l)) eqn:Ha.
  - unfold details_step. by rewrite Ha, (re_search_value_no_value l Hnl (H eq_refl)).
  - by apply details_step_auth_other.
Qed.

Lemma fold_details_auth_no_value ls : forall pd,
  Forall (Forall (fun c => c <> NL)) ls ->
  Forall (fun l => is_auth_line (strip l) = true ->
                   line_value l = None \/ line_value l = Some []) ls ->
  authentication (fold_left details_step ls pd) = authentication pd.
Proof.
  induction ls as [|l ls IH]; intros pd Hnl H; [done|].
  apply Forall_cons in Hnl as [Hl Hnl]. apply Forall_cons in H as [Hv H].
  cbn [fold_left]. by rewrite (IH _ Hnl H), details_step_auth_no_value.
Qed.

(** X9: the authentication test comes first and looks at the whole line:
    the last line that holds "Authentication" (or its Russian form)
    anywhere, the value included, and has a value gives the authentication
    field, whatever other label the line carries.  Later lines with the
    label that have no value (no colon, or only whitespace after it)
    change nothing. *)
Theorem parse_details_last_authentication (output profile_name : list N)
    (pre : list (list N)) (line : list N) (post : list (list N)) (v : list N) :
  split_nl output = pre ++ line :: post ->
  is_auth_line (strip line) = true ->
  line_value line = Some v -> v <> [] ->
  Forall (fun l => is_auth_line (strip l) = true ->
                   line_value l = None \/ line_value l = Some []) post ->
  authentication (_parse_profile_details output profile_name) = v.
Proof.
  intros Hs Ha Hv Hne Hpost.
  pose proof (split_nl_no_nl output) as Hall. rewrite Hs in Hall.
  apply Forall_app in Hall as [_ Hall].
  apply Forall_cons in Hall as [Hnl Hnlpost].
  destruct (re_search_value_line line v Hnl Hv Hne) as (g & Hg & <-).
  unfold _parse_profile_details. rewrite Hs, fold_left_app. cbn [fold_left].
  rewrite (fold_details_auth_no_value _ _ Hnlpost Hpost).
  unfold details_step. by rewrite Ha, Hg.
Qed.

Lemma parse_details_last_authentication_witness :
  authentication (_parse_profile_details OUT_AUTH_THRICE TXT_HOME)
  = TXT_AUTHENTICATION1.
Proof.
  apply (parse_details_last_authentication OUT_AUTH_THRICE TXT_HOME
           (firstn 1 (split_nl OUT_AUTH_THRICE))
           (nth 1 (split_nl OUT_AUTH_THRICE) [])
           (skipn 2 (split_nl OUT_AUTH_THRICE))).
  - reflexivity.
  - reflexivity.
  - reflexivity.
  - discriminate.
  - constructor; [|constructor]. intros _. right. reflexivity.
Defined.

Lemma details_step_encryption_other pd l :
  is_cipher_line (strip l) = false ->
  encryption (details_step pd l) = encryption pd.
Proof.
  intros H. unfold details_step. rewrite H.
  repeat match goal with
         | |- context [if ?b then _ else _] => destruct b
         | |- context [match ?o with Some _ => _ | None => _ end] => destruct o
         end; reflexivity.
Qed.

Lemma fold_details_encryption_other ls : forall pd,
  Forall (fun l => is_cipher_line (strip l) = false) ls ->
  encryption (fold_left details_step ls pd) = encryption pd.
Proof.
  induction ls as [|l ls IH]; intros pd H; [done|].
  apply Forall_cons in H as [Hl H]. cbn [fold_left].
  by rewrite (IH _ H), details_step_encryption_other.
Qed.

Lemma details_step_cipher_keeps_key pd l :
  is_cipher_line (strip l) = true -> key (details_step pd l) = key pd.
Proof.
  intros H. unfold details_step. rewrite H.
  repeat match goal with
         | |- context [if ?b then _ else _] => destruct b
         | |- context [match ?o with Some _ => _ | None => _ end] => destruct o
         end; reflexivity.
Qed.

(** X10: a key-content line whose text also holds "Cipher" (or "Шифр"),
    in the secret for instance, is read as the cipher line: its value goes
    to the encryption field, and when the output has no other key-content
    line the key stays "Not found". *)
Theorem secret_with_cipher_goes_to_encryption (output profile_name : list N)
    (pre : list (list N)) (line : list N) (post : list (list N)) (v : list N) :
  split_nl output = pre ++ line :: post ->
  is_auth_line (strip line) = false ->
  is_cipher_line (strip line) = true ->
  line_value line = Some v -> v <> [] ->
  Forall (fun l => is_key_content_line (strip l) = false) pre ->
  Forall (fun l => is_key_content_line (strip l) = false) post ->
  Forall (fun l => is_cipher_line (strip l) = false) post ->
  encryption (_parse_profile_details output profile_name) = v
  /\ key (_parse_profile_details output profile_name) = NOT_FOUND.
Proof.
  intros Hs Ha Hc Hv Hne Hpre Hpost Hpostc.
  assert (Hnl : Forall (fun c => c <> NL) line).
  { pose proof (split_nl_no_nl output) as H. rewrite Hs in H.
    apply Forall_app in H as [_ H]. by inversion H. }
  destruct (re_search_value_line line v Hnl Hv Hne) as (g & Hg & <-).
  unfold _parse_profile_details. rewrite Hs, fold_left_app. cbn [fold_left].
  split.
  - rewrite (fold_details_encryption_other _ _ Hpostc).
    unfold details_step. by rewrite Ha, Hc, Hg.
  - rewrite (fold_details_key_other _ _ Hpost).
    rewrite (details_step_cipher_keeps_key _ _ Hc).
    by rewrite (fold_details_key_other _ _ Hpre).
Qed.

Lemma secret_with_cipher_goes_to_encryption_witness :
  encryption (_parse_profile_details OUT_KEY_WITH_CIPHER TXT_HOME)
  = TXT_CIPHER123
  /\ key (_parse_profile_details OUT_KEY_WITH_CIPHER TXT_HOME) = NOT_FOUND.
Proof.
  apply (secret_with_cipher_goes_to_encryption OUT_KEY_WITH_CIPHER TXT_HOME
           [] OUT_KEY_WITH_CIPHER []).
  - reflexivity.
  - reflexivity.
  - reflexivity.
  - reflexivity.
  - discriminate.
  - constructor.
  - constructor.
  - constructor.
Defined.

(** ** More on the list parser *)

Lemma strip_prefix_Some p s r : strip_prefix p s = Some r -> s = p ++ r.
Proof.
  revert s. induction p as [|a p IH]; intros s; cbn [strip_prefix].
  - by intros [= ->].
  - destruct s as [|b s]; [done|]. destruct (N.eqb_spec a b) as [->|]; [|done].
    intros H. by rewrite (IH s H).
Qed.

Lemma lstrip_suffix r : exists ws, r = ws ++ lstrip r.
Proof.
  induction r as [|c r [ws IH]]; [by exists []|]. cbn [lstrip].
  destruct (isspace c); [|by exists []].
  exists (c :: ws). cbn [app]. by rewrite <- IH.
Qed.

Lemma Forall_suffix {A} (P : A -> Prop) pre x : Forall P (pre ++ x) -> Forall P x.
Proof. intros H. by apply Forall_app in H as [_ H]. Qed.

Lemma match_label_value_suffix lit s g :
  Forall (fun c => c <> NL) s -> match_label_value lit s = Some g ->
  g <> [] /\ exists pre, s = pre ++ g.
Proof.
  intros Hnl. unfold match_label_value.
  destruct (strip_prefix lit s) as [r|] eqn:Er; [|done].
  apply strip_prefix_Some in Er as ->.
  destruct (lstrip_suffix r) as [ws Ews].
  destruct (lstrip r) as [|c r'] eqn:El; [done|].
  destruct (c =? COLON); [|done]. intros Hm.
  assert (Hr' : Forall (fun c => c <> NL) r').
  { rewrite Ews in Hnl. apply Forall_suffix, Forall_suffix in Hnl.
    by inversion Hnl. }
  destruct (match_ws_dot_suffix r' g Hr' Hm) as (Hne & pre & ->).
  split; [done|]. exists (lit ++ ws ++ c :: pre).
  rewrite Ews. by rewrite <- !app_assoc.
Qed.

Lemma re_search_label_suffix lit s g :
  Forall (fun c => c <> NL) s -> re_search_label lit s = Some g ->
  g <> [] /\ exists pre, s = pre ++ g.
Proof.
  induction s as [|c s IH]; intros Hnl; rewrite re_search_label_unfold.
  - destruct (match_label_value lit []) eqn:E; [|done].
    intros [= <-]. by apply (match_label_value_suffix lit).
  - destruct (match_label_value lit (c :: s)) eqn:E.
    + intros [= <-]. by apply (match_label_value_suffix lit).
    + intros H. inversion Hnl as [|? ? _ Hs]; subst.
      destruct (IH Hs H) as (Hne & pre & ->).
      split; [done|]. by exists (c :: pre).
Qed.

Lemma parse_list_loop_trimmed lines : forall in_section acc,
  Forall (Forall (fun c => c <> NL)) lines ->
  Forall trimmed_name acc ->
  Forall trimmed_name (parse_list_loop lines in_section acc).
Proof.
  induction lines as [|raw rest IH]; intros in_section acc Hnl Hacc; [done|].
  apply Forall_cons in Hnl as [Hraw Hrest]. rewrite parse_list_loop_cons.
  destruct (startswith LBL_USER_PROFILES (strip raw)); [by apply IH|].
  destruct in_section; [|by apply IH].
  destruct (negb (truthy (strip raw))
            || startswith LBL_GROUP_PROFILES (strip raw)); [done|].
  destruct (re_search_label LBL_ALL_USER_PROFILE (strip raw)) as [g|] eqn:E;
    [|by apply IH].
  apply IH; [done|]. apply Forall_app. split; [done|].
  constructor; [|done]. split; [|apply strip_idem].
  destruct (re_search_label_suffix _ _ g
              (Forall_rstrip _ _ (Forall_lstrip _ _ Hraw)) E) as (Hne & pre & Ep).
  by apply (strip_suffix_nonempty raw pre g).
Qed.

(** X11: every name the list parser returns is non-empty and carries no
    whitespace at either end, whatever the output is. *)
Theorem parse_profile_list_trimmed (output : list N) :
  Forall trimmed_name (_parse_profile_list output).
Proof.
  apply parse_list_loop_trimmed; [apply split_nl_no_nl | constructor].
Qed.

(** ** More on the filter engine *)

Lemma List_filter_filter {A} (f g : A -> bool) (l : list A) :
  List.filter g (List.filter f l) = List.filter (fun x => f x && g x) l.
Proof.
  induction l as [|x l IH]; [done|]. cbn [List.filter].
  destruct (f x); cbn [List.filter andb]; [|done]. by rewrite IH.
Qed.

Lemma selected_keeps lower hp sf ps :
  selected lower hp sf ps = List.filter (keeps lower hp sf) ps.
Proof.
  unfold selected, keeps.
  destruct hp as [[|]|], sf as [f|]; try destruct (truthy f);
    rewrite ?List_filter_filter;
    try (apply List_filter_ext_in; intros x; by rewrite ?andb_true_r);
    try (symmetry; by apply List_filter_all).
Qed.

Lemma sublist_List_filter {A} (f : A -> bool) (l : list A) :
  sublist (List.filter f l) l.
Proof.
  induction l as [|x l IH]; [constructor|]. cbn [List.filter].
  destruct (f x); by constructor.
Qed.

(** X12: the two criteria of [filter_profiles] are combined with "and":
    the result holds exactly the stored profiles that pass every criterion
    given, in their stored order (it is a sublist of the stored list), so
    the order in which the criteria are applied does not matter. *)
Theorem filter_profiles_conjunction (lower : list N -> list N)
    (hp : option bool) (sf : option (list N)) (s : State) :
  live s ->
  exists l s',
    filter_profiles lower hp sf s = (Ret l, s')
    /\ deref l s' = List.filter (keeps lower hp sf) (deref (self_profiles s) s)
    /\ sublist (deref l s') (deref (self_profiles s) s).
Proof.
  intros Hl.
  destruct (filter_profiles_spec lower hp sf s Hl) as (l & s' & Hrun & Hd & _).
  exists l, s'. split; [done|]. rewrite Hd, selected_keeps.
  split; [done|]. apply sublist_List_filter.
Qed.

Lemma filter_profiles_conjunction_witness :
  exists l s',
    filter_profiles ascii_lower (Some true) (Some TXT_HOME)
      (state_with true sample_profiles) = (Ret l, s')
    /\ deref l s' = [sample_profile TXT_MY_HOME_NET TXT_SECRET]
    /\ sublist (deref l s') sample_profiles.
Proof.
  destruct (filter_profiles_conjunction ascii_lower (Some true) (Some TXT_HOME)
              (state_with true sample_profiles))
    as (l & s' & H1 & H2 & H3).
  - eexists. vm_compute. reflexivity.
  - exists l, s'. split; [exact H1|]. split; [|exact H3].
    rewrite H2. vm_compute. reflexivity.
Defined.

(** X13: [filter_profiles] never raises and has no effect outside the
    store of list objects: it runs no command, reads no clock, touches no
    file, and leaves [self.profiles] and the elevation flag as they were. *)
Theorem filter_profiles_no_outside_effect (lower : list N -> list N)
    (hp : option bool) (sf : option (list N)) (s : State) :
  live s ->
  exists l s',
    filter_profiles lower hp sf s = (Ret l, s')
    /\ trace s' = trace s /\ files s' = files s
    /\ self_profiles s' = self_profiles s
    /\ self_is_admin s' = self_is_admin s.
Proof.
  intros Hl.
  destruct (filter_profiles_spec lower hp sf s Hl)
    as (l & s' & Hrun & _ & _ & Hsp & Had & Hf & Ht & _).
  by exists l, s'.
Qed.

Lemma filter_profiles_no_outside_effect_witness :
  exists l s',
    filter_profiles ascii_lower (Some false) None
      (state_with true sample_profiles) = (Ret l, s')
    /\ trace s' = [] /\ files s' = ∅
    /\ self_profiles s' = 1%positive
    /\ self_is_admin s' = true.
Proof.
  apply (filter_profiles_no_outside_effect ascii_lower (Some false) None
           (state_with true sample_profiles)).
  eexists. vm_compute. reflexivity.
Defined.

(** ** More on the statistics *)

Lemma count_auth_lookup m p a :
  default 0%Z (count_auth m p !! a)
  = (default 0 (m !! a) + if bool_decide (authentication p = a) then 1 else 0)%Z.
Proof.
  unfold count_auth. case_bool_decide as E.
  - subst a. by rewrite lookup_insert_eq.
  - rewrite lookup_insert_ne by done. lia.
Qed.

Lemma fold_count_auth_lookup ps : forall m a,
  default 0%Z (fold_left count_auth ps m !! a)
  = (default 0 (m !! a) + Z.of_nat (count_of a ps))%Z.
Proof.
  induction ps as [|p ps IH]; intros m a.
  - cbn [fold_left]. unfold count_of. simpl. lia.
  - cbn [fold_left]. rewrite IH, count_auth_lookup. unfold count_of.
    cbn [List.filter]. case_bool_decide; cbn [length]; lia.
Qed.

Lemma fold_count_auth_positive ps : forall m a n,
  (forall b k, m !! b = Some k -> (0 < k)%Z) ->
  fold_left count_auth ps m !! a = Some n -> (0 < n)%Z.
Proof.
  induction ps as [|p ps IH]; intros m a n Hm; [apply Hm|].
  cbn [fold_left]. apply IH. intros b k. unfold count_auth.
  destruct (decide (authentication p = b)) as [<-|Hne].
  - rewrite lookup_insert_eq. intros [= <-].
    destruct (m !! authentication p) as [k0|] eqn:E; simpl; [|lia].
    specialize (Hm _ _ E). lia.
  - rewrite lookup_insert_ne by done. apply Hm.
Qed.

Lemma histogram_sum_insert m a n :
  histogram_sum (<[a := n]> m)
  = (n + histogram_sum m - default 0 (m !! a))%Z.
Proof.
  unfold histogram_sum.
  destruct (m !! a) as [k|] eqn:E; simpl.
  - pose (m' := delete a m).
    assert (Hm : m = <[a := k]> m') by (symmetry; by apply insert_delete_id).
    assert (Hn : <[a := n]> m = <[a := n]> m')
      by (symmetry; apply insert_delete_eq).
    assert (Hl : m' !! a = None) by apply lookup_delete_eq.
    clearbody m'. rewrite Hn. clear Hn E. subst m.
    rewrite !map_fold_insert_L; try done; try (intros; lia).
  - rewrite map_fold_insert_L; [lia| intros; lia |done].
Qed.

Lemma histogram_sum_fold ps : forall m,
  histogram_sum (fold_left count_auth ps m)
  = (histogram_sum m + Z.of_nat (length ps))%Z.
Proof.
  induction ps as [|p ps IH]; intros m.
  - cbn [fold_left length]. lia.
  - cbn [fold_left]. rewrite IH. unfold count_auth.
    rewrite histogram_sum_insert. cbn [length]. lia.
Qed.

(** X14: the histogram of [get_stats] counts every stored profile once:
    under each authentication value it holds the number of profiles with
    that value, it has no entry for a value no profile has, no count is
    zero, and the counts add up to [total_profiles].  The call changes
    nothing. *)
Theorem get_stats_histogram (s : State) :
  exists st,
    get_stats s = (Ret st, s)
    /\ (forall a, default 0%Z (authentication_types st !! a)
                  = Z.of_nat (count_of a (deref (self_profiles s) s)))
    /\ (forall a n, authentication_types st !! a = Some n -> (0 < n)%Z)
    /\ histogram_sum (authentication_types st) = total_profiles st.
Proof.
  eexists. split; [reflexivity|]. cbn [authentication_types total_profiles].
  split; [|split].
  - intros a. rewrite fold_count_auth_lookup, lookup_empty. simpl. lia.
  - intros a n. apply fold_count_auth_positive. intros b k.
    by rewrite lookup_empty.
  - rewrite histogram_sum_fold. unfold histogram_sum.
    rewrite map_fold_empty. lia.
Qed.

(** ** Failures during the JSON export *)

Lemma export_to_json_run env filename profiles s :
  export_to_json env filename profiles s
  = match export_json_body env filename (chosen_profiles profiles s) s with
    | (Ret _, s') => (Ret true, s')
    | (Raise e, s') => (Ret false, logged (EvPrint (ERR_JSON ++ exn_str e)) s')
    end.
Proof. exact (export_with_run env JSON filename profiles s). Qed.

(** The run of the body of the JSON export, by what the file operations
    answer. *)
Lemma export_json_body_run env filename ps s :
  export_json_body env filename ps s
  = let text := json_text env ps s in
    let t1 := (trace s ++ [EvNow]) ++ [EvOpen filename] in
    let t2 := t1 ++ [EvWrite filename text] in
    let t3 := t2 ++ [EvClose filename] in
    let st fs t := mkState (heap s) (self_profiles s) (self_is_admin s) fs t in
    match open_fails env (trace s ++ [EvNow]) filename with
    | Some msg => (Raise (IOFailure msg), st (files s) t1)
    | None =>
      match write_fails env t1 filename text with
      | Some msg =>
        let reached := take (write_reached env t1 filename text) text in
        match close_fails env t2 filename with
        | Some msg2 =>
          (Raise (IOFailure msg2),
           st (<[filename := take (close_reached env t2 filename) reached]>
                 (files s)) t3)
        | None =>
          (Raise (IOFailure msg), st (<[filename := reached]> (files s)) t3)
        end
      | None =>
        match close_fails env t2 filename with
        | Some msg =>
          (Raise (IOFailure msg),
           st (<[filename := take (close_reached env t2 filename) text]>
                 (files s)) t3)
        | None => (Ret tt, st (<[filename := text]> (files s)) t3)
        end
      end
    end.
Proof.
  cbv zeta. unfold json_text, export_json_body.
  rewrite (bind_ret _ _ _ _ _ (now_iso_run env s)). unfold with_open.
  rewrite bind_run, fs_open_run. cbn [logged trace].
  destruct (open_fails env (trace s ++ [EvNow]) filename) as [msg|];
    [reflexivity|].
  rewrite bind_run, try_except_run. unfold json_dump.
  rewrite fs_write_run. cbn [heap self_profiles self_is_admin files trace].
  rewrite lookup_insert_eq, !insert_insert_eq.
  change (default [] (Some []) ++ ?x) with x.
  destruct (write_fails env _ filename _) as [msg|].
  - rewrite bind_run, fs_close_run.
    cbn [logged heap self_profiles self_is_admin files trace].
    rewrite lookup_insert_eq, insert_insert_eq.
    change (default [] (Some ?x)) with x.
    by destruct (close_fails env _ filename).
  - rewrite fs_close_run.
    cbn [logged heap self_profiles self_is_admin files trace].
    rewrite lookup_insert_eq, insert_insert_eq.
    change (default [] (Some ?x)) with x.
    by destruct (close_fails env _ filename).
Qed.

(** X15: [export_to_json] returns [True] exactly when opening the file,
    writing the document and closing the file all succeed. *)
Theorem export_to_json_true_iff_unhindered (env : Env) (filename : list N)
    (profiles : option positive) (s : State) :
  (exists s', export_to_json env filename profiles s = (Ret true, s'))
  <-> json_export_unhindered env filename (chosen_profiles profiles s) s.
Proof.
  rewrite export_to_json_run, export_json_body_run. cbv zeta.
  unfold json_export_unhindered.
  destruct (open_fails env _ filename) as [m1|];
    [split; [by intros [? ?] | by intros (? & _)]|].
  destruct (write_fails env _ filename _) as [m2|].
  - destruct (close_fails env _ filename) as [m3|];
      (split; [by intros [? ?] | by intros (_ & ? & _)]).
  - destruct (close_fails env _ filename) as [m3|].
    + split; [by intros [? ?] | by intros (_ & _ & ?)].
    + split; [done | intros _; by eexists].
Qed.

(** X16: when the file cannot be opened, [export_to_json] prints the
    message after "Error saving to JSON: ", returns [False], and leaves
    every file as it was. *)
Theorem export_to_json_failed_open (env : Env) (filename : list N)
    (profiles : option positive) (s : State) (msg : list N) :
  open_fails env (trace s ++ [EvNow]) filename = Some msg ->
  exists s',
    export_to_json env filename profiles s = (Ret false, s')
    /\ files s' = files s
    /\ trace s'
       = trace s ++ [EvNow; EvOpen filename; EvPrint (ERR_JSON ++ msg)].
Proof.
  intros H. rewrite export_to_json_run, export_json_body_run. cbv zeta.
  rewrite H. eexists. split; [reflexivity|]. cbn [logged files trace exn_str].
  split; [done|]. by rewrite <- !app_assoc.
Qed.

Lemma export_to_json_failed_open_witness :
  exists s',
    export_to_json (file_env (Some TXT_DISK_FULL) None None) SAMPLE_PATH None
      (state_with_file SAMPLE_PATH TXT_OLD_CONTENT sample_profiles)
    = (Ret false, s')
    /\ files s' = {[ SAMPLE_PATH := TXT_OLD_CONTENT ]}
    /\ trace s'
       = [EvNow; EvOpen SAMPLE_PATH; EvPrint (ERR_JSON ++ TXT_DISK_FULL)].
Proof.
  apply (export_to_json_failed_open (file_env (Some TXT_DISK_FULL) None None)
           SAMPLE_PATH None
           (state_with_file SAMPLE_PATH TXT_OLD_CONTENT sample_profiles)
           TXT_DISK_FULL).
  reflexivity.
Defined.

(** X17: when the file opens and writing the document fails,
    [export_to_json] returns [False] and the file holds only a beginning
    of the document, as much as reached it before the failure, possibly
    nothing: what it held before the call is lost. *)
Theorem export_to_json_failed_write (env : Env) (filename : list N)
    (profiles : option positive) (s : State) (msg : list N) :
  open_fails env (trace s ++ [EvNow]) filename = None ->
  write_fails env ((trace s ++ [EvNow]) ++ [EvOpen filename]) filename
    (json_text env (chosen_profiles profiles s) s) = Some msg ->
  exists s' k,
    export_to_json env filename profiles s = (Ret false, s')
    /\ files s' !! filename
       = Some (take k (json_text env (chosen_profiles profiles s) s)).
Proof.
  intros Ho Hw. rewrite export_to_json_run, export_json_body_run. cbv zeta.
  rewrite Ho, Hw.
  destruct (close_fails env _ filename); eexists _, _;
    (split; [reflexivity|]); cbn [logged files]; rewrite lookup_insert_eq;
    [by rewrite take_take|done].
Qed.

Lemma export_to_json_failed_write_witness :
  exists s' k,
    export_to_json (file_env None (Some TXT_DISK_FULL) None) SAMPLE_PATH None
      (state_with_file SAMPLE_PATH TXT_OLD_CONTENT sample_profiles)
    = (Ret false, s')
    /\ files s' !! SAMPLE_PATH
       = Some (take k (Json.dumps (json_data SAMPLE_ISO sample_profiles))).
Proof.
  apply (export_to_json_failed_write (file_env None (Some TXT_DISK_FULL) None)
           SAMPLE_PATH None
           (state_with_file SAMPLE_PATH TXT_OLD_CONTENT sample_profiles)
           TXT_DISK_FULL); reflexivity.
Defined.

(** X18: when only closing the file fails, [export_to_json] returns
    [False], and the file holds a beginning of the document, as much as
    reached it before the failure: all of it, or a cut-off text, or
    nothing. *)
Theorem export_to_json_failed_close (env : Env) (filename : list N)
    (profiles : option positive) (s : State) (msg : list N) :
  open_fails env (trace s ++ [EvNow]) filename = None ->
  write_fails env ((trace s ++ [EvNow]) ++ [EvOpen filename]) filename
    (json_text env (chosen_profiles profiles s) s) = None ->
  close_fails env
    (((trace s ++ [EvNow]) ++ [EvOpen filename])
       ++ [EvWrite filename (json_text env (chosen_profiles profiles s) s)])
    filename = Some msg ->
  exists s' k,
    export_to_json env filename profiles s = (Ret false, s')
    /\ files s' !! filename
       = Some (take k (json_text env (chosen_profiles profiles s) s)).
Proof.
  intros Ho Hw Hc. rewrite export_to_json_run, export_json_body_run. cbv zeta.
  rewrite Ho, Hw, Hc. eexists _, _. split; [reflexivity|].
  cbn [logged files]. by rewrite lookup_insert_eq.
Qed.

Lemma export_to_json_failed_close_witness :
  exists s' k,
    export_to_json (file_env None None (Some TXT_DISK_FULL)) SAMPLE_PATH None
      (state_with true sample_profiles)
    = (Ret false, s')
    /\ files s' !! SAMPLE_PATH
       = Some (take k (Json.dumps (json_data SAMPLE_ISO sample_profiles))).
Proof.
  apply (export_to_json_failed_close (file_env None None (Some TXT_DISK_FULL))
           SAMPLE_PATH None (state_with true sample_profiles) TXT_DISK_FULL);
    reflexivity.
Defined.

(** X19: after a successful JSON export the document read back from the
    file is the dictionary the exporter built, whole: the timestamp under
    ['generated'], the number of profiles under ['total_profiles'] (equal
    to the length of the array), and every profile with all seven fields,
    [last_modified] included; what the file held before is gone. *)
Theorem export_to_json_document (env : Env) (filename : list N)
    (profiles : option positive) (s s' : State) :
  export_to_json env filename profiles s = (Ret true, s') ->
  read_json filename s'
  = Some (Json.JObj [
      (K_GENERATED, Json.JStr (now_isoformat env (trace s)));
      (K_TOTAL_PROFILES, Json.JInt (len (chosen_profiles profiles s)));
      (K_PROFILES, Json.JArr (List.map to_dict (chosen_profiles profiles s)))]).
Proof.
  rewrite export_to_json_run, export_json_body_run. cbv zeta.
  destruct (open_fails env _ filename) as [m1|]; [by intros [=]|].
  destruct (write_fails env _ filename _) as [m2|];
    destruct (close_fails env _ filename) as [m3|]; intros [= <-].
  unfold read_json. cbn [files]. rewrite lookup_insert_eq.
  apply JsonFacts.loads_dumps, distinct_keys_json_data.
Qed.

Lemma export_to_json_document_witness :
  exists s',
    export_to_json quiet_env SAMPLE_PATH None
      (state_with_file SAMPLE_PATH TXT_OLD_CONTENT sample_profiles)
    = (Ret true, s')
    /\ read_json SAMPLE_PATH s'
       = Some (Json.JObj [
           (K_GENERATED, Json.JStr SAMPLE_ISO);
           (K_TOTAL_PROFILES, Json.JInt 3);
           (K_PROFILES, Json.JArr (List.map to_dict sample_profiles))]).
Proof.
  eexists. split; [reflexivity|].
  apply (export_to_json_document quiet_env SAMPLE_PATH None
           (state_with_file SAMPLE_PATH TXT_OLD_CONTENT sample_profiles)).
  reflexivity.
Defined.

(** ** What an export leaves alone *)

Lemma confined_ret {A} f (a : A) : confined f (mret a).
Proof.
  intros s r s' [= <- <-]. repeat split; try done.
  exists []. by rewrite app_nil_r.
Qed.

Lemma confined_raise {A} f e : confined f (@raise A e).
Proof.
  intros s r s' [= <- <-]. repeat split; try done.
  exists []. by rewrite app_nil_r.
Qed.

Lemma confined_get f : confined f get.
Proof.
  intros s r s' [= <- <-]. repeat split; try done.
  exists []. by rewrite app_nil_r.
Qed.

Lemma confined_step {A} f (m : M A) s r s' s0 :
  heap s0 = heap s /\ self_profiles s0 = self_profiles s
  /\ self_is_admin s0 = self_is_admin s
  /\ (forall path, path <> f -> files s0 !! path = files s !! path)
  /\ (exists evs, trace s0 = trace s ++ evs /\ Forall (event_on f) evs) ->
  confined f m -> m s0 = (r, s') ->
  heap s' = heap s /\ self_profiles s' = self_profiles s
  /\ self_is_admin s' = self_is_admin s
  /\ (forall path, path <> f -> files s' !! path = files s !! path)
  /\ exists evs, trace s' = trace s ++ evs /\ Forall (event_on f) evs.
Proof.
  intros (H1 & H2 & H3 & H4 & evs & H5 & H6) Hm Hrun.
  destruct (Hm _ _ _ Hrun) as (K1 & K2 & K3 & K4 & evs' & K5 & K6).
  split; [congruence|]. split; [congruence|]. split; [congruence|].
  split; [intros path Hp; by rewrite K4, H4|].
  exists (evs ++ evs'). split; [by rewrite K5, H5, app_assoc|].
  by apply Forall_app.
Qed.

Lemma confined_bind {A B} f (m : M A) (k : A -> M B) :
  confined f m -> (forall a, confined f (k a)) -> confined f (m ≫= k).
Proof.
  intros Hm Hk s r s'. rewrite bind_run.
  destruct (m s) as [[a|e] s0] eqn:E.
  - apply (confined_step f (k a) s); [by apply (Hm s (Ret a))|apply Hk].
  - intros [= <- <-]. by apply (Hm s (Raise e)).
Qed.

Lemma confined_try_except {A} f (body : M A) handler :
  confined f body -> (forall e, confined f (handler e)) ->
  confined f (try_except body handler).
Proof.
  intros Hb Hh s r s'. rewrite try_except_run.
  destruct (body s) as [[a|e] s0] eqn:E.
  - intros [= <- <-]. by apply (Hb s (Ret a)).
  - apply (confined_step f (handler e) s); [by apply (Hb s (Raise e))|apply Hh].
Qed.

Lemma confined_log f ev : event_on f ev -> confined f (log ev).
Proof.
  intros Hev s r s' [= <- <-]. repeat split; try done.
  exists [ev]. split; [done|by constructor].
Qed.

Lemma confined_logged f ev s :
  event_on f ev ->
  exists evs, trace (logged ev s) = trace s ++ evs /\ Forall (event_on f) evs.
Proof. intros H. exists [ev]. split; [done|by constructor]. Qed.

Lemma confined_fs_open env f : confined f (fs_open env f).
Proof.
  intros s r s'. rewrite fs_open_run.
  destruct (open_fails env (trace s) f); intros [= <- <-];
    (repeat split; [..|by apply confined_logged]); try done.
  intros path Hp. cbn [files]. by rewrite lookup_insert_ne.
Qed.

Lemma confined_fs_write env f text : confined f (fs_write env f text).
Proof.
  intros s r s'. rewrite fs_write_run.
  destruct (write_fails env (trace s) f text); intros [= <- <-];
    (repeat split; [..|by apply (confined_logged f (EvWrite f text))]);
    try done;
    intros path Hp; cbn [files]; by rewrite lookup_insert_ne.
Qed.

Lemma confined_fs_close env f : confined f (fs_close env f).
Proof.
  intros s r s'. rewrite fs_close_run.
  destruct (close_fails env (trace s) f); intros [= <- <-];
    (repeat split; [..|by apply (confined_logged f (EvClose f))]);
    try done.
  intros path Hp. cbn [files]. by rewrite lookup_insert_ne.
Qed.

Lemma confined_for_each {A} f (body : A -> M unit) xs :
  (forall x, confined f (body x)) -> confined f (for_each xs body).
Proof.
  intros Hb. induction xs as [|x xs IH]; [apply confined_ret|].
  cbn [for_each]. apply confined_bind; [apply Hb | intros _; exact IH].
Qed.

Lemma confined_with_open env f body :
  confined f body -> confined f (with_open env f body).
Proof.
  intros Hb. unfold with_open.
  apply confined_bind; [apply confined_fs_open|]. intros _.
  apply confined_bind; [|intros _; apply confined_fs_close].
  apply confined_try_except; [exact Hb|]. intros e.
  apply confined_bind; [apply confined_fs_close|]. intros _.
  apply confined_raise.
Qed.

Lemma confined_now_formatted env f : confined f (now_formatted env).
Proof.
  intros s r s'. rewrite now_formatted_run. intros [= <- <-].
  repeat split; try done. by apply confined_logged.
Qed.

Lemma confined_now_iso env f : confined f (now_iso env).
Proof.
  intros s r s'. rewrite now_iso_run. intros [= <- <-].
  repeat split; try done. by apply confined_logged.
Qed.

Lemma confined_export_body env fmt f ps : confined f (export_body env fmt f ps).
Proof.
  destruct fmt; cbn [export_body].
  - unfold export_txt_body. apply confined_with_open.
    apply confined_bind; [apply confined_fs_write|]. intros _.
    apply confined_bind; [apply confined_now_formatted|]. intros stamp.
    apply confined_bind; [apply confined_fs_write|]. intros _.
    apply confined_bind; [apply confined_fs_write|]. intros _.
    apply confined_for_each. intros [i p]. unfold txt_profile_block.
    repeat (apply confined_bind; [apply confined_fs_write|]; intros _).
    apply confined_fs_write.
  - unfold export_csv_body. apply confined_with_open.
    apply confined_bind; [apply confined_fs_write|]. intros _.
    apply confined_for_each. intros p. apply confined_fs_write.
  - unfold export_json_body.
    apply confined_bind; [apply confined_now_iso|]. intros g.
    apply confined_with_open. apply confined_fs_write.
Qed.

Lemma confined_export_with env fmt f profiles :
  confined f (export_with env fmt f profiles).
Proof.
  intros s r s'. rewrite export_with_run.
  destruct (export_body env fmt f (chosen_profiles profiles s) s)
    as [[[]|e] s0] eqn:E; intros [= <- <-].
  - exact (confined_export_body env fmt f _ s (Ret tt) s0 E).
  - apply (confined_step f (log (EvPrint (error_prefix fmt ++ exn_str e))) s
             (Ret tt) _ s0).
    + exact (confined_export_body env fmt f _ s (Raise e) s0 E).
    + by apply confined_log.
    + reflexivity.
Qed.

Lemma export_with_returns env fmt f profiles s :
  exists b s', export_with env fmt f profiles s = (Ret b, s').
Proof.
  rewrite export_with_run.
  destruct (export_body env fmt f (chosen_profiles profiles s) s)
    as [[[]|e] s0]; eauto.
Qed.

(** X20: an export, in any of the three formats and whether it succeeds
    or fails, leaves the profiles alone: every list object holds what it
    held, and [self.profiles] and the elevation flag are unchanged. *)
Theorem export_keeps_profiles (env : Env) (fmt : format) (filename : list N)
    (profiles : option positive) (s : State) :
  exists b s',
    export_with env fmt filename profiles s = (Ret b, s')
    /\ (forall l, deref l s' = deref l s)
    /\ self_profiles s' = self_profiles s
    /\ self_is_admin s' = self_is_admin s.
Proof.
  destruct (export_with_returns env fmt filename profiles s) as (b & s' & E).
  exists b, s'. split; [exact E|].
  destruct (confined_export_with env fmt filename profiles s _ _ E)
    as (H1 & H2 & H3 & _).
  split; [|done]. intros l. unfold deref. by rewrite H1.
Qed.

(** X21: an export, in any of the three formats and whether it succeeds
    or fails, runs no command and opens, writes and closes no file but the
    one it was given: every other file holds what it held, and the only
    other effects are reading the clock and printing. *)
Theorem export_touches_only_its_file (env : Env) (fmt : format)
    (filename : list N) (profiles : option positive) (s : State) :
  exists b s' evs,
    export_with env fmt filename profiles s = (Ret b, s')
    /\ (forall path, path <> filename -> files s' !! path = files s !! path)
    /\ trace s' = trace s ++ evs
    /\ Forall (event_on filename) evs.
Proof.
  destruct (export_with_returns env fmt filename profiles s) as (b & s' & E).
  destruct (confined_export_with env fmt filename profiles s _ _ E)
    as (_ & _ & _ & H4 & evs & H5 & H6).
  by exists b, s', evs.
Qed.

(** ** The text and CSV exports when nothing fails *)

Lemma appends_write env f text :
  never_fails env f -> appends f text (fs_write env f text).
Proof.
  intros (_ & Hw & _) s c Hc. rewrite fs_write_run, Hw. eexists.
  split; [reflexivity|]. cbn [files]. by rewrite lookup_insert_eq, Hc.
Qed.

Lemma appends_bind f t1 t2 (m : M unit) (k : unit -> M unit) :
  appends f t1 m -> (forall a, appends f t2 (k a)) ->
  appends f (t1 ++ t2) (m ≫= k).
Proof.
  intros Hm Hk s c Hc. destruct (Hm s c Hc) as (s1 & E1 & H1).
  destruct (Hk tt s1 _ H1) as (s2 & E2 & H2).
  exists s2. rewrite (bind_ret _ _ _ _ _ E1). split; [exact E2|].
  by rewrite app_assoc.
Qed.

Lemma appends_for_each {A} f (g : A -> list N) (body : A -> M unit) xs :
  (forall x, appends f (g x) (body x)) ->
  appends f (concat (List.map g xs)) (for_each xs body).
Proof.
  intros Hb. induction xs as [|x xs IH].
  - intros s c Hc. exists s. split; [done|]. by rewrite app_nil_r.
  - cbn [for_each List.map concat]. apply appends_bind; [apply Hb|].
    intros _. exact IH.
Qed.

Lemma appends_txt_profile_block env f ip :
  never_fails env f -> appends f (txt_block ip) (txt_profile_block env f ip).
Proof.
  intros H. destruct ip as [i p]. unfold txt_profile_block, txt_block.
  cbv beta iota. cbn [fst snd].
  repeat (apply appends_bind; [by apply appends_write|]; intros _).
  by apply appends_write.
Qed.

(** A [with] block whose body succeeds, when opening and closing do. *)
Lemma with_open_run_ok env f body s s2 :
  never_fails env f -> body (opened f s) = (Ret tt, s2) ->
  with_open env f body s = (Ret tt, logged (EvClose f) s2).
Proof.
  intros (Ho & _ & Hc) Hb. unfold with_open.
  rewrite bind_run, fs_open_run, Ho. fold (opened f s).
  rewrite bind_run, try_except_run, Hb. by rewrite fs_close_run, Hc.
Qed.

(** X22: when no operation on the file fails, [export_to_txt] returns
    [True] and the file then holds exactly the banner, the line with the
    time read after the banner was written, the total, and one block per
    profile, in order, numbered from 1; what the file held before is
    gone. *)
Theorem export_to_txt_content (env : Env) (filename : list N)
    (profiles : option positive) (s : State) :
  never_fails env filename ->
  exists s',
    export_to_txt env filename profiles s = (Ret true, s')
    /\ files s' !! filename
       = Some (txt_document
                 (now_strftime env
                    ((trace s ++ [EvOpen filename])
                       ++ [EvWrite filename (TXT_BANNER ++ [NL])]))
                 (chosen_profiles profiles s)).
Proof.
  intros H. pose proof H as (Ho & Hw & Hc).
  pose proof (export_with_run env TXT filename profiles s) as E.
  cbn [export_with export_body] in E. rewrite E. clear E.
  set (ps := chosen_profiles profiles s).
  set (stamp := now_strftime env _).
  assert (Hbody : exists s2,
    (_ ← fs_write env filename (TXT_BANNER ++ [NL]);
     stamp ← now_formatted env;
     _ ← fs_write env filename (TXT_GENERATED ++ stamp ++ [NL]);
     _ ← fs_write env filename (TXT_TOTAL ++ int_str (len ps) ++ [NL; NL]);
     for_each (enumerate 1 ps) (txt_profile_block env filename))
      (opened filename s) = (Ret tt, s2)
    /\ files s2 !! filename = Some (txt_document stamp ps)).
  { rewrite bind_run, fs_write_run, Hw.
    rewrite bind_run, now_formatted_run. cbn [trace opened]. fold stamp.
    assert (Ha : appends filename
              ((TXT_GENERATED ++ stamp ++ [NL])
               ++ (TXT_TOTAL ++ int_str (len ps) ++ [NL; NL])
               ++ concat (List.map txt_block (enumerate 1 ps)))
              (_ ← fs_write env filename (TXT_GENERATED ++ stamp ++ [NL]);
               _ ← fs_write env filename
                     (TXT_TOTAL ++ int_str (len ps) ++ [NL; NL]);
               for_each (enumerate 1 ps) (txt_profile_block env filename))).
    { apply appends_bind; [by apply appends_write|]. intros _.
      apply appends_bind; [by apply appends_write|]. intros _.
      apply appends_for_each. intros ip.
      by apply appends_txt_profile_block. }
    match goal with
    | |- exists s2, _ ?s1 = _ /\ _ =>
      destruct (Ha s1 (TXT_BANNER ++ [NL])) as (s2 & E2 & H2)
    end.
    { unfold opened. cbn [logged files]. rewrite !lookup_insert_eq.
      reflexivity. }
    exists s2. split; [exact E2|]. rewrite H2. unfold txt_document.
    by rewrite <- !app_assoc. }
  destruct Hbody as (s2 & E2 & H2).
  unfold export_txt_body. rewrite (with_open_run_ok env filename _ s s2 H E2).
  eexists. split; [reflexivity|]. exact H2.
Qed.

Lemma export_to_txt_content_witness :
  exists s',
    export_to_txt quiet_env SAMPLE_TXT_PATH None
      (state_with_file SAMPLE_TXT_PATH TXT_OLD_CONTENT sample_profiles)
    = (Ret true, s')
    /\ files s' !! SAMPLE_TXT_PATH
       = Some (txt_document SAMPLE_STAMP sample_profiles).
Proof.
  apply (export_to_txt_content quiet_env SAMPLE_TXT_PATH None
           (state_with_file SAMPLE_TXT_PATH TXT_OLD_CONTENT sample_profiles)).
  repeat split.
Defined.

(** X23: when no operation on the file fails, [export_to_csv] returns
    [True] and the file then holds exactly the header row and one row per
    profile, in order, with the six displayable fields; what the file held
    before is gone. *)
Theorem export_to_csv_content (env : Env) (filename : list N)
    (profiles : option positive) (s : State) :
  never_fails env filename ->
  exists s',
    export_to_csv env filename profiles s = (Ret true, s')
    /\ files s' !! filename
       = Some (csv_document (chosen_profiles profiles s)).
Proof.
  intros H.
  pose proof (export_with_run env CSV filename profiles s) as E.
  cbn [export_with export_body] in E. rewrite E. clear E.
  set (ps := chosen_profiles profiles s).
  assert (Ha : appends filename (csv_document ps)
            (_ ← fs_write env filename (Csv.csv_row CSV_FIELDNAMES);
             for_each ps (fun profile =>
               fs_write env filename (Csv.csv_row (csv_profile_row profile))))).
  { apply appends_bind; [by apply appends_write|]. intros _.
    apply (appends_for_each filename
             (fun p => Csv.csv_row (csv_profile_row p))).
    intros p. by apply appends_write. }
  destruct (Ha (opened filename s) []) as (s2 & E2 & H2).
  { cbn [opened files]. by rewrite lookup_insert_eq. }
  unfold export_csv_body. rewrite (with_open_run_ok env filename _ s s2 H E2).
  eexists. split; [reflexivity|]. exact H2.
Qed.

Lemma export_to_csv_content_witness :
  exists s',
    export_to_csv quiet_env SAMPLE_CSV_PATH None
      (state_with_file SAMPLE_CSV_PATH TXT_OLD_CONTENT sample_profiles)
    = (Ret true, s')
    /\ files s' !! SAMPLE_CSV_PATH = Some (csv_document sample_profiles).
Proof.
  apply (export_to_csv_content quiet_env SAMPLE_CSV_PATH None
           (state_with_file SAMPLE_CSV_PATH TXT_OLD_CONTENT sample_profiles)).
  repeat split.
Defined.

(** ** The CSV document determines the rows *)

Lemma csv_read_quoted_doubled f : forall rest acc,
  csv_field_end rest ->
  csv_read_quoted (Csv.double_quotes f ++ QUOTE :: rest) acc
  = Some (acc ++ f, rest).
Proof.
  induction f as [|c f IH]; intros rest acc Hr.
  - destruct Hr as (d & r & -> & [-> | ->]); cbn; by rewrite app_nil_r.
  - cbn [Csv.double_quotes]. destruct (c =? QUOTE) eqn:E.
    + apply N.eqb_eq in E as ->. cbn [app csv_read_quoted].
      change (QUOTE =? QUOTE) with true. cbv iota.
      rewrite IH by done. by rewrite <- app_assoc.
    + cbn [app csv_read_quoted]. rewrite E.
      rewrite IH by done. by rewrite <- app_assoc.
Qed.

Lemma csv_read_plain_field f rest :
  existsb Csv.special f = false -> csv_field_end rest ->
  csv_read_plain (f ++ rest) = (f, rest).
Proof.
  intros Hf Hr. induction f as [|c f IH].
  - destruct Hr as (d & r & -> & [-> | ->]); reflexivity.
  - cbn [existsb] in Hf. apply orb_false_iff in Hf as [Hc Hf].
    cbn [app csv_read_plain]. by rewrite Hc, (IH Hf).
Qed.

(** A field reads back as it was given to the writer. *)
Lemma csv_read_field_written f rest :
  csv_field_end rest ->
  csv_read_field (Csv.csv_field f ++ rest) = Some (f, rest).
Proof.
  intros Hr. unfold Csv.csv_field, Csv.needs_quotes.
  destruct (existsb Csv.special f) eqn:E.
  - rewrite <- !app_assoc. cbn [app csv_read_field].
    change (QUOTE =? QUOTE) with true. cbv iota.
    by rewrite csv_read_quoted_doubled.
  - pose proof (csv_read_plain_field f rest E Hr) as Hp.
    destruct f as [|c f].
    + destruct Hr as (d & r & -> & [-> | ->]); reflexivity.
    + cbn [app csv_read_field] in Hp |- *.
      cbn [existsb] in E. apply orb_false_iff in E as [Hc _].
      assert (Hq : (c =? QUOTE) = false).
      { unfold Csv.special in Hc. rewrite !orb_false_iff in Hc.
        by destruct Hc as [[[_ ?] _] _]. }
      by rewrite Hq, Hp.
Qed.

Lemma csv_read_row_written fields : forall fuel rest,
  fields <> [] -> (length fields <= fuel)%nat ->
  csv_read_row fuel (Csv.csv_row fields ++ rest) = Some (fields, rest).
Proof.
  unfold Csv.csv_row.
  induction fields as [|f fields IH]; intros fuel rest Hne Hf; [done|].
  destruct fuel as [|fuel]; [simpl in Hf; lia|].
  destruct fields as [|g fields].
  - cbn [List.map join]. rewrite <- !app_assoc. cbn [csv_read_row].
    rewrite csv_read_field_written by (eexists _, _; split; [reflexivity|by right]).
    reflexivity.
  - cbn [List.map]. rewrite JsonFacts.join_cons2, <- !app_assoc. cbn [csv_read_row].
    rewrite csv_read_field_written by (eexists _, _; split; [reflexivity|by left]).
    cbn [app]. change (COMMA =? COMMA) with true. cbv iota.
    pose proof (IH fuel rest ltac:(done) ltac:(simpl in Hf |- *; lia)) as IH'.
    cbn [List.map] in IH'. rewrite <- !app_assoc in IH'. cbn [app] in IH'.
    by rewrite IH'.
Qed.

Lemma length_csv_row fields :
  (length fields <= length (Csv.csv_row fields))%nat.
Proof.
  unfold Csv.csv_row. rewrite length_app. cbn [length].
  induction fields as [|f fields IH]; [simpl; lia|].
  destruct fields as [|g fields]; [simpl; lia|].
  cbn [List.map] in *. rewrite JsonFacts.join_cons2, !length_app. cbn [length] in *. lia.
Qed.

Lemma csv_read_rows_written rows : forall fuel,
  Forall (fun row => row <> []) rows -> (length rows < fuel)%nat ->
  csv_read_rows fuel (concat (List.map Csv.csv_row rows)) = Some rows.
Proof.
  induction rows as [|row rows IH]; intros fuel Hne Hf.
  - destruct fuel; [simpl in Hf; lia|reflexivity].
  - destruct fuel as [|fuel]; [simpl in Hf; lia|].
    apply Forall_cons in Hne as [Hrow Hne].
    cbn [List.map concat csv_read_rows].
    destruct (Csv.csv_row row ++ concat (List.map Csv.csv_row rows))
      as [|c text] eqn:E.
    { exfalso. apply (f_equal length) in E. rewrite length_app in E.
      unfold Csv.csv_row in E. rewrite length_app in E. simpl in E. lia. }
    rewrite <- E. rewrite csv_read_row_written; [|done|].
    + rewrite IH; [done|done|simpl in Hf; lia].
    + rewrite length_app. pose proof (length_csv_row row). lia.
Qed.

(** A reader of the dialect gets back the header and, for each profile,
    its six fields. *)
Lemma csv_read_document ps :
  csv_read (csv_document ps)
  = Some (CSV_FIELDNAMES :: List.map csv_profile_row ps).
Proof.
  unfold csv_read, csv_document.
  pose proof (csv_read_rows_written
                (CSV_FIELDNAMES :: List.map csv_profile_row ps)) as H.
  cbn [List.map concat] in H. rewrite List.map_map in H.
  apply H.
  - constructor; [done|]. apply Forall_map, Forall_forall. by intros p _.
  - rewrite length_app. cbn [length]. rewrite length_map.
    pose proof (length_csv_row CSV_FIELDNAMES) as H1.
    change (length CSV_FIELDNAMES) with 6%nat in H1.
    assert (H2 : (length ps
                  <= length (concat (List.map
                       (fun p => Csv.csv_row (csv_profile_row p)) ps)))%nat).
    { clear. induction ps as [|p ps IH]; [done|].
      cbn [List.map concat length]. rewrite length_app.
      pose proof (length_csv_row (csv_profile_row p)) as Hp.
      change (length (csv_profile_row p)) with 6%nat in Hp. lia. }
    lia.
Qed.

(** X24: the CSV export loses nothing of the six displayable fields:
    two collections whose CSV documents are equal have, profile by
    profile, the same ssid, authentication, encryption, key, key type and
    profile type, whatever commas, quotes or line breaks the fields hold. *)
Theorem csv_document_determines_rows (ps qs : list WifiProfile) :
  csv_document ps = csv_document qs ->
  List.map csv_profile_row ps = List.map csv_profile_row qs.
Proof.
  intros H. pose proof (csv_read_document ps) as Hp.
  rewrite H, csv_read_document in Hp. by injection Hp.
Qed.

Lemma csv_document_determines_rows_witness :
  List.map csv_profile_row [sample_profile TXT_ODD_NAME TXT_SECRET]
  = List.map csv_profile_row [sample_profile TXT_ODD_NAME TXT_SECRET].
Proof.
  apply (csv_document_determines_rows
           [sample_profile TXT_ODD_NAME TXT_SECRET]
           [sample_profile TXT_ODD_NAME TXT_SECRET]).
  reflexivity.
Defined.

(** ** The window *)

Lemma is_password_has_password p : Gui.is_password p = has_password_b p.
Proof.
  unfold Gui.is_password, has_password_b, str_eqb.
  rewrite <- andb_assoc. f_equal. rewrite <- negb_orb. f_equal.
  destruct (decide (key p = NO_PASSWORD_SAVED)) as [E1|E1];
    destruct (decide (key p = NOT_FOUND)) as [E2|E2];
    rewrite ?(bool_decide_eq_true_2 _ E1), ?(bool_decide_eq_false_2 _ E1),
      ?(bool_decide_eq_true_2 _ E2), ?(bool_decide_eq_false_2 _ E2);
    cbn [orb];
    [apply bool_decide_eq_true_2 | apply bool_decide_eq_true_2
     | apply bool_decide_eq_true_2 | apply bool_decide_eq_false_2];
    rewrite !elem_of_cons, elem_of_nil; tauto.
Qed.

(** X25: the table masks the key of exactly the profiles the filter
    engine counts as having a password: for those the cell holds only
    stars, as many as the key has characters, and for the others it holds
    the key itself, which is then empty or one of the two sentinels. *)
Theorem table_masks_passwords (p : WifiProfile) :
  length (Gui.password_display p) = length (key p)
  /\ (has_password_b p = true ->
      Gui.password_display p = repeat Gui.STAR (length (key p)))
  /\ (has_password_b p = false ->
      Gui.password_display p = key p
      /\ (key p = [] \/ key p = NO_PASSWORD_SAVED \/ key p = NOT_FOUND)).
Proof.
  unfold Gui.password_display. rewrite is_password_has_password.
  split; [|split].
  - destruct (has_password_b p); [apply repeat_length|done].
  - by intros ->.
  - intros H. rewrite H. split; [done|].
    assert (Hn : no_password_b p = true)
      by (by rewrite no_password_b_negb, H).
    by apply no_password_b_true.
Qed.

(** X26: [copy_password] puts on the clipboard the key, unchanged, of
    exactly the profiles the filter engine counts as having a password;
    for the others it puts nothing there. *)
Theorem copy_password_only_passwords (p : WifiProfile) (text : list N) :
  fst (Gui.copy_password p) = Some text
  <-> has_password_b p = true /\ text = key p.
Proof.
  unfold Gui.copy_password. rewrite is_password_has_password.
  destruct (has_password_b p); cbn [fst]; split.
  - by intros [= <-].
  - by intros [_ ->].
  - done.
  - by intros [? _].
Qed.

(** X27: with the dropdown on "all" and a text field that is empty or
    holds only whitespace, [apply_filters] filters nothing: the list the
    window then shows and exports is the extractor's own list object, not
    a copy, and the machine is as it was. *)
Theorem apply_filters_blank (lower : list N -> list N)
    (gui_profiles : positive) (value : list N) (s : State) :
  Forall (fun c => isspace c = true) value ->
  deref gui_profiles s <> [] ->
  Gui.apply_filters lower gui_profiles (Some value) (Some Gui.OPT_ALL) s
  = (Ret (Some (self_profiles s)), s).
Proof.
  intros Hv Hne. unfold Gui.apply_filters.
  rewrite (bind_ret get _ s s s eq_refl).
  destruct (deref gui_profiles s) as [|p ps]; [done|].
  assert (Hf : Gui.ssid_filter_of (Some value) = None
               \/ Gui.ssid_filter_of (Some value) = Some []).
  { unfold Gui.ssid_filter_of. destruct (truthy value); [right|by left].
    f_equal. unfold strip. apply rstrip_nil_iff, Forall_lstrip, Hv. }
  change (Gui.has_password_of (Some Gui.OPT_ALL)) with (@None bool).
  by destruct Hf as [-> | ->].
Qed.

Lemma apply_filters_blank_witness :
  Gui.apply_filters ascii_lower 1%positive (Some TXT_BLANKS)
    (Some Gui.OPT_ALL) (state_with true sample_profiles)
  = (Ret (Some 1%positive), state_with true sample_profiles).
Proof.
  apply (apply_filters_blank ascii_lower 1%positive TXT_BLANKS
           (state_with true sample_profiles)).
  - repeat constructor.
  - discriminate.
Defined.

(** ** Failures of the tool and sentinel values *)

Lemma split_nl_prefix pre s :
  Forall (fun c => c <> NL) pre ->
  split_nl (pre ++ s) = (pre ++ hd [] (split_nl s)) :: tail (split_nl s).
Proof.
  induction 1 as [|c pre Hc _ IH]; cbn [app].
  - induction s as [|d s _]; [done|]. cbn [split_nl].
    destruct (d =? NL); [done|]. by destruct (split_nl s).
  - cbn [split_nl]. by rewrite (proj2 (N.eqb_neq c NL) Hc), IH.
Qed.

Lemma parse_profile_list_no_header output :
  Forall (fun l => startswith LBL_USER_PROFILES (strip l) = false)
         (split_nl output) ->
  _parse_profile_list output = [].
Proof.
  intros H. unfold _parse_profile_list.
  rewrite <- (app_nil_r (split_nl output)).
  by rewrite (parse_list_loop_before _ [] [] H).
Qed.

Lemma strip_error_text text :
  startswith LBL_USER_PROFILES (strip (ERROR_PREFIX ++ text)) = false
  /\ startswith LBL_USER_PROFILES (strip (EXCEPTION_PREFIX ++ text)) = false.
Proof.
  unfold strip. split.
  - change (ERROR_PREFIX ++ text) with (69 :: (List.tl ERROR_PREFIX ++ text)).
    rewrite lstrip_nonspace by reflexivity.
    by rewrite rstrip_cons_nonspace.
  - change (EXCEPTION_PREFIX ++ text)
      with (69 :: (List.tl EXCEPTION_PREFIX ++ text)).
    rewrite lstrip_nonspace by reflexivity.
    by rewrite rstrip_cons_nonspace.
Qed.

(** The text [_run_command] returns for a failure holds no section. *)
Lemma parse_profile_list_error_text text :
  no_header_after_first_line text ->
  _parse_profile_list (ERROR_PREFIX ++ text) = []
  /\ _parse_profile_list (EXCEPTION_PREFIX ++ text) = [].
Proof.
  intros H. split; apply parse_profile_list_no_header.
  - rewrite (split_nl_prefix ERROR_PREFIX text) by (by repeat constructor).
    constructor; [|exact H]. apply strip_error_text.
  - rewrite (split_nl_prefix EXCEPTION_PREFIX text) by (by repeat constructor).
    constructor; [|exact H]. apply strip_error_text.
Qed.

(** A text of one line, with or without a newline at its end, has no
    header after its first line. *)
Lemma one_line_no_header line :
  Forall (fun c => c <> NL) line ->
  no_header_after_first_line line
  /\ no_header_after_first_line (line ++ [NL]).
Proof.
  intros H. unfold no_header_after_first_line.
  rewrite (split_nl_prefix line [NL] H).
  pose proof (split_nl_prefix line [] H) as E. rewrite app_nil_r in E.
  rewrite E. split; [constructor|]. by repeat constructor.
Qed.

(** X28: a failure of the list command is not reported: when the tool
    ends with a return code other than zero, or cannot be started, and no
    line of the error text after its first starts the user-profiles
    section (so for every message of one line, with or without the
    newline at its end), [extract_profiles] does not raise; it stores and
    returns an empty list and runs no detail command. *)
Theorem extract_profiles_swallows_failure (env : Env) (s : State) :
  self_is_admin s = true ->
  (exists rc out err,
     subprocess_run env (trace s) CMD_SHOW_PROFILES = RunCompleted rc out err
     /\ rc <> 0%Z /\ no_header_after_first_line err)
  \/ (exists text,
        subprocess_run env (trace s) CMD_SHOW_PROFILES = RunRaised text
        /\ no_header_after_first_line text) ->
  exists l s',
    extract_profiles env s = (Ret l, s')
    /\ self_profiles s' = l
    /\ deref l s' = []
    /\ trace s' = trace s ++ [EvRun CMD_SHOW_PROFILES; EvPrintNames []].
Proof.
  intros H Hfail.
  assert (Hn : listed_names env s = []).
  { unfold listed_names.
    destruct Hfail as [(rc & out & err & -> & Hrc & Hnl) | (text & -> & Hnl)];
      cbn [command_output].
    - rewrite (proj2 (Z.eqb_neq rc 0) Hrc).
      by apply parse_profile_list_error_text.
    - by apply parse_profile_list_error_text. }
  eexists _, _. split; [apply (extract_profiles_run env s H)|].
  rewrite Hn. cbn [self_profiles trace extracted List.map].
  split; [done|]. split; [|by rewrite app_nil_r].
  unfold deref. cbn [heap]. by rewrite lookup_insert_eq.
Qed.

Lemma extract_profiles_swallows_failure_witness :
  exists l s',
    extract_profiles failing_tool_env (state_with true sample_profiles)
    = (Ret l, s')
    /\ self_profiles s' = l
    /\ deref l s' = []
    /\ trace s' = [EvRun CMD_SHOW_PROFILES; EvPrintNames []].
Proof.
  apply (extract_profiles_swallows_failure failing_tool_env
           (state_with true sample_profiles)).
  - reflexivity.
  - left. exists 1%Z, [], TXT_NO_SERVICE.
    split; [reflexivity|]. split; [discriminate|].
    vm_compute. repeat constructor.
Defined.

(** X29: the sentinels are ordinary strings: a network whose stored
    secret is the text "Not found" or "No password saved" is parsed with
    that text as its key, and from then on it counts as having no
    password; the filter for profiles without password keeps it, and the
    table shows the secret unmasked. *)
Theorem sentinel_secret_counts_as_no_password (output profile_name : list N)
    (pre : list (list N)) (line : list N) (post : list (list N)) (v : list N) :
  split_nl output = pre ++ line :: post ->
  is_key_content_line (strip line) = true ->
  is_auth_line (strip line) = false ->
  is_cipher_line (strip line) = false ->
  line_value line = Some v ->
  v = NOT_FOUND \/ v = NO_PASSWORD_SAVED ->
  Forall (fun l => is_key_content_line (strip l) = false) post ->
  let p := _parse_profile_details output profile_name in
  key p = v
  /\ has_password_b p = false
  /\ no_password_b p = true
  /\ Gui.password_display p = v
  /\ fst (Gui.copy_password p) = None.
Proof.
  intros Hs Hk Ha Hc Hv Hsent Hpost p.
  assert (Hnl : Forall (fun c => c <> NL) line).
  { pose proof (split_nl_no_nl output) as H. rewrite Hs in H.
    apply Forall_app in H as [_ H]. by inversion H. }
  assert (Hne : v <> []) by (by destruct Hsent as [-> | ->]).
  assert (Hab : v <> ABSENT) by (by destruct Hsent as [-> | ->]).
  destruct (re_search_value_line line v Hnl Hv Hne) as (g & Hg & Hgv).
  assert (Hkey : key p = v).
  { subst p. unfold _parse_profile_details.
    rewrite Hs, fold_left_app. cbn [fold_left].
    rewrite (fold_details_key_other _ _ Hpost). rewrite <- Hgv in Hne, Hab |- *.
    by apply details_step_key_line. }
  assert (Hhp : has_password_b p = false).
  { unfold has_password_b, str_eqb. rewrite Hkey.
    destruct Hsent as [-> | ->]; reflexivity. }
  split; [done|]. split; [done|]. split; [by rewrite no_password_b_negb, Hhp|].
  unfold Gui.password_display, Gui.copy_password.
  by rewrite is_password_has_password, Hhp.
Qed.

Lemma sentinel_secret_counts_as_no_password_witness :
  let p := _parse_profile_details OUT_SENTINEL_KEY TXT_HOME in
  key p = NOT_FOUND
  /\ has_password_b p = false
  /\ no_password_b p = true
  /\ Gui.password_display p = NOT_FOUND
  /\ fst (Gui.copy_password p) = None.
Proof.
  apply (sentinel_secret_counts_as_no_password OUT_SENTINEL_KEY TXT_HOME
           (firstn 1 (split_nl OUT_SENTINEL_KEY))
           (nth 1 (split_nl OUT_SENTINEL_KEY) [])
           (skipn 2 (split_nl OUT_SENTINEL_KEY)) NOT_FOUND).
  - reflexivity.
  - reflexivity.
  - reflexivity.
  - reflexivity.
  - reflexivity.
  - by left.
  - constructor.
Defined.
